(** * Smart Content Moderator: the moderation pipeline

    A shallow embedding of the moderation pipeline of the service
    (fingerprinting in [app/utils/hashing.py], the verdict parser in
    [app/services/llm_service.py], the request handlers in
    [app/routes/moderation.py] and the notification fan-out in
    [app/services/notification_service.py]), followed by the properties
    the design document states about it.  The image checks of
    [app/services/image_service.py] and the summaries of
    [app/routes/analytics.py] are embedded as well, and further
    properties of the code follow those of the design document.

    Conventions of the embedding.
    - A Python [str] is a list of 8-bit characters that carries the UTF-8
      form of the text.  ASCII letters and ASCII white space are
      interpreted; bytes above 127 are carried along unchanged, so cased
      letters and white space outside ASCII are not interpreted.
    - A Python [float] is its exact rational value, or one of the two
      infinities, or NaN.  Rounding to binary64 is not represented (it is
      monotone and leaves 0, 0.5 and 1 fixed).
    - A raised exception is a value of type [exn]; code that may raise
      returns [exn + A].
    - The relational store is three tables, each a list of rows in
      insertion order; a query without ORDER BY scans in that order. *)

From Stdlib Require Import List Bool Arith ZArith QArith Lia.
From Stdlib Require Import Ascii String Relations.
From Stdlib.Strings Require Import Byte.
Import ListNotations.

Set Implicit Arguments.

(** ** Python strings *)

Definition str := list ascii.

Definition txt (s : string) : str := list_ascii_of_string s.

Definition code (c : ascii) : N := N_of_ascii c.

Definition str_eqb (a b : str) : bool :=
  if list_eq_dec ascii_dec a b then true else false.

(** [str.isspace] on one ASCII character: TAB, LF, VT, FF, CR, the four
    separators FS, GS, RS, US, and SPACE. *)
Definition isspace (c : ascii) : bool :=
  let n := code c in
  ((9 <=? n) && (n <=? 13) || (28 <=? n) && (n <=? 32))%N.

Definition isupper (c : ascii) : bool :=
  let n := code c in ((65 <=? n) && (n <=? 90))%N.

Definition lower_char (c : ascii) : ascii :=
  if isupper c then ascii_of_N (code c + 32) else c.

(** [s.lower()] *)
Definition lower (s : str) : str := map lower_char s.

Definition upper_char (c : ascii) : ascii :=
  let n := code c in
  if ((97 <=? n) && (n <=? 122))%N then ascii_of_N (n - 32) else c.

(** [s.upper()] *)
Definition upper (s : str) : str := map upper_char s.

Fixpoint lstrip (s : str) : str :=
  match s with
  | c :: r => if isspace c then lstrip r else s
  | [] => []
  end.

Definition rstrip (s : str) : str := rev (lstrip (rev s)).

(** [s.strip()] *)
Definition strip (s : str) : str := rstrip (lstrip s).

(** [s.split()] with no separator: the maximal runs of characters that
    are not white space, in order. *)
Fixpoint split (s : str) : list str :=
  match s with
  | [] => []
  | c :: r =>
      if isspace c then split r
      else match r with
           | [] => [[c]]
           | c' :: _ =>
               if isspace c' then [c] :: split r
               else match split r with
                    | w :: ws => (c :: w) :: ws
                    | [] => [[c]]
                    end
           end
  end.

(** [sep.join(parts)] *)
Fixpoint join (sep : str) (parts : list str) : str :=
  match parts with
  | [] => []
  | [p] => p
  | p :: ps => p ++ sep ++ join sep ps
  end.

(** [s.startswith(p)] *)
Fixpoint startswith (p s : str) : bool :=
  match p, s with
  | [], _ => true
  | a :: p', b :: s' => Ascii.eqb a b && startswith p' s'
  | _ :: _, [] => false
  end.

(** [s.encode("utf-8")]: the text already carries its UTF-8 form. *)
Definition encode_utf8 (s : str) : list byte := map byte_of_ascii s.

(** ** SHA-256 (FIPS 180-4), as [hashlib.sha256(data).hexdigest()] *)

Module SHA256.

Local Open Scope Z_scope.

Definition wrap (x : Z) : Z := x mod 2 ^ 32.
Definition add32 (x y : Z) : Z := wrap (x + y).
Definition rotr (n x : Z) : Z :=
  Z.lor (Z.shiftr x n) (wrap (Z.shiftl x (32 - n))).
Definition not32 (x : Z) : Z := Z.lxor x 0xffffffff.

Definition Ch (x y z : Z) : Z := Z.lxor (Z.land x y) (Z.land (not32 x) z).
Definition Maj (x y z : Z) : Z :=
  Z.lxor (Z.lxor (Z.land x y) (Z.land x z)) (Z.land y z).
Definition S0 (x : Z) : Z := Z.lxor (Z.lxor (rotr 2 x) (rotr 13 x)) (rotr 22 x).
Definition S1 (x : Z) : Z := Z.lxor (Z.lxor (rotr 6 x) (rotr 11 x)) (rotr 25 x).
Definition s0 (x : Z) : Z := Z.lxor (Z.lxor (rotr 7 x) (rotr 18 x)) (Z.shiftr x 3).
Definition s1 (x : Z) : Z := Z.lxor (Z.lxor (rotr 17 x) (rotr 19 x)) (Z.shiftr x 10).

(** The first 64 primes. *)
Definition primes : list Z :=
  [ 2; 3; 5; 7; 11; 13; 17; 19; 23; 29; 31; 37; 41; 43; 47; 53; 59; 61; 67;
    71; 73; 79; 83; 89; 97; 101; 103; 107; 109; 113; 127; 131; 137; 139; 149;
    151; 157; 163; 167; 173; 179; 181; 191; 193; 197; 199; 211; 223; 227;
    229; 233; 239; 241; 251; 257; 263; 269; 271; 277; 281; 283; 293; 307;
    311 ].

(** The largest [r] between [lo] and [hi] with [r ^ k <= x], by
    bisection. *)
Fixpoint root_search (n : nat) (k lo hi x : Z) : Z :=
  match n with
  | O => lo
  | S n' =>
      let mid := (lo + hi) / 2 in
      if mid ^ k <=? x then root_search n' k mid hi x
      else root_search n' k lo mid x
  end.

(** The first 32 bits of the fractional part of the [k]-th root of [p]. *)
Definition root_bits (k p : Z) : Z :=
  wrap (root_search 40 k 0 (2 ^ 36) (p * 2 ^ (32 * k))).

(** The round constants: from the cube roots of the first 64 primes. *)
Definition K : list Z := map (root_bits 3) primes.

(** The initial hash value: from the square roots of the first 8 primes. *)
Definition H0 : list Z := map (root_bits 2) (firstn 8 primes).

Definition byteZ (b : byte) : Z := Z.of_N (Byte.to_N b).

(** Big-endian bytes of [x], [n] of them. *)
Fixpoint be_bytes (n : nat) (x : Z) : list Z :=
  match n with
  | O => []
  | S n' => (Z.shiftr x (8 * Z.of_nat n')) mod 256 :: be_bytes n' x
  end.

(** The message, the bit 1, zeros up to 56 modulo 64, the bit length. *)
Definition pad (msg : list Z) : list Z :=
  let l := Z.of_nat (List.length msg) in
  let k := Z.to_nat ((55 - l) mod 64) in
  msg ++ 0x80 :: repeat 0 k ++ be_bytes 8 (8 * l).

(** Big-endian 32-bit words of a byte sequence. *)
Fixpoint words (bs : list Z) : list Z :=
  match bs with
  | a :: b :: c :: d :: r =>
      (((a * 256 + b) * 256 + c) * 256 + d) :: words r
  | _ => []
  end.

(** The message schedule, most recent word first. *)
Fixpoint schedule (n : nat) (ws : list Z) : list Z :=
  match n with
  | O => ws
  | S n' =>
      let w := add32 (add32 (s1 (nth 1 ws 0)) (nth 6 ws 0))
                     (add32 (s0 (nth 14 ws 0)) (nth 15 ws 0)) in
      schedule n' (w :: ws)
  end.

Definition round (st : list Z) (kw : Z * Z) : list Z :=
  match st with
  | [a; b; c; d; e; f; g; h] =>
      let t1 := add32 (add32 (add32 h (S1 e)) (add32 (Ch e f g) (fst kw))) (snd kw) in
      let t2 := add32 (S0 a) (Maj a b c) in
      [add32 t1 t2; a; b; c; add32 d t1; e; f; g]
  | _ => st
  end.

Definition compress (h : list Z) (block : list Z) : list Z :=
  let w := rev (schedule 48 (rev block)) in
  map (fun p => add32 (fst p) (snd p))
      (combine h (fold_left round (combine K w) h)).

Fixpoint blocks (n : nat) (ws : list Z) (h : list Z) : list Z :=
  match n with
  | O => h
  | S n' => blocks n' (skipn 16 ws) (compress h (firstn 16 ws))
  end.

Definition digest (msg : list byte) : list Z :=
  let ws := words (pad (map byteZ msg)) in
  blocks (List.length ws / 16) ws H0.

Definition hexdigit (d : Z) : ascii :=
  ascii_of_N (Z.to_N (if d <? 10 then 48 + d else 87 + d)).

Definition hexword (x : Z) : str :=
  map (fun i => hexdigit ((Z.shiftr x (4 * Z.of_nat i)) mod 16))
      [7; 6; 5; 4; 3; 2; 1; 0]%nat.

Definition hexdigest (msg : list byte) : str :=
  List.concat (map hexword (digest msg)).

End SHA256.

(** ** Exceptions *)

(** A raised exception: its class name and the text [str(e)] gives. *)
Record exn : Type := Raise { exn_class : string; exn_str : str }.

Definition result (A : Type) : Type := (exn + A)%type.

Definition ok {A : Type} (a : A) : result A := inr a.

Definition raise {A : Type} (cls : string) (msg : string) : result A :=
  inl (Raise cls (txt msg)).

Definition bind {A B : Type} (m : result A) (k : A -> result B) : result B :=
  match m with
  | inl e => inl e
  | inr a => k a
  end.

Notation "x <- m ;; k" := (bind m (fun x => k))
  (at level 61, m at next level, right associativity).
Notation "' p <- m ;; k" := (bind m (fun x => match x with p => k end))
  (at level 61, p pattern, m at next level, right associativity).

(** ** Python floats *)

Inductive pyfloat : Type :=
| Fin (q : Q)
| PInf
| NInf
| NaN.

(** [a < b] on floats; every comparison with NaN is false. *)
Definition flt (a b : pyfloat) : bool :=
  match a, b with
  | NaN, _ | _, NaN => false
  | Fin x, Fin y => negb (Qle_bool y x)
  | NInf, NInf => false
  | NInf, _ => true
  | _, NInf => false
  | PInf, _ => false
  | Fin _, PInf => true
  end.

(** The builtin [min(a, b)]: [b] replaces [a] only when [b < a]. *)
Definition py_min (a b : pyfloat) : pyfloat := if flt b a then b else a.

(** The builtin [max(a, b)]: [b] replaces [a] only when [b > a]. *)
Definition py_max (a b : pyfloat) : pyfloat := if flt a b then b else a.

(** Integers from [2^1024 - 2^970] on round past the largest binary64
    value. *)
Definition float_overflow : Z := (2 ^ 1024 - 2 ^ 970)%Z.

(** The float nearest to a rational: an infinity past the range. *)
Definition float_of_Q (q : Q) : pyfloat :=
  if Qle_bool (inject_Z float_overflow) q then PInf
  else if Qle_bool q (inject_Z (- float_overflow)) then NInf
  else Fin q.

(** ** Python values: what [json.loads] builds *)

#[warnings="-register-all"] Inductive pyval : Type :=
| PyNone
| PyBool (b : bool)
| PyInt (z : Z)
| PyFloat (f : pyfloat)
| PyStr (s : str)
| PyList (items : list pyval)
| PyDict (members : list (str * pyval)).

(** [d[k] = v] on the members of a dict: a present key keeps its place. *)
Fixpoint dict_set (k : str) (v : pyval) (d : list (str * pyval)) :
  list (str * pyval) :=
  match d with
  | [] => [(k, v)]
  | (k', v') :: d' =>
      if str_eqb k k' then (k, v) :: d' else (k', v') :: dict_set k v d'
  end.

Fixpoint dict_lookup (k : str) (d : list (str * pyval)) : option pyval :=
  match d with
  | [] => None
  | (k', v) :: d' => if str_eqb k k' then Some v else dict_lookup k d'
  end.

(** [d.get(k, default)] *)
Definition dict_get (d : list (str * pyval)) (k : string) (default : pyval) :
  pyval :=
  match dict_lookup (txt k) d with
  | Some v => v
  | None => default
  end.

(** Truth value of an object, as [if v:] tests it. *)
Definition truthy (v : pyval) : bool :=
  match v with
  | PyNone => false
  | PyBool b => b
  | PyInt z => negb (z =? 0)%Z
  | PyFloat (Fin q) => negb (Qeq_bool q 0)
  | PyFloat _ => true
  | PyStr s => negb (Nat.eqb (List.length s) 0)
  | PyList l => negb (Nat.eqb (List.length l) 0)
  | PyDict d => negb (Nat.eqb (List.length d) 0)
  end.

(** ** Numbers in text *)

Definition dquote : ascii := ascii_of_N 34.

Definition chr (c : ascii) (d : ascii) : bool := Ascii.eqb c d.

Definition isdigit (c : ascii) : bool :=
  let n := code c in ((48 <=? n) && (n <=? 57))%N.

(** The longest prefix of digits, and what follows it. *)
Fixpoint span_digits (s : str) : str * str :=
  match s with
  | c :: r =>
      if isdigit c then let (ds, r') := span_digits r in (c :: ds, r')
      else ([], s)
  | [] => ([], [])
  end.

Definition digits_value (ds : str) : Z :=
  fold_left (fun acc c => (10 * acc + (Z.of_N (code c) - 48))%Z) ds 0%Z.

(** The rational [m * 10^e]. *)
Definition scale10 (m e : Z) : Q :=
  if (0 <=? e)%Z then inject_Z (m * 10 ^ e)
  else Qmake m (Z.to_pos (10 ^ (- e))).

(** The float a decimal numeral denotes: sign, integer digits, fraction
    digits, exponent. *)
Definition float_of_decimal (neg : bool) (ip fp : str) (e : Z) : pyfloat :=
  let m := digits_value (ip ++ fp) in
  float_of_Q (scale10 (if neg then (- m)%Z else m)
                      (e - Z.of_nat (List.length fp))).

Definition split_sign (s : str) : bool * str :=
  match s with
  | c :: r => if chr c "-" then (true, r) else if chr c "+" then (false, r)
              else (false, s)
  | [] => (false, s)
  end.

(** An exponent part [e], [E] with an optional sign and at least one
    digit; [None] when the text does not start with one. *)
Definition scan_exponent (s : str) : option (Z * str) :=
  match s with
  | c :: r =>
      if chr c "e" || chr c "E" then
        let (neg, r1) := split_sign r in
        match span_digits r1 with
        | ([], _) => None
        | (ds, r2) =>
            Some (if neg then (- digits_value ds)%Z else digits_value ds, r2)
        end
      else None
  | [] => None
  end.

(** ** The JSON decoder, [json.loads] *)

Module json.

Definition JSONDecodeError {A : Type} (msg : string) : result A :=
  raise "JSONDecodeError" msg.

(** White space between tokens: space, TAB, LF, CR. *)
Definition whitespace (c : ascii) : bool :=
  let n := code c in
  ((n =? 32) || (n =? 9) || (n =? 10) || (n =? 13))%N.

Fixpoint skip (s : str) : str :=
  match s with
  | c :: r => if whitespace c then skip r else s
  | [] => []
  end.

Definition hexval (c : ascii) : option N :=
  let n := code c in
  if ((48 <=? n) && (n <=? 57))%N then Some (n - 48)%N
  else if ((97 <=? n) && (n <=? 102))%N then Some (n - 87)%N
  else if ((65 <=? n) && (n <=? 70))%N then Some (n - 55)%N
  else None.

Definition hex4 (a b c d : ascii) : option N :=
  match hexval a, hexval b, hexval c, hexval d with
  | Some x, Some y, Some z, Some w => Some (((x * 16 + y) * 16 + z) * 16 + w)%N
  | _, _, _, _ => None
  end.

(** The UTF-8 form of one code point. *)
Definition utf8 (cp : N) : str :=
  (if cp <? 0x80 then [ascii_of_N cp]
   else if cp <? 0x800 then
     [ascii_of_N (0xC0 + cp / 64); ascii_of_N (0x80 + cp mod 64)]
   else if cp <? 0x10000 then
     [ascii_of_N (0xE0 + cp / 4096); ascii_of_N (0x80 + (cp / 64) mod 64);
      ascii_of_N (0x80 + cp mod 64)]
   else
     [ascii_of_N (0xF0 + cp / 262144); ascii_of_N (0x80 + (cp / 4096) mod 64);
      ascii_of_N (0x80 + (cp / 64) mod 64); ascii_of_N (0x80 + cp mod 64)])%N.

Definition high_surrogate (cp : N) : bool := ((0xD800 <=? cp) && (cp <=? 0xDBFF))%N.
Definition low_surrogate (cp : N) : bool := ((0xDC00 <=? cp) && (cp <=? 0xDFFF))%N.
Definition join_surrogates (hi lo : N) : N :=
  (0x10000 + (hi - 0xD800) * 1024 + (lo - 0xDC00))%N.

(** The character a one-letter escape stands for. *)
Definition unescape (c : ascii) : option ascii :=
  if chr c dquote then Some dquote
  else if chr c "\" then Some "\"%char
  else if chr c "/" then Some "/"%char
  else if chr c "b" then Some (ascii_of_N 8)
  else if chr c "f" then Some (ascii_of_N 12)
  else if chr c "n" then Some (ascii_of_N 10)
  else if chr c "r" then Some (ascii_of_N 13)
  else if chr c "t" then Some (ascii_of_N 9)
  else None.

(** A string literal after its opening quote: the decoded text and the
    input left after the closing quote. *)
Fixpoint scanstring (s : str) : result (str * str) :=
  match s with
  | [] => JSONDecodeError "Unterminated string starting at"
  | c :: r =>
      if chr c dquote then ok ([], r)
      else if chr c "\" then
        match r with
        | [] => JSONDecodeError "Unterminated string starting at"
        | e :: r1 =>
            if chr e "u" then
              match r1 with
              | a :: b :: c' :: d :: r2 =>
                  match hex4 a b c' d with
                  | None => JSONDecodeError "Invalid \uXXXX escape"
                  | Some cp =>
                      match r2 with
                      | x :: y :: a2 :: b2 :: c2 :: d2 :: r3 =>
                          if high_surrogate cp && chr x "\" && chr y "u" then
                            match hex4 a2 b2 c2 d2 with
                            | None => JSONDecodeError "Invalid \uXXXX escape"
                            | Some cp2 =>
                                if low_surrogate cp2 then
                                  '(t, rest) <- scanstring r3 ;;
                                  ok (utf8 (join_surrogates cp cp2) ++ t, rest)
                                else
                                  '(t, rest) <- scanstring r2 ;;
                                  ok (utf8 cp ++ t, rest)
                            end
                          else
                            '(t, rest) <- scanstring r2 ;;
                            ok (utf8 cp ++ t, rest)
                      | _ =>
                          '(t, rest) <- scanstring r2 ;;
                          ok (utf8 cp ++ t, rest)
                      end
                  end
              | _ => JSONDecodeError "Invalid \uXXXX escape"
              end
            else
              match unescape e with
              | Some ch => '(t, rest) <- scanstring r1 ;; ok (ch :: t, rest)
              | None => JSONDecodeError "Invalid \escape"
              end
        end
      else if (code c <? 32)%N then
        JSONDecodeError "Invalid control character at"
      else '(t, rest) <- scanstring r ;; ok (c :: t, rest)
  end.

(** A number: an optional minus sign, then 0 or a digit from 1 to 9
    followed by digits, then an optional fraction and an optional
    exponent; an [int] when it has neither. *)
Definition match_number (s : str) : option (pyval * str) :=
  let (neg, s1) :=
    match s with
    | c :: r => if chr c "-" then (true, r) else (false, s)
    | [] => (false, s)
    end in
  match s1 with
  | [] => None
  | c :: r =>
      if isdigit c then
        let (ip, r1) :=
          if chr c "0" then ([c], r)
          else let (ds, r') := span_digits r in (c :: ds, r') in
        let (fp, r2) :=
          match r1 with
          | p :: d :: _ =>
              if chr p "." && isdigit d then span_digits (tl r1) else ([], r1)
          | _ => ([], r1)
          end in
        match scan_exponent r2, fp with
        | Some (e, r3), _ => Some (PyFloat (float_of_decimal neg ip fp e), r3)
        | None, _ :: _ => Some (PyFloat (float_of_decimal neg ip fp 0), r2)
        | None, [] =>
            let m := digits_value ip in
            Some (PyInt (if neg then (- m)%Z else m), r2)
        end
      else None
  end.

(** One value at the head of the input, and the input left after it.
    The fuel bounds the depth of the calls; [loads] gives more than the
    input can use. *)
Fixpoint scan_once (fuel : nat) (s : str) : result (pyval * str) :=
  match fuel with
  | O => raise "RecursionError" "maximum recursion depth exceeded"
  | S fuel' =>
      match s with
      | [] => JSONDecodeError "Expecting value"
      | c :: r =>
          if chr c dquote then
            '(t, rest) <- scanstring r ;; ok (PyStr t, rest)
          else if chr c "{" then
            match skip r with
            | c' :: r' =>
                if chr c' "}" then ok (PyDict [], r')
                else
                  '(ms, rest) <- members fuel' (skip r) ;;
                  ok (PyDict (fold_left (fun d kv => dict_set (fst kv) (snd kv) d)
                                        ms []), rest)
            | [] => JSONDecodeError
                      "Expecting property name enclosed in double quotes"
            end
          else if chr c "[" then
            match skip r with
            | c' :: r' =>
                if chr c' "]" then ok (PyList [], r')
                else '(vs, rest) <- elements fuel' (skip r) ;; ok (PyList vs, rest)
            | [] => JSONDecodeError "Expecting value"
            end
          else if startswith (txt "null") s then ok (PyNone, skipn 4 s)
          else if startswith (txt "true") s then ok (PyBool true, skipn 4 s)
          else if startswith (txt "false") s then ok (PyBool false, skipn 5 s)
          else if startswith (txt "NaN") s then ok (PyFloat NaN, skipn 3 s)
          else if startswith (txt "Infinity") s then ok (PyFloat PInf, skipn 8 s)
          else if startswith (txt "-Infinity") s then ok (PyFloat NInf, skipn 9 s)
          else
            match match_number s with
            | Some vr => ok vr
            | None => JSONDecodeError "Expecting value"
            end
      end
  end

(** The members of an object from its first key to the closing brace. *)
with members (fuel : nat) (s : str) : result (list (str * pyval) * str) :=
  match fuel with
  | O => raise "RecursionError" "maximum recursion depth exceeded"
  | S fuel' =>
      match s with
      | c :: r =>
          if chr c dquote then
            '(k, r1) <- scanstring r ;;
            match skip r1 with
            | c1 :: r2 =>
                if chr c1 ":" then
                  '(v, r3) <- scan_once fuel' (skip r2) ;;
                  match skip r3 with
                  | c3 :: r4 =>
                      if chr c3 "}" then ok ([(k, v)], r4)
                      else if chr c3 "," then
                        '(ms, rest) <- members fuel' (skip r4) ;;
                        ok ((k, v) :: ms, rest)
                      else JSONDecodeError "Expecting ',' delimiter"
                  | [] => JSONDecodeError "Expecting ',' delimiter"
                  end
                else JSONDecodeError "Expecting ':' delimiter"
            | [] => JSONDecodeError "Expecting ':' delimiter"
            end
          else JSONDecodeError
                 "Expecting property name enclosed in double quotes"
      | [] => JSONDecodeError
                "Expecting property name enclosed in double quotes"
      end
  end

(** The items of an array from its first item to the closing bracket. *)
with elements (fuel : nat) (s : str) : result (list pyval * str) :=
  match fuel with
  | O => raise "RecursionError" "maximum recursion depth exceeded"
  | S fuel' =>
      '(v, r1) <- scan_once fuel' s ;;
      match skip r1 with
      | c :: r2 =>
          if chr c "]" then ok ([v], r2)
          else if chr c "," then
            '(vs, rest) <- elements fuel' (skip r2) ;; ok (v :: vs, rest)
          else JSONDecodeError "Expecting ',' delimiter"
      | [] => JSONDecodeError "Expecting ',' delimiter"
      end
  end.

(** [json.loads(s)]: one value, white space around it, nothing else. *)
Definition loads (s : str) : result pyval :=
  '(v, rest) <- scan_once (S (2 * List.length s)) (skip s) ;;
  match skip rest with
  | [] => ok v
  | _ :: _ => JSONDecodeError "Extra data"
  end.

End json.

(** ** Builtins on values *)

(** White space of the C locale, which [float] trims from ASCII text. *)
Definition isspace_c (c : ascii) : bool :=
  let n := code c in (((9 <=? n) && (n <=? 13)) || (n =? 32))%N.

Fixpoint drop_space_c (s : str) : str :=
  match s with
  | c :: r => if isspace_c c then drop_space_c r else s
  | [] => []
  end.

(** Underscores are accepted between two digits and dropped; [None] for
    an underscore anywhere else. *)
Fixpoint drop_underscores (prev_digit : bool) (s : str) : option str :=
  match s with
  | [] => Some []
  | c :: r =>
      if chr c "_" then
        match r with
        | d :: _ => if prev_digit && isdigit d then drop_underscores false r
                    else None
        | [] => None
        end
      else option_map (cons c) (drop_underscores (isdigit c) r)
  end.

(** [float(s)] on text: optional sign, then [inf], [infinity] or [nan] in
    any case, or digits with an optional point and an optional exponent. *)
Definition float_of_str (s : str) : option pyfloat :=
  match drop_underscores false (rev (drop_space_c (rev (drop_space_c s)))) with
  | None => None
  | Some t =>
      let (neg, u) := split_sign t in
      let l := lower u in
      if str_eqb l (txt "inf") || str_eqb l (txt "infinity") then
        Some (if neg then NInf else PInf)
      else if str_eqb l (txt "nan") then Some NaN
      else
        let (ip, r1) := span_digits u in
        let (fp, r2) :=
          match r1 with
          | c :: r => if chr c "." then span_digits r else ([], r1)
          | [] => ([], r1)
          end in
        match ip ++ fp, r2 with
        | [], _ => None
        | _ :: _, [] => Some (float_of_decimal neg ip fp 0)
        | _ :: _, _ :: _ =>
            match scan_exponent r2 with
            | Some (e, []) => Some (float_of_decimal neg ip fp e)
            | _ => None
            end
        end
  end.

(** The builtin [float(v)]. *)
Definition py_float (v : pyval) : result pyfloat :=
  match v with
  | PyFloat f => ok f
  | PyInt z =>
      if (float_overflow <=? Z.abs z)%Z then
        raise "OverflowError" "int too large to convert to float"
      else ok (Fin (inject_Z z))
  | PyBool b => ok (Fin (if b then 1 else 0))
  | PyStr s =>
      match float_of_str s with
      | Some f => ok f
      | None => raise "ValueError" "could not convert string to float"
      end
  | PyNone | PyList _ | PyDict _ =>
      raise "TypeError" "float() argument must be a string or a real number"
  end.

(** Truth value of an [Optional[str]]: present and not empty. *)
Definition truthy_opt (o : option str) : bool :=
  match o with
  | Some (_ :: _) => true
  | _ => false
  end.

(** The method call [v.lower()]. *)
Definition call_lower (v : pyval) : result str :=
  match v with
  | PyStr s => ok (lower s)
  | _ => raise "AttributeError" "object has no attribute 'lower'"
  end.

(** The method call [v.get(k, default)]. *)
Definition call_get (v : pyval) (k : string) (default : pyval) : result pyval :=
  match v with
  | PyDict d => ok (dict_get d k default)
  | _ => raise "AttributeError" "object has no attribute 'get'"
  end.

(** ** [base64.b64decode] *)

Module base64.

Definition b64val (c : ascii) : option N :=
  let n := code c in
  (if (65 <=? n) && (n <=? 90) then Some (n - 65)
   else if (97 <=? n) && (n <=? 122) then Some (n - 71)
   else if (48 <=? n) && (n <=? 57) then Some (n + 4)
   else if n =? 43 then Some 62
   else if n =? 47 then Some 63
   else None)%N.

Definition out (n : N) : byte :=
  match Byte.of_N (n mod 256) with
  | Some b => b
  | None => x00
  end.

(** The decoding loop of [binascii.a2b_base64] when not strict:
    characters outside the alphabet are skipped, a complete pad
    sequence ends the input, a quad left open is an error. *)
Fixpoint a2b (s : str) (quad_pos : nat) (leftchar : N) (pads : nat) :
  result (list byte) :=
  match s with
  | [] =>
      match quad_pos with
      | O => ok []
      | 1%nat =>
          raise "binascii.Error"
            "Invalid base64-encoded string: number of data characters cannot be 1 more than a multiple of 4"
      | _ => raise "binascii.Error" "Incorrect padding"
      end
  | c :: r =>
      if chr c "=" then
        if (2 <=? quad_pos)%nat then
          if (4 <=? quad_pos + S pads)%nat then ok []
          else a2b r quad_pos leftchar (S pads)
        else a2b r quad_pos leftchar pads
      else
        match b64val c with
        | None => a2b r quad_pos leftchar pads
        | Some v =>
            match quad_pos with
            | O => a2b r 1 v 0
            | 1%nat =>
                bs <- a2b r 2 (v mod 16)%N 0 ;;
                ok (out (leftchar * 4 + v / 16) :: bs)
            | 2%nat =>
                bs <- a2b r 3 (v mod 4)%N 0 ;;
                ok (out (leftchar * 16 + v / 4) :: bs)
            | _ =>
                bs <- a2b r 0 0%N 0 ;;
                ok (out (leftchar * 64 + v) :: bs)
            end
        end
  end.

Definition isascii (s : str) : bool :=
  forallb (fun c => (code c <? 128)%N) s.

(** [base64.b64decode(s)] on text. *)
Definition b64decode (s : str) : result (list byte) :=
  if isascii s then a2b s 0 0%N 0
  else raise "ValueError" "string argument should contain only ASCII characters".

End base64.

(** ** app/utils/hashing.py *)

Module hashing.

(** The text [hash_text] hashes: trimmed, lowercased, split on white
    space and joined with single spaces. *)
Definition normalized_text (text : str) : str :=
  join (txt " ") (split (lower (strip text))).

Definition hash_text (text : str) : str :=
  SHA256.hexdigest (encode_utf8 (normalized_text text)).

(** [s.split(",", 1)[1]]: what follows the first comma. *)
Fixpoint after_comma (s : str) : result str :=
  match s with
  | [] => raise "IndexError" "list index out of range"
  | c :: r => if chr c "," then ok r else after_comma r
  end.

(** [hash_image] takes Base64 text or the bytes themselves. *)
Definition hash_image (image_data : str + list byte) : result str :=
  match image_data with
  | inl s =>
      data <- (if startswith (txt "data:image") s then after_comma s
               else ok s) ;;
      image_bytes <- base64.b64decode data ;;
      ok (SHA256.hexdigest image_bytes)
  | inr image_bytes => ok (SHA256.hexdigest image_bytes)
  end.

Definition normalized_url (url : str) : str := lower (strip url).

Definition hash_url (url : str) : str :=
  SHA256.hexdigest (encode_utf8 (normalized_url url)).

End hashing.

(** ** app/models/models.py *)

Module models.

Inductive ContentType : Type := TEXT | IMAGE.

Inductive ModerationStatus : Type := PENDING | PROCESSING | COMPLETED | FAILED.

Inductive ClassificationType : Type :=
| SAFE | TOXIC | SPAM | HARASSMENT | INAPPROPRIATE.

Inductive NotificationChannel : Type := SLACK | EMAIL.

Inductive NotificationStatus : Type :=
| NOTIFICATION_PENDING | SENT | NOTIFICATION_FAILED.

Definition ContentType_eqb (a b : ContentType) : bool :=
  match a, b with
  | TEXT, TEXT | IMAGE, IMAGE => true
  | _, _ => false
  end.

Definition ClassificationType_eqb (a b : ClassificationType) : bool :=
  match a, b with
  | SAFE, SAFE | TOXIC, TOXIC | SPAM, SPAM | HARASSMENT, HARASSMENT
  | INAPPROPRIATE, INAPPROPRIATE => true
  | _, _ => false
  end.

(** [classification.value] *)
Definition value (c : ClassificationType) : str :=
  match c with
  | SAFE => txt "safe"
  | TOXIC => txt "toxic"
  | SPAM => txt "spam"
  | HARASSMENT => txt "harassment"
  | INAPPROPRIATE => txt "inappropriate"
  end.

(** A row of [moderation_requests]. *)
Record ModerationRequest : Type := {
  id : Z;
  email : str;
  content_type : ContentType;
  content_hash : str;
  status : ModerationStatus;
  created_at : Z
}.

(** A row of [moderation_results]. *)
Record ModerationResult : Type := {
  result_id : Z;
  request_id : Z;
  classification : ClassificationType;
  confidence : pyfloat;
  reasoning : pyval;
  llm_response : str;
  result_created_at : Z
}.

(** A row of [notification_logs]. *)
Record NotificationLog : Type := {
  log_id : Z;
  log_request_id : Z;
  channel : NotificationChannel;
  log_status : NotificationStatus;
  error_message : option str;
  sent_at : option Z;
  log_created_at : Z
}.

End models.

(** ** app/services/llm_service.py *)

Module llm_service.

Import models.

(** The dictionary [_parse_llm_response] returns. *)
Record LLMResult : Type := {
  classification : ClassificationType;
  confidence : pyfloat;
  reasoning : pyval;
  flagged : pyval;
  llm_response : str
}.

(** The suffix of [s] that starts at the first [c]. *)
Fixpoint find_from (c : ascii) (s : str) : option str :=
  match s with
  | [] => None
  | d :: r => if chr d c then Some s else find_from c r
  end.

(** The prefix of [s] that ends at the last [c]. *)
Definition upto_last (c : ascii) (s : str) : option str :=
  option_map (@rev ascii) (find_from c (rev s)).

(** [re.search(r"\{.*\}", text, re.DOTALL)] and [.group()] of the
    match: from the first opening brace to the last closing brace after
    it. *)
Definition re_search (text : str) : option str :=
  match find_from "{" text with
  | Some s => upto_last "}" s
  | None => None
  end.

Definition classification_map : list (str * ClassificationType) :=
  [ (txt "safe", SAFE); (txt "toxic", TOXIC); (txt "spam", SPAM);
    (txt "harassment", HARASSMENT); (txt "inappropriate", INAPPROPRIATE) ].

(** [classification_map.get(k, default)] *)
Fixpoint map_get (m : list (str * ClassificationType)) (k : str)
  (default : ClassificationType) : ClassificationType :=
  match m with
  | [] => default
  | (k', v) :: m' => if str_eqb k k' then v else map_get m' k default
  end.

(** The body of the [try] block of [_parse_llm_response]. *)
Definition parse_body (response_text : str) : result LLMResult :=
  match re_search response_text with
  | Some json_str =>
      parsed <- json.loads json_str ;;
      c <- call_get parsed "classification" (PyStr (txt "safe")) ;;
      classification <- call_lower c ;;
      v <- call_get parsed "confidence" (PyFloat (Fin (1 # 2))) ;;
      confidence <- py_float v ;;
      reasoning <- call_get parsed "reasoning"
                     (PyStr (txt "No reasoning provided")) ;;
      flagged <- call_get parsed "flagged" (PyBool false) ;;
      ok {| classification := map_get classification_map classification SAFE;
            confidence := py_max (Fin 0) (py_min (Fin 1) confidence);
            reasoning := reasoning;
            flagged := flagged;
            llm_response := response_text |}
  | None =>
      ok {| classification := SAFE;
            confidence := Fin (1 # 2);
            reasoning := PyStr (txt "Failed to parse LLM response");
            flagged := PyBool false;
            llm_response := response_text |}
  end.

(** [LLMService._parse_llm_response]: whatever the body raises is
    caught and answered with the default verdict. *)
Definition _parse_llm_response (response_text : str) : LLMResult :=
  match parse_body response_text with
  | inr r => r
  | inl e =>
      {| classification := SAFE;
         confidence := Fin (1 # 2);
         reasoning := PyStr (txt "Error parsing response: " ++ exn_str e);
         flagged := PyBool false;
         llm_response := response_text |}
  end.

(** [LLMService.moderate_text]: the upstream call, then the parser; an
    upstream failure is logged and raised again.  [generate_content]
    stands for [generate_content_async] followed by
    [_extract_text_from_response]: the text of the answer, or the
    exception of the call. *)
Definition moderate_text (generate_content : str -> result str) (text : str) :
  result LLMResult :=
  match generate_content text with
  | inr result_text => ok (_parse_llm_response result_text)
  | inl e => inl e
  end.

(** [LLMService.moderate_image] *)
Definition moderate_image (generate_content : list byte -> str -> result str)
  (image_data : list byte) (image_description : str) : result LLMResult :=
  match generate_content image_data image_description with
  | inr result_text => ok (_parse_llm_response result_text)
  | inl e => inl e
  end.

End llm_service.

(** ** The store behind the SQLAlchemy session *)

Module db.

Import models.

Record Database : Type := {
  moderation_requests : list ModerationRequest;
  moderation_results : list ModerationResult;
  notification_logs : list NotificationLog
}.

Definition empty : Database :=
  {| moderation_requests := []; moderation_results := [];
     notification_logs := [] |}.

(** The primary key the store assigns: one more than the largest. *)
Definition next_id (ids : list Z) : Z :=
  (1 + fold_right Z.max 0 ids)%Z.

(** [query(ModerationRequest).filter(content_hash == h,
    content_type == t).first()]: no ORDER BY, the first row of the scan. *)
Definition first_request (d : Database) (h : str) (t : ContentType) :
  option ModerationRequest :=
  find (fun r => str_eqb (content_hash r) h && ContentType_eqb (content_type r) t)
       (moderation_requests d).

(** [query(ModerationRequest).filter(id == i).first()] *)
Definition request_by_id (d : Database) (i : Z) : option ModerationRequest :=
  find (fun r => (id r =? i)%Z) (moderation_requests d).

(** The first row with the greatest [created_at]. *)
Definition newest (rs : list ModerationResult) : option ModerationResult :=
  fold_left
    (fun best r =>
       match best with
       | None => Some r
       | Some b =>
           if (result_created_at b <? result_created_at r)%Z then Some r
           else Some b
       end)
    rs None.

(** [query(ModerationResult).filter(request_id == i)
    .order_by(created_at.desc()).first()] *)
Definition latest_result (d : Database) (i : Z) : option ModerationResult :=
  newest (filter (fun r => (request_id r =? i)%Z) (moderation_results d)).

(** The row a new request becomes. *)
Definition new_request (d : Database) (e : str) (t : ContentType) (h : str)
  (st : ModerationStatus) (now : Z) : ModerationRequest :=
  {| id := next_id (map id (moderation_requests d));
     email := e; content_type := t; content_hash := h;
     status := st; created_at := now |}.

(** [db.add(ModerationRequest(...)); db.commit(); db.refresh(...)] *)
Definition add_request (d : Database) (e : str) (t : ContentType) (h : str)
  (st : ModerationStatus) (now : Z) : ModerationRequest * Database :=
  let r := new_request d e t h st now in
  (r, {| moderation_requests := moderation_requests d ++ [r];
         moderation_results := moderation_results d;
         notification_logs := notification_logs d |}).

(** The row a new result becomes. *)
Definition new_result (d : Database) (rid : Z) (c : ClassificationType)
  (conf : pyfloat) (why : pyval) (raw : str) (now : Z) : ModerationResult :=
  {| result_id := next_id (map result_id (moderation_results d));
     request_id := rid; classification := c; confidence := conf;
     reasoning := why; llm_response := raw;
     result_created_at := now |}.

(** [db.add(ModerationResult(...))], written by the next commit. *)
Definition add_result (d : Database) (rid : Z) (c : ClassificationType)
  (conf : pyfloat) (why : pyval) (raw : str) (now : Z) : Database :=
  let r := new_result d rid c conf why raw now in
  {| moderation_requests := moderation_requests d;
     moderation_results := moderation_results d ++ [r];
     notification_logs := notification_logs d |}.

(** [moderation_request.status = st; db.commit()] *)
Definition set_status (d : Database) (rid : Z) (st : ModerationStatus) :
  Database :=
  {| moderation_requests :=
       map (fun r =>
              if (id r =? rid)%Z then
                {| id := id r; email := email r;
                   content_type := content_type r;
                   content_hash := content_hash r;
                   status := st; created_at := created_at r |}
              else r)
           (moderation_requests d);
     moderation_results := moderation_results d;
     notification_logs := notification_logs d |}.

(** [db.add(NotificationLog(...))] *)
Definition add_log (d : Database) (rid : Z) (ch : NotificationChannel)
  (st : NotificationStatus) (err : option str) (sent : option Z) (now : Z) :
  Database :=
  let l := {| log_id := next_id (map log_id (notification_logs d));
              log_request_id := rid; channel := ch; log_status := st;
              error_message := err; sent_at := sent;
              log_created_at := now |} in
  {| moderation_requests := moderation_requests d;
     moderation_results := moderation_results d;
     notification_logs := notification_logs d ++ [l] |}.

End db.

(** ** What a handler does to the outside world *)

Inductive Call : Type :=
| GenerateText (text : str)
| GenerateVision (image_data : list byte) (description : str)
| HttpGet (url : str)
| SlackPost (request_id : Z)
| BrevoPost (request_id : Z).

(** ** app/services/notification_service.py *)

Module notification_service.

Import models.

Record Settings : Type := {
  slack_webhook_url : option str;
  brevo_api_key : option str;
  brevo_sender_email : option str
}.

(** The arguments every sender receives. *)
Record Alert : Type := {
  request_id : Z;
  email : str;
  classification : ClassificationType;
  content_type : str;
  content_preview : str;
  confidence : pyfloat;
  reasoning : pyval
}.

Definition color_map (c : ClassificationType) : str :=
  match c with
  | TOXIC => txt "#ff0000"
  | HARASSMENT => txt "#ff6600"
  | INAPPROPRIATE => txt "#ffcc00"
  | SPAM => txt "#999999"
  | SAFE => txt "#ff0000"
  end.

(** The attachment posted to the Slack webhook. *)
Record SlackMessage : Type := {
  color : str;
  title : str;
  fields : Alert;
  preview : str
}.

Definition slack_message (a : Alert) : SlackMessage :=
  {| color := color_map (classification a);
     title := txt "🚨 Content Moderation Alert - "
              ++ upper (value (classification a));
     fields := a;
     preview :=
       if (200 <? List.length (content_preview a))%nat
       then firstn 200 (content_preview a) ++ txt "..."
       else content_preview a |}.

(** The payload posted to the Brevo API. *)
Record EmailPayload : Type := {
  sender_email : option str;
  to_email : str;
  subject : str;
  body : Alert
}.

Definition email_payload (st : Settings) (a : Alert) : EmailPayload :=
  {| sender_email := brevo_sender_email st;
     to_email := email a;
     subject := txt "Content Moderation Alert - "
                ++ upper (value (classification a))
                ++ txt " Content Detected";
     body := a |}.

(** The two HTTP posts; each answers with the response body or raises
    (a failed connection, a timeout, a status that is not a success). *)
Record Channels : Type := {
  post_slack : SlackMessage -> result str;
  post_brevo : EmailPayload -> result pyval
}.

(** [_send_slack_notification]: errors are logged and raised again. *)
Definition _send_slack_notification (ch : Channels) (a : Alert) :
  result (list (str * pyval)) :=
  response <- post_slack ch (slack_message a) ;;
  ok [(txt "status", PyStr (txt "sent")); (txt "response", PyStr response)].

(** [_send_email_notification] *)
Definition _send_email_notification (st : Settings) (ch : Channels)
  (a : Alert) : result (list (str * pyval)) :=
  response <- post_brevo ch (email_payload st a) ;;
  ok [(txt "status", PyStr (txt "sent")); (txt "response", response)].

Definition failed (e : exn) : list (str * pyval) :=
  [(txt "status", PyStr (txt "failed")); (txt "error", PyStr (exn_str e))].

(** [send_notifications]: the dictionary of results by channel name, in
    insertion order, and the posts made. *)
Definition send_notifications (st : Settings) (ch : Channels) (a : Alert) :
  list (str * list (str * pyval)) * list Call :=
  if ClassificationType_eqb (classification a) SAFE then ([], [])
  else
    let slack :=
      if truthy_opt (slack_webhook_url st) then
        ([(txt "slack",
           match _send_slack_notification ch a with
           | inr slack_result => slack_result
           | inl e => failed e
           end)],
         [SlackPost (request_id a)])
      else ([], []) in
    let mail :=
      if truthy_opt (brevo_api_key st) && truthy_opt (brevo_sender_email st)
      then
        ([(txt "email",
           match _send_email_notification st ch a with
           | inr email_result => email_result
           | inl e => failed e
           end)],
         [BrevoPost (request_id a)])
      else ([], []) in
    (fst slack ++ fst mail, snd slack ++ snd mail).

End notification_service.

(** ** app/services/image_service.py *)

Module image_service.

Definition max_image_size : Z := (10 * 1024 * 1024)%Z.

Definition supported_formats : list str :=
  [txt "JPEG"; txt "PNG"; txt "GIF"; txt "BMP"; txt "WEBP"].

(** What [requests.get] answers once [raise_for_status] has passed. *)
Record Response : Type := {
  content_type_header : option str;
  content : list byte
}.

(** The network and the image library: [requests.get] followed by
    [raise_for_status], and the format [PIL.Image.open] reports. *)
Record Env : Type := {
  requests_get : str -> result Response;
  image_format : list byte -> result str
}.

(** [needle in hay] *)
Fixpoint contains (needle hay : str) : bool :=
  startswith needle hay ||
  match hay with
  | [] => false
  | _ :: r => contains needle r
  end.

Definition mime_type_map (fmt : str) : str :=
  if str_eqb fmt (txt "PNG") then txt "image/png"
  else if str_eqb fmt (txt "GIF") then txt "image/gif"
  else if str_eqb fmt (txt "BMP") then txt "image/bmp"
  else if str_eqb fmt (txt "WEBP") then txt "image/webp"
  else txt "image/jpeg".

Definition ValueError {A : Type} (prefix : string) (detail : str) : result A :=
  inl (Raise "ValueError" (txt prefix ++ detail)).

(** [_validate_and_get_mime_type]: any failure becomes a [ValueError]. *)
Definition _validate_and_get_mime_type (env : Env) (image_bytes : list byte) :
  result str :=
  match
    (fmt <- image_format env image_bytes ;;
     if existsb (str_eqb fmt) supported_formats then ok (mime_type_map fmt)
     else ValueError "Unsupported image format: " fmt)
  with
  | inr mime_type => ok mime_type
  | inl e => ValueError "Invalid image format: " (exn_str e)
  end.

Definition RequestException (e : exn) : bool :=
  existsb (String.eqb (exn_class e))
    ["RequestException"; "HTTPError"; "ConnectionError"; "Timeout";
     "MissingSchema"; "InvalidURL"; "InvalidSchema"; "TooManyRedirects"]%string.

(** [_process_image_from_url]: download, check the declared type and
    the size, validate. *)
Definition _process_image_from_url (env : Env) (url : str) :
  result (list byte * str) :=
  match requests_get env url with
  | inl e =>
      if RequestException e then
        ValueError "Failed to download image from URL: " (exn_str e)
      else inl e
  | inr response =>
      let content_type :=
        match content_type_header response with
        | Some h => h
        | None => []
        end in
      if negb (existsb (fun format => contains (lower format) (lower content_type))
                       supported_formats)
      then ValueError "Unsupported image format: " content_type
      else if (max_image_size <? Z.of_nat (List.length (content response)))%Z
      then ValueError "Image too large" []
      else
        mime_type <- _validate_and_get_mime_type env (content response) ;;
        ok (content response, mime_type)
  end.

(** [header, encoded = s.split(',', 1)] *)
Fixpoint split_comma (s : str) : result (str * str) :=
  match s with
  | [] => raise "ValueError" "not enough values to unpack (expected 2, got 1)"
  | c :: r =>
      if chr c "," then ok ([], r)
      else '(h, e) <- split_comma r ;; ok (c :: h, e)
  end.

(** [_process_image_from_base64]: any failure becomes a [ValueError]. *)
Definition _process_image_from_base64 (env : Env) (base64_data : str) :
  result (list byte * str) :=
  match
    (encoded <- (if startswith (txt "data:image") base64_data
                 then '(_, encoded) <- split_comma base64_data ;; ok encoded
                 else ok base64_data) ;;
     image_bytes <- base64.b64decode encoded ;;
     if (max_image_size <? Z.of_nat (List.length image_bytes))%Z
     then ValueError "Image too large" []
     else
       actual_mime_type <- _validate_and_get_mime_type env image_bytes ;;
       ok (image_bytes, actual_mime_type))
  with
  | inr r => ok r
  | inl e => ValueError "Failed to process base64 image: " (exn_str e)
  end.

(** [process_image]: errors are logged and raised again. *)
Definition process_image (env : Env) (image_url image_base64 : option str) :
  result (list byte * str) :=
  if truthy_opt image_url then
    _process_image_from_url env (match image_url with Some u => u | None => [] end)
  else if truthy_opt image_base64 then
    _process_image_from_base64 env
      (match image_base64 with Some b => b | None => [] end)
  else raise "ValueError" "Either image_url or image_base64 must be provided".

End image_service.

(** ** app/routes/moderation.py *)

Module moderation.

Import models.

(** [TextModerationRequest] *)
Record TextRequest : Type := {
  email : str;
  text : str
}.

(** [ImageModerationRequest] *)
Record ImageRequest : Type := {
  image_email : str;
  image_url : option str;
  image_base64 : option str
}.

(** [TextModerationResponse] and [ImageModerationResponse], which have
    the same fields. *)
Record ModerationResponse : Type := {
  success : bool;
  request_id : Z;
  classification : ClassificationType;
  confidence : pyfloat;
  reasoning : pyval;
  message : str
}.

Record HTTPException : Type := {
  status_code : Z;
  detail : str
}.

(** A call of [send_notifications_background] handed to
    [background_tasks.add_task]. *)
Definition BackgroundTask : Type := notification_service.Alert.

(** What one call of a handler leaves behind: the store, the tasks
    scheduled for after the response, the outside calls made, and the
    response or the HTTP error raised. *)
Record Handled : Type := {
  store : db.Database;
  background_tasks : list BackgroundTask;
  calls : list Call;
  outcome : HTTPException + ModerationResponse
}.

(** The duplicate check both handlers make: the first request with
    this hash and type and, when it has one, its latest result. *)
Definition cached_result (d : db.Database) (content_hash : str)
  (t : ContentType) : option (ModerationRequest * ModerationResult) :=
  match db.first_request d content_hash t with
  | Some existing_request =>
      match db.latest_result d (id existing_request) with
      | Some latest_result => Some (existing_request, latest_result)
      | None => None
      end
  | None => None
  end.

Definition cached_response (existing_request : ModerationRequest)
  (latest_result : ModerationResult) : ModerationResponse :=
  {| success := true;
     request_id := id existing_request;
     classification := models.classification latest_result;
     confidence := models.confidence latest_result;
     reasoning := models.reasoning latest_result;
     message := txt "Content analyzed successfully (cached result)" |}.

(** From the creation of the request on, with the answer of the
    classifier at hand: both handlers go the same way. *)
Definition classify (d : db.Database) (now : Z) (email : str)
  (t : ContentType) (content_hash : str) (kind preview : str)
  (call : Call) (answer : result llm_service.LLMResult)
  (prefix : string) (before : list Call) : Handled :=
  let (moderation_request, d1) :=
    db.add_request d email t content_hash PROCESSING now in
  match answer with
  | inr llm_result =>
      let d2 := db.add_result d1 (id moderation_request)
                  (llm_service.classification llm_result)
                  (llm_service.confidence llm_result)
                  (llm_service.reasoning llm_result)
                  (llm_service.llm_response llm_result) now in
      let d3 := db.set_status d2 (id moderation_request) COMPLETED in
      {| store := d3;
         background_tasks :=
           if truthy (llm_service.flagged llm_result) then
             [ {| notification_service.request_id := id moderation_request;
                  notification_service.email := email;
                  notification_service.classification :=
                    llm_service.classification llm_result;
                  notification_service.content_type := kind;
                  notification_service.content_preview := preview;
                  notification_service.confidence :=
                    llm_service.confidence llm_result;
                  notification_service.reasoning :=
                    llm_service.reasoning llm_result |} ]
           else [];
         calls := before ++ [call];
         outcome :=
           inr {| success := true;
                  request_id := id moderation_request;
                  classification := llm_service.classification llm_result;
                  confidence := llm_service.confidence llm_result;
                  reasoning := llm_service.reasoning llm_result;
                  message := txt "Content analyzed successfully" |} |}
  | inl e =>
      {| store := db.set_status d1 (id moderation_request) FAILED;
         background_tasks := [];
         calls := before ++ [call];
         outcome := inl {| status_code := 500;
                           detail := txt prefix ++ exn_str e |} |}
  end.

(** [moderate_text], the handler of POST /api/v1/moderate/text. *)
Definition moderate_text (generate_content : str -> result str) (now : Z)
  (request : TextRequest) (d : db.Database) : Handled :=
  let content_hash := hashing.hash_text (text request) in
  match cached_result d content_hash TEXT with
  | Some (existing_request, latest_result) =>
      {| store := d; background_tasks := []; calls := [];
         outcome := inr (cached_response existing_request latest_result) |}
  | None =>
      classify d now (email request) TEXT content_hash (txt "text")
        (firstn 200 (text request))
        (GenerateText (text request))
        (llm_service.moderate_text generate_content (text request))
        "Failed to analyze text content: " []
  end.

(** [moderate_image], the handler of POST /api/v1/moderate/image.  The
    image is fetched and validated first, then hashed, then looked up. *)
Definition moderate_image (env : image_service.Env)
  (generate_content : list byte -> str -> result str) (now : Z)
  (request : ImageRequest) (d : db.Database) : Handled :=
  let failure (before : list Call) (e : exn) :=
    {| store := d; background_tasks := []; calls := before;
       outcome := inl {| status_code := 500;
                         detail := txt "Failed to analyze image content: "
                                   ++ exn_str e |} |} in
  let processed : list Call * result (list byte * str * str) :=
    match image_url request, image_base64 request with
    | Some (c :: u), _ =>
        let url := c :: u in
        ([HttpGet url],
         '(image_bytes, mime_type) <-
            image_service.process_image env (Some url) None ;;
         ok (image_bytes, hashing.hash_url url,
             txt "Image from URL: " ++ url))
    | _, Some (c :: b) =>
        let data := c :: b in
        ([],
         '(image_bytes, mime_type) <-
            image_service.process_image env None (Some data) ;;
         content_hash <- hashing.hash_image (inl data) ;;
         ok (image_bytes, content_hash, txt "Image from base64 data"))
    | _, _ =>
        ([], raise "HTTPException"
               "400: Either image_url or image_base64 must be provided")
    end in
  match snd processed with
  | inl e => failure (fst processed) e
  | inr (image_bytes, content_hash, content_preview) =>
      match cached_result d content_hash IMAGE with
      | Some (existing_request, latest_result) =>
          {| store := d; background_tasks := []; calls := fst processed;
             outcome := inr (cached_response existing_request latest_result) |}
      | None =>
          classify d now (image_email request) IMAGE content_hash
            (txt "image") content_preview
            (GenerateVision image_bytes content_preview)
            (llm_service.moderate_image generate_content image_bytes
               content_preview)
            "Failed to analyze image content: " (fst processed)
      end
  end.

(** The string a result dictionary holds under a key, if any. *)
Definition get_str (result : list (str * pyval)) (k : string) : option str :=
  match dict_lookup (txt k) result with
  | Some (PyStr s) => Some s
  | _ => None
  end.

(** The [try] block of [send_notifications_background]: send, then one
    log row per channel, stamped with the creation time of the request;
    the rows are committed together at the end. *)
Definition background_body (st : notification_service.Settings)
  (ch : notification_service.Channels) (now : Z) (task : BackgroundTask)
  (d : db.Database) : result db.Database * list Call :=
  let (notification_results, posts) :=
    notification_service.send_notifications st ch task in
  (fold_left
     (fun acc (item : str * list (str * pyval)) =>
        d' <- acc ;;
        match db.request_by_id d' (notification_service.request_id task) with
        | None =>
            raise "AttributeError"
              "'NoneType' object has no attribute 'created_at'"
        | Some r =>
            ok (db.add_log d' (notification_service.request_id task)
                  (if str_eqb (fst item) (txt "slack") then SLACK else EMAIL)
                  (match get_str (snd item) "status" with
                   | Some s => if str_eqb s (txt "sent") then SENT
                               else NOTIFICATION_FAILED
                   | None => NOTIFICATION_FAILED
                   end)
                  (get_str (snd item) "error")
                  (Some (created_at r)) now)
        end)
     notification_results (ok d),
   posts).

(** [send_notifications_background]: an exception is logged and
    dropped, and nothing of the session is committed. *)
Definition send_notifications_background (st : notification_service.Settings)
  (ch : notification_service.Channels) (now : Z) (task : BackgroundTask)
  (d : db.Database) : db.Database * list Call :=
  match background_body st ch now task d with
  | (inr d', posts) => (d', posts)
  | (inl _, posts) => (d, posts)
  end.

(** The tasks FastAPI runs once the response has been sent. *)
Definition run_background_tasks (st : notification_service.Settings)
  (ch : notification_service.Channels) (now : Z)
  (tasks : list BackgroundTask) (d : db.Database) : db.Database * list Call :=
  fold_left
    (fun acc task =>
       let (d', posts) := send_notifications_background st ch now task (fst acc) in
       (d', snd acc ++ posts))
    tasks (d, []).

End moderation.

(** Text written with ['] where the double quote stands. *)
Definition jtxt (s : string) : str :=
  map (fun c => if chr c "'" then dquote else c) (txt s).

(** ** Serving one text submission *)

(** FastAPI runs the handler, sends the response, then runs the
    background tasks the handler scheduled. *)
Definition serve_text (st : notification_service.Settings)
  (ch : notification_service.Channels) (generate_content : str -> result str)
  (now : Z) (request : moderation.TextRequest) (d : db.Database) :
  db.Database * (moderation.HTTPException + moderation.ModerationResponse) :=
  let h := moderation.moderate_text generate_content now request d in
  (fst (moderation.run_background_tasks st ch now
          (moderation.background_tasks h) (moderation.store h)),
   moderation.outcome h).

(** ** Vocabulary of the properties *)

(** A confidence within the closed interval from 0 to 1. *)
Definition unit_interval (f : pyfloat) : Prop :=
  match f with
  | Fin q => 0 <= q /\ q <= 1
  | _ => False
  end.

(** The object the structured fragment of a raw response decodes to, if
    there is a fragment and it decodes. *)
Definition decoded_fragment (raw : str) : option pyval :=
  match llm_service.re_search raw with
  | Some json_str =>
      match json.loads json_str with
      | inr parsed => Some parsed
      | inl _ => None
      end
  | None => None
  end.

(** The value the upstream response carries under a key. *)
Definition upstream_value (raw : str) (k : string) : option pyval :=
  match decoded_fragment raw with
  | Some (PyDict o) => dict_lookup (txt k) o
  | _ => None
  end.












(** Referential integrity of [moderation_results.request_id]: every
    result belongs to a request of the store. *)
Definition consistent (d : db.Database) : Prop :=
  forall v, In v (db.moderation_results d) ->
    exists r, In r (db.moderation_requests d)
              /\ models.id r = models.request_id v.

(** The verdict a response carries. *)
Definition verdict_of (r : moderation.ModerationResponse) :
  models.ClassificationType * pyfloat * pyval :=
  (moderation.classification r, moderation.confidence r,
   moderation.reasoning r).

(** What a log row says: channel, outcome, error detail. *)
Definition log_entry (l : models.NotificationLog) :
  models.NotificationChannel * models.NotificationStatus * option str :=
  (models.channel l, models.log_status l, models.error_message l).

(** ** Float arithmetic used by the analytics *)

(** [a + b] on floats. *)
Definition py_add (a b : pyfloat) : pyfloat :=
  match a, b with
  | NaN, _ | _, NaN => NaN
  | PInf, NInf | NInf, PInf => NaN
  | PInf, _ | _, PInf => PInf
  | NInf, _ | _, NInf => NInf
  | Fin x, Fin y => float_of_Q (x + y)
  end.

(** [a / n] for a float and a positive integer. *)
Definition py_div (a : pyfloat) (n : positive) : pyfloat :=
  match a with
  | Fin x => Fin (x / inject_Z (Zpos n))
  | _ => a
  end.

(** The integer nearest to a rational, the even one of two that are
    equally near. *)
Definition round_half_even (q : Q) : Z :=
  let d := Zpos (Qden q) in
  let f := (Qnum q / d)%Z in
  match (2 * (Qnum q mod d) ?= d)%Z with
  | Lt => f
  | Gt => (f + 1)%Z
  | Eq => if Z.even f then f else (f + 1)%Z
  end.

(** The builtin [round(x, ndigits)] on a float. *)
Definition py_round (x : pyfloat) (ndigits : nat) : pyfloat :=
  match x with
  | Fin q =>
      let scale := inject_Z (10 ^ Z.of_nat ndigits) in
      Fin (inject_Z (round_half_even (q * scale)) / scale)
  | _ => x
  end.

(** ** app/routes/analytics.py *)

Module analytics.

Import models.

(** [UserAnalyticsSummary] *)
Record UserAnalyticsSummary : Type := {
  email : str;
  total_requests : Z;
  text_requests : Z;
  image_requests : Z;
  safe_content : Z;
  flagged_content : Z;
  toxic_content : Z;
  spam_content : Z;
  harassment_content : Z;
  inappropriate_content : Z;
  average_confidence : pyfloat;
  last_request_date : option Z
}.

(** [AnalyticsResponse] *)
Record AnalyticsResponse : Type := {
  success : bool;
  data : UserAnalyticsSummary;
  message : str
}.

(** [len([x for x in l if p(x)])] *)
Definition count {A : Type} (p : A -> bool) (l : list A) : Z :=
  Z.of_nat (List.length (filter p l)).

(** [query(ModerationRequest).filter(email == user).all()] *)
Definition requests_of (d : db.Database) (user : str) : list ModerationRequest :=
  filter (fun req => str_eqb (models.email req) user) (db.moderation_requests d).

(** [query(ModerationResult).filter(request_id.in_(request_ids)).all()] *)
Definition results_of (d : db.Database) (request_ids : list Z) :
  list ModerationResult :=
  filter (fun r => existsb (Z.eqb (request_id r)) request_ids)
         (db.moderation_results d).

(** [sum(r.confidence for r in results) / len(results)], or [0.0]
    without results. *)
Definition mean_confidence (results : list ModerationResult) : pyfloat :=
  match results with
  | [] => Fin 0
  | _ :: rest =>
      py_div (fold_left (fun acc r => py_add acc (confidence r)) results (Fin 0))
             (Pos.of_succ_nat (List.length rest))
  end.

(** [max(user_requests, key=lambda x: x.created_at)]: the first request
    with the greatest creation time. *)
Fixpoint latest (best : ModerationRequest) (l : list ModerationRequest) :
  ModerationRequest :=
  match l with
  | [] => best
  | x :: l' =>
      if (created_at best <? created_at x)%Z then latest x l' else latest best l'
  end.

(** The figures both endpoints compute for the requests of one user. *)
Definition figures (d : db.Database) (user : str)
  (first : ModerationRequest) (others : list ModerationRequest) :
  UserAnalyticsSummary :=
  let user_requests := first :: others in
  let results := results_of d (map id user_requests) in
  let of_class c :=
    count (fun r => ClassificationType_eqb (classification r) c) results in
  let total_requests := Z.of_nat (List.length user_requests) in
  let safe_content := of_class SAFE in
  {| email := user;
     total_requests := total_requests;
     text_requests :=
       count (fun req => ContentType_eqb (content_type req) TEXT) user_requests;
     image_requests :=
       count (fun req => ContentType_eqb (content_type req) IMAGE) user_requests;
     safe_content := safe_content;
     flagged_content := (total_requests - safe_content)%Z;
     toxic_content := of_class TOXIC;
     spam_content := of_class SPAM;
     harassment_content := of_class HARASSMENT;
     inappropriate_content := of_class INAPPROPRIATE;
     average_confidence := py_round (mean_confidence results) 3;
     last_request_date := Some (created_at (latest first others)) |}.

(** [get_user_analytics_summary], the handler of GET
    /api/v1/analytics/summary.  No step of its [try] block raises here:
    failures of the store are not represented. *)
Definition get_user_analytics_summary (user : str) (d : db.Database) :
  AnalyticsResponse :=
  match requests_of d user with
  | [] =>
      {| success := true;
         data := {| email := user; total_requests := 0; text_requests := 0;
                    image_requests := 0; safe_content := 0;
                    flagged_content := 0; toxic_content := 0;
                    spam_content := 0; harassment_content := 0;
                    inappropriate_content := 0; average_confidence := Fin 0;
                    last_request_date := None |};
         message := txt "No moderation requests found for this user" |}
  | first :: others =>
      {| success := true;
         data := figures d user first others;
         message := txt "Analytics summary retrieved successfully" |}
  end.

(** [overall_stats] of the summary of all users. *)
Record OverallStats : Type := {
  total_users : Z;
  total_requests_all : Z;
  total_flagged_content : Z;
  flag_rate : pyval
}.

(** [query(ModerationRequest.email).distinct().all()] *)
Definition user_emails (d : db.Database) : list str :=
  nodup (list_eq_dec ascii_dec) (map models.email (db.moderation_requests d)).

(** The dictionary [all_analytics]: one entry per user that has
    requests. *)
Definition all_analytics (d : db.Database) : list (str * UserAnalyticsSummary) :=
  flat_map
    (fun email =>
       match requests_of d email with
       | [] => []
       | first :: others => [(email, figures d email first others)]
       end)
    (user_emails d).

Definition sum_of (f : UserAnalyticsSummary -> Z)
  (l : list (str * UserAnalyticsSummary)) : Z :=
  fold_left (fun acc entry => (acc + f (snd entry))%Z) l 0%Z.

(** [get_all_users_analytics_summary], the handler of GET
    /api/v1/analytics/summary/all: the overall figures and the entries
    by user. *)
Definition get_all_users_analytics_summary (d : db.Database) :
  OverallStats * list (str * UserAnalyticsSummary) :=
  let entries := all_analytics d in
  let requests := sum_of total_requests entries in
  let flagged := sum_of flagged_content entries in
  ({| total_users := Z.of_nat (List.length entries);
      total_requests_all := requests;
      total_flagged_content := flagged;
      flag_rate :=
        if (0 <? requests)%Z then
          PyFloat (py_round (Fin ((flagged # 1) / (requests # 1) * 100)) 2)
        else PyInt 0 |},
   entries).

End analytics.

(** ** Vocabulary of the further properties *)

(** A digest as [hexdigest] writes it: 64 characters out of 0-9 and
    a-f. *)
Definition hex_digest (s : str) : Prop :=
  List.length s = 64%nat
  /\ Forall (fun c => In c (txt "0123456789abcdef")) s.

(** One event the service handles, from the store before to the store
    after: a text submission, an image submission, or a notification
    task run in the background.  Events are handled one at a time. *)
Inductive step (d : db.Database) : db.Database -> Prop :=
| step_text gen now request :
    step d (moderation.store (moderation.moderate_text gen now request d))
| step_image env gen now request :
    step d (moderation.store (moderation.moderate_image env gen now request d))
| step_background st ch now task :
    step d (fst (moderation.send_notifications_background st ch now task d)).

(** The stores that follow a store, after any number of events. *)
Inductive evolves (d : db.Database) : db.Database -> Prop :=
| evolves_refl : evolves d d
| evolves_step d1 d2 : evolves d d1 -> step d1 d2 -> evolves d d2.

(** The stores the service reaches from the empty one. *)
Definition reachable (d : db.Database) : Prop := evolves db.empty d.

(** Does a request have a verdict in the store? *)
Definition has_result (d : db.Database) (r : models.ModerationRequest) : bool :=
  existsb (fun v => (models.request_id v =? models.id r)%Z)
          (db.moderation_results d).

(** What the handlers keep true of the store: primary keys are unique,
    a request has at most one verdict, every verdict belongs to a
    request, a request is completed when it has a verdict and failed
    when it has none, every stored confidence lies between 0 and 1, and
    every fingerprint is a digest. *)
Record sound (d : db.Database) : Prop := {
  request_ids_unique : NoDup (map models.id (db.moderation_requests d));
  result_ids_unique : NoDup (map models.result_id (db.moderation_results d));
  one_result_each : NoDup (map models.request_id (db.moderation_results d));
  results_attached : consistent d;
  status_settled :
    forall r, In r (db.moderation_requests d) ->
      models.status r
      = if has_result d r then models.COMPLETED else models.FAILED;
  confidences_bounded :
    forall v, In v (db.moderation_results d) ->
      unit_interval (models.confidence v);
  hashes_are_digests :
    forall r, In r (db.moderation_requests d) ->
      hex_digest (models.content_hash r)
}.

(** What the background task keeps true of the log: every row belongs
    to a request, carries the creation time of that request as its
    sending time, and says sent or failed. *)
Definition logs_sound (d : db.Database) : Prop :=
  forall l, In l (db.notification_logs d) ->
    (exists r, In r (db.moderation_requests d)
               /\ models.id r = models.log_request_id l
               /\ models.sent_at l = Some (models.created_at r))
    /\ models.log_status l <> models.NOTIFICATION_PENDING.

(** * Properties *)
Example sha256_empty :
  SHA256.hexdigest [] =
  txt "e3b0c44298fc1c149afbf4c8996fb92427ae41e4649b934ca495991b7852b855".
Proof. vm_compute. reflexivity. Qed.

Example sha256_abc :
  SHA256.hexdigest (encode_utf8 (txt "abc")) =
  txt "ba7816bf8f01cfea414140de5dae2223b00361a396177a9cb410ff61f20015ad".
Proof. vm_compute. reflexivity. Qed.

Example sha256_two_blocks :
  SHA256.hexdigest (encode_utf8 (repeat "a"%char 119)) =
  txt "31eba51c313a5c08226adf18d4a359cfdfd8d2e816b13f4af952f7ea6584dcfb".
Proof. vm_compute. reflexivity. Qed.

Example sha256_a64 :
  SHA256.hexdigest (encode_utf8 (repeat "a"%char 64)) =
  txt "ffe054fe7ae0cb6dc65c3af9b61d5209f439851db43d0ba5997337df154668eb".
Proof. vm_compute. reflexivity. Qed.

Example sha256_a56 :
  SHA256.hexdigest (encode_utf8 (repeat "a"%char 56)) =
  txt "b35439a4ac6f0948b6d6f9e3c6af0f5f590ce20f1bde7090ef7970686ec6738a".
Proof. vm_compute. reflexivity. Qed.

Example hash_text_hello :
  hashing.hash_text (txt "  Hello   WORLD ") =
  txt "b94d27b9934d3e08a52e52d7da7dabfac484efe37a5380ee9088f7ace2efcde9".
Proof. vm_compute. reflexivity. Qed.

Section Parser.

Import models llm_service.

Lemma clamp_unit_interval (f : pyfloat) :
  unit_interval (py_max (Fin 0) (py_min (Fin 1) f)).
Proof.
  destruct f as [q | | |]; unfold py_min, py_max; simpl;
    try (split; [apply Qle_refl | discriminate]);
    try (split; [discriminate | apply Qle_refl]).
  destruct (Qle_bool 1 q) eqn:H1; simpl.
  - split; discriminate.
  - destruct (Qle_bool q 0) eqn:H0; simpl.
    + split; [apply Qle_refl | discriminate].
    + split.
      * apply Qlt_le_weak, Qnot_le_lt. intro H.
        apply Qle_bool_iff in H. congruence.
      * apply Qlt_le_weak, Qnot_le_lt. intro H.
        apply Qle_bool_iff in H. congruence.
Qed.

Lemma half_unit_interval : unit_interval (Fin (1 # 2)).
Proof. split; discriminate. Qed.

(** The verdict is the body's result, or the default when the body
    raised. *)
Lemma parse_cases (raw : str) :
  (exists r, parse_body raw = inr r /\ _parse_llm_response raw = r)
  \/ (exists e, parse_body raw = inl e
                /\ classification (_parse_llm_response raw) = SAFE
                /\ confidence (_parse_llm_response raw) = Fin (1 # 2)
                /\ flagged (_parse_llm_response raw) = PyBool false
                /\ llm_response (_parse_llm_response raw) = raw).
Proof.
  unfold _parse_llm_response.
  destruct (parse_body raw) as [e | r].
  - right. exists e. repeat split.
  - left. exists r. split; reflexivity.
Qed.

End Parser.

Section ParserClaims.

Import models llm_service.

Lemma half_clamped :
  py_max (Fin 0) (py_min (Fin 1) (Fin (1 # 2))) = Fin (1 # 2).
Proof. reflexivity. Qed.

Lemma parse_confidence_bounds (raw : str) :
  unit_interval (confidence (_parse_llm_response raw)).
Proof.
  unfold _parse_llm_response, parse_body.
  destruct (re_search raw) as [js |]; [| apply half_unit_interval].
  destruct (json.loads js) as [e | parsed]; [apply half_unit_interval |].
  simpl.
  destruct (call_get parsed "classification" _) as [e | c];
    [apply half_unit_interval |]; simpl.
  destruct (call_lower c) as [e | k]; [apply half_unit_interval |]; simpl.
  destruct (call_get parsed "confidence" _) as [e | v];
    [apply half_unit_interval |]; simpl.
  destruct (py_float v) as [e | f]; [apply half_unit_interval |]; simpl.
  destruct (call_get parsed "reasoning" _) as [e | w];
    [apply half_unit_interval |]; simpl.
  destruct (call_get parsed "flagged" _) as [e | fl];
    [apply half_unit_interval |]; simpl.
  apply clamp_unit_interval.
Qed.

Lemma parse_keeps_raw (raw : str) :
  llm_response (_parse_llm_response raw) = raw.
Proof.
  destruct (parse_cases raw) as [(r & Hb & ->) | (e & _ & _ & _ & _ & H)];
    [| exact H].
  unfold parse_body in Hb.
  destruct (re_search raw) as [js |]; [| injection Hb as <-; reflexivity].
  destruct (json.loads js) as [e | parsed]; [discriminate |]. simpl in Hb.
  destruct (call_get parsed "classification" _) as [e | c];
    [discriminate |]; simpl in Hb.
  destruct (call_lower c) as [e | k]; [discriminate |]; simpl in Hb.
  destruct (call_get parsed "confidence" _) as [e | v];
    [discriminate |]; simpl in Hb.
  destruct (py_float v) as [e | f]; [discriminate |]; simpl in Hb.
  destruct (call_get parsed "reasoning" _) as [e | w];
    [discriminate |]; simpl in Hb.
  destruct (call_get parsed "flagged" _) as [e | fl];
    [discriminate |]; simpl in Hb.
  injection Hb as <-. reflexivity.
Qed.






End ParserClaims.

Section Store.

Import models db.

Local Open Scope Z_scope.

Lemma next_id_above (ids : list Z) (i : Z) : In i ids -> i < next_id ids.
Proof.
  unfold next_id. induction ids as [| j ids IH]; cbn [fold_right In]; [tauto |].
  intros [-> | H]; [lia |]. specialize (IH H). lia.
Qed.

Lemma fresh_request_id (l : list ModerationRequest) (q : ModerationRequest) :
  In q l -> (id q =? next_id (map id l)) = false.
Proof.
  intro H. apply Z.eqb_neq.
  pose proof (next_id_above (map id l) (id q) (in_map id l q H)). lia.
Qed.

Lemma set_status_new (d : Database) e t h st st' now :
  moderation_requests
    (set_status (snd (add_request d e t h st now))
                (id (fst (add_request d e t h st now))) st')
  = moderation_requests d ++ [new_request d e t h st' now].
Proof.
  cbn [add_request fst snd set_status moderation_requests].
  rewrite map_app. cbn [map new_request id]. rewrite Z.eqb_refl.
  unfold new_request. f_equal.
  rewrite <- (map_id (moderation_requests d)) at 2.
  apply map_ext_in. intros q Hq. rewrite (fresh_request_id _ _ Hq). reflexivity.
Qed.

Lemma find_app_none {A} (f : A -> bool) (l l' : list A) :
  find f l = None -> find f (l ++ l') = find f l'.
Proof.
  induction l as [| a l IH]; simpl; [reflexivity |].
  destruct (f a); [discriminate | exact IH].
Qed.


Lemma filter_none {A} (f : A -> bool) (l : list A) :
  (forall a, In a l -> f a = false) -> filter f l = [].
Proof.
  induction l as [| a l IH]; simpl; intro H; [reflexivity |].
  rewrite (H a (or_introl eq_refl)). apply IH. intros b Hb. apply H. now right.
Qed.

Lemma no_result_for_fresh_id (d : Database) :
  consistent d ->
  filter (fun v => request_id v =? next_id (map id (moderation_requests d)))
         (moderation_results d) = [].
Proof.
  intro Hc. apply filter_none. intros v Hv.
  destruct (Hc v Hv) as (r & Hr & Heq). rewrite <- Heq.
  apply fresh_request_id. exact Hr.
Qed.

End Store.

Section Handlers.

Import models db moderation.

Local Open Scope Z_scope.

Lemma str_eqb_refl (s : str) : str_eqb s s = true.
Proof. unfold str_eqb. destruct (list_eq_dec ascii_dec s s); congruence. Qed.

Lemma str_eqb_eq (a b : str) : str_eqb a b = true -> a = b.
Proof. unfold str_eqb. destruct (list_eq_dec ascii_dec a b); congruence. Qed.

Lemma ContentType_eqb_refl (t : ContentType) : ContentType_eqb t t = true.
Proof. destruct t; reflexivity. Qed.

Lemma moderate_text_hit gen now request d r v :
  cached_result d (hashing.hash_text (text request)) TEXT = Some (r, v) ->
  moderate_text gen now request d
  = {| store := d; background_tasks := []; calls := [];
       outcome := inr (cached_response r v) |}.
Proof. intro H. unfold moderate_text. rewrite H. reflexivity. Qed.

Lemma moderate_text_miss gen now request d :
  cached_result d (hashing.hash_text (text request)) TEXT = None ->
  moderate_text gen now request d
  = classify d now (email request) TEXT (hashing.hash_text (text request))
      (txt "text") (firstn 200 (text request)) (GenerateText (text request))
      (llm_service.moderate_text gen (text request))
      "Failed to analyze text content: " [].
Proof. intro H. unfold moderate_text. rewrite H. reflexivity. Qed.

(** The store a classification that succeeded leaves. *)
Lemma classify_ok_store d now e t h kind preview call res prefix before :
  let s := store (classify d now e t h kind preview call (inr res) prefix before) in
  moderation_requests s
  = moderation_requests d ++ [new_request d e t h COMPLETED now]
  /\ moderation_results s
     = moderation_results d
       ++ [new_result (snd (add_request d e t h PROCESSING now))
             (next_id (map id (moderation_requests d)))
             (llm_service.classification res) (llm_service.confidence res)
             (llm_service.reasoning res) (llm_service.llm_response res) now]
  /\ notification_logs s = notification_logs d.
Proof.
  cbv zeta. unfold classify.
  cbn [add_request store add_result set_status moderation_requests
       moderation_results notification_logs fst snd].
  split; [| split; reflexivity].
  exact (set_status_new d e t h PROCESSING COMPLETED now).
Qed.

(** The store a classification that failed leaves. *)
Lemma classify_failed_store d now e t h kind preview call err prefix before :
  let s := store (classify d now e t h kind preview call (inl err) prefix before) in
  moderation_requests s
  = moderation_requests d ++ [new_request d e t h FAILED now]
  /\ moderation_results s = moderation_results d
  /\ notification_logs s = notification_logs d.
Proof.
  cbv zeta. unfold classify.
  cbn [add_request store set_status moderation_requests
       moderation_results notification_logs fst snd].
  split; [| split; reflexivity].
  exact (set_status_new d e t h PROCESSING FAILED now).
Qed.

Lemma first_request_none_cached d h t :
  first_request d h t = None -> cached_result d h t = None.
Proof. intro H. unfold cached_result. rewrite H. reflexivity. Qed.

(** Once a first request of its fingerprint has been classified, the
    duplicate check finds it together with its verdict. *)
Lemma cached_after_classify d now e t h kind preview call res prefix before :
  consistent d ->
  first_request d h t = None ->
  let s := store (classify d now e t h kind preview call (inr res) prefix before) in
  cached_result s h t
  = Some (new_request d e t h COMPLETED now,
          new_result (snd (add_request d e t h PROCESSING now))
            (next_id (map id (moderation_requests d)))
            (llm_service.classification res) (llm_service.confidence res)
            (llm_service.reasoning res) (llm_service.llm_response res) now).
Proof.
  intros Hc Hn. cbv zeta.
  destruct (classify_ok_store d now e t h kind preview call res prefix before)
    as (Hq & Hr & _).
  cbv zeta in Hq, Hr.
  unfold cached_result, first_request, latest_result.
  rewrite Hq, Hr. unfold first_request in Hn.
  rewrite (find_app_none _ _ _ Hn).
  cbn [find new_request content_hash content_type id].
  rewrite str_eqb_refl, ContentType_eqb_refl. cbn [andb].
  cbn [new_request id].
  rewrite filter_app, (no_result_for_fresh_id Hc).
  cbn [filter new_result request_id app]. rewrite Z.eqb_refl.
  reflexivity.
Qed.

End Handlers.

Section Orchestrator.

Import models db moderation.

Local Open Scope Z_scope.

Lemma classify_outcome_ok d now e t h kind preview call answer prefix before resp :
  outcome (classify d now e t h kind preview call answer prefix before)
  = inr resp ->
  exists res, answer = inr res
    /\ resp = {| success := true;
                 request_id := next_id (map id (moderation_requests d));
                 classification := llm_service.classification res;
                 confidence := llm_service.confidence res;
                 reasoning := llm_service.reasoning res;
                 message := txt "Content analyzed successfully" |}.
Proof.
  unfold classify. cbn [add_request]. destruct answer as [err | res];
    cbn [outcome]; intro H; [discriminate |].
  exists res. split; [reflexivity |]. injection H as <-. reflexivity.
Qed.

(** Claim C2, amended.  For two successive submissions of the same text,
    where the store is consistent, holds no request with that
    fingerprint and kind before the first, and the first completes: the
    first stores one verdict, and the second returns the same verdict for
    the same request, calls nothing outside, schedules no notification
    and leaves the store as it was. *)
Theorem second_submission_is_served_from_store
  gen1 gen2 now1 now2 (r1 r2 : TextRequest) (d : Database) resp1 :
  consistent d ->
  text r2 = text r1 ->
  first_request d (hashing.hash_text (text r1)) TEXT = None ->
  let h1 := moderate_text gen1 now1 r1 d in
  let h2 := moderate_text gen2 now2 r2 (store h1) in
  outcome h1 = inr resp1 ->
  List.length (moderation_results (store h1))
  = S (List.length (moderation_results d))
  /\ (exists resp2,
        outcome h2 = inr resp2
        /\ verdict_of resp2 = verdict_of resp1
        /\ request_id resp2 = request_id resp1)
  /\ calls h2 = []
  /\ background_tasks h2 = []
  /\ store h2 = store h1.
Proof.
  intros Hc Ht Hn h1 h2 Ho. subst h1 h2.
  rewrite (moderate_text_miss gen1 now1 r1 d (first_request_none_cached _ _ _ Hn)) in *.
  destruct (classify_outcome_ok _ _ _ _ _ _ _ _ _ _ _ Ho) as (res & Ha & ->).
  rewrite Ha in *.
  pose proof (@cached_after_classify d now1 (email r1) TEXT
                (hashing.hash_text (text r1)) (txt "text")
                (firstn 200 (text r1)) (GenerateText (text r1)) res
                "Failed to analyze text content: "%string [] Hc Hn) as Hhit.
  cbv zeta in Hhit. rewrite <- Ht in Hhit at 4.
  rewrite (moderate_text_hit gen2 now2 r2 _ Hhit).
  cbn [store background_tasks calls outcome].
  split.
  - destruct (classify_ok_store d now1 (email r1) TEXT
                (hashing.hash_text (text r1)) (txt "text")
                (firstn 200 (text r1)) (GenerateText (text r1)) res
                "Failed to analyze text content: "%string []) as (_ & Hr & _).
    cbv zeta in Hr. rewrite Hr, length_app. cbn [List.length]. lia.
  - split; [| repeat split].
    eexists. split; [reflexivity |]. split; reflexivity.
Qed.


Lemma second_submission_is_served_from_store_witness :
  let request := {| email := txt "ann@example.com";
                    text := txt "You are an idiot and I hope bad things happen to you" |} in
  let again := {| email := txt "bob@example.com";
                  text := txt "You are an idiot and I hope bad things happen to you" |} in
  let upstream := fun _ : str =>
    ok (jtxt "{'classification':'harassment','confidence':0.92,'reasoning':'targeted abuse','flagged':true}") in
  let silent := fun _ : str => raise "Timeout" "upstream not reachable" in
  let h1 := moderate_text upstream 10 request db.empty in
  let h2 := moderate_text silent 20 again (store h1) in
  (exists resp1 resp2,
      outcome h1 = inr resp1 /\ outcome h2 = inr resp2
      /\ verdict_of resp2 = verdict_of resp1
      /\ classification resp1 = HARASSMENT)
  /\ calls h2 = [] /\ background_tasks h2 = [] /\ store h2 = store h1.
Proof.
  cbv zeta.
  match goal with
  | |- context [moderate_text ?g2 ?n2 ?q2 (store (moderate_text ?g1 ?n1 ?q1 ?d))] =>
      assert (Ho : exists r, outcome (moderate_text g1 n1 q1 d) = inr r
                             /\ classification r = HARASSMENT)
        by (eexists; split; vm_compute; reflexivity);
      destruct Ho as (resp1 & Ho & Hcls);
      destruct (@second_submission_is_served_from_store
                  g1 g2 n1 n2 q1 q2 d resp1
                  (fun v (H : In v []) => match H with end)
                  eq_refl eq_refl Ho)
        as (_ & (resp2 & H2 & Hv & _) & Hcalls & Htasks & Hstore)
  end.
  split; [| auto].
  exists resp1, resp2. auto.
Defined.

(** Counterexample to claim C2 as stated.  An earlier attempt on the
    same text failed and left a request without verdict.  The next
    submission completes and stores a verdict; the one after it finds
    the old request first, so it calls the classifier again, creates a
    third request and a second verdict, and returns another answer. *)
Lemma second_submission_reclassified :
  let request := {| email := txt "ann@example.com"; text := txt "Buy now!!" |} in
  let down := fun _ : str => raise "Timeout" "upstream not reachable" in
  let spam := fun _ : str =>
    ok (jtxt "{'classification':'spam','confidence':0.8,'reasoning':'advert','flagged':true}") in
  let safe := fun _ : str =>
    ok (jtxt "{'classification':'safe','confidence':0.6,'reasoning':'fine','flagged':false}") in
  let d := store (moderate_text down 1 request db.empty) in
  let h1 := moderate_text spam 2 request d in
  let h2 := moderate_text safe 3 request (store h1) in
  (exists resp1 resp2,
      outcome h1 = inr resp1 /\ outcome h2 = inr resp2
      /\ classification resp1 = SPAM /\ classification resp2 = SAFE
      /\ request_id resp1 = 2 /\ request_id resp2 = 3)
  /\ List.length (moderation_results (store h1)) = 1%nat
  /\ calls h2 = [GenerateText (txt "Buy now!!")]
  /\ List.length (moderation_requests (store h2)) = 3%nat
  /\ List.length (moderation_results (store h2)) = 2%nat.
Proof.
  cbv zeta. split.
  - eexists. eexists. split; [vm_compute; reflexivity |].
    split; [vm_compute; reflexivity |]. repeat split.
  - vm_compute. repeat split.
Qed.

End Orchestrator.

Section Lookup.

Import models db moderation.

Local Open Scope Z_scope.








(** Claim C7, amended.  When the classifier call fails after the request
    was created, the request is stored with status failed, no verdict is
    stored, no notification is scheduled, and the caller receives the
    error 500 whose detail is the fixed prefix followed by the text of
    the upstream error. *)
Theorem upstream_failure_marks_request_failed gen now (request : TextRequest)
  (d : Database) (e : exn) :
  cached_result d (hashing.hash_text (text request)) TEXT = None ->
  gen (text request) = inl e ->
  let h := moderate_text gen now request d in
  moderation_requests (store h)
  = moderation_requests d
    ++ [new_request d (email request) TEXT
          (hashing.hash_text (text request)) FAILED now]
  /\ moderation_results (store h) = moderation_results d
  /\ background_tasks h = []
  /\ outcome h
     = inl {| status_code := 500;
              detail := txt "Failed to analyze text content: " ++ exn_str e |}.
Proof.
  intros Hmiss He h. subst h. rewrite (moderate_text_miss _ _ _ _ Hmiss).
  unfold llm_service.moderate_text. rewrite He.
  destruct (classify_failed_store d now (email request) TEXT
              (hashing.hash_text (text request)) (txt "text")
              (firstn 200 (text request)) (GenerateText (text request)) e
              "Failed to analyze text content: "%string []) as (Hq & Hr & _).
  cbv zeta in Hq, Hr. repeat split; trivial.
Qed.

Lemma upstream_failure_marks_request_failed_witness :
  let request := {| email := txt "ann@example.com"; text := txt "hello" |} in
  let down := fun _ : str => raise "Timeout" "upstream not reachable" in
  let h := moderate_text down 5 request db.empty in
  map status (moderation_requests (store h)) = [FAILED]
  /\ moderation_results (store h) = []
  /\ background_tasks h = [].
Proof.
  cbv zeta.
  match goal with
  | |- context [moderate_text ?g ?n ?q ?d] =>
      destruct (@upstream_failure_marks_request_failed g n q d
                  (Raise "Timeout" (txt "upstream not reachable"))
                  eq_refl eq_refl) as (Hq & Hr & Ht & _)
  end.
  rewrite Hq, Hr, Ht. repeat split.
Defined.

(** Counterexample to claim C7 as stated.  The upstream error text
    reaches the caller word for word in the detail of the error 500. *)
Lemma upstream_error_text_reaches_caller :
  let request := {| email := txt "ann@example.com"; text := txt "hello" |} in
  let broken := fun _ : str =>
    raise "PermissionDenied" "403 API key AIzaSyExample is not valid" in
  exists err,
    outcome (moderate_text broken 5 request db.empty) = inl err
    /\ status_code err = 500
    /\ detail err
       = txt "Failed to analyze text content: 403 API key AIzaSyExample is not valid"
    /\ image_service.contains
         (txt "403 API key AIzaSyExample is not valid") (detail err) = true.
Proof.
  cbv zeta. eexists. split; [vm_compute; reflexivity |]. repeat split.
Qed.



End Lookup.

Section Flagged.

Import models db moderation.





End Flagged.

Section Notifications.

Import models db moderation.
Import notification_service.

Lemma not_safe (c : ClassificationType) :
  c <> SAFE -> ClassificationType_eqb c SAFE = false.
Proof. destruct c; intro H; [congruence | | | |]; reflexivity. Qed.

(** Claim C8.  With both channels configured and a verdict that is not
    safe: when the Slack post raises and the e-mail post succeeds, the
    background task records failed with the error text for Slack and
    sent for e-mail; when the e-mail post raises and the Slack post
    succeeds, it records sent for Slack and failed with the error text
    for e-mail.  In both cases the body of the task raises nothing, and
    the response to the submission is the same whatever the channels
    do. *)
Theorem channel_failures_are_isolated (st : Settings) (ch : Channels)
  (now : Z) (task : BackgroundTask) (d : Database) (r : ModerationRequest) :
  truthy_opt (slack_webhook_url st) = true ->
  truthy_opt (brevo_api_key st) = true ->
  truthy_opt (brevo_sender_email st) = true ->
  notification_service.classification task <> SAFE ->
  request_by_id d (notification_service.request_id task) = Some r ->
  (forall e resp,
      post_slack ch (slack_message task) = inl e ->
      post_brevo ch (email_payload st task) = inr resp ->
      exists d',
        background_body st ch now task d
        = (inr d', [SlackPost (notification_service.request_id task);
                    BrevoPost (notification_service.request_id task)])
        /\ send_notifications_background st ch now task d
           = (d', [SlackPost (notification_service.request_id task);
                   BrevoPost (notification_service.request_id task)])
        /\ exists a b,
             notification_logs d' = notification_logs d ++ [a; b]
             /\ log_entry a = (SLACK, NOTIFICATION_FAILED, Some (exn_str e))
             /\ log_entry b = (EMAIL, SENT, None))
  /\ (forall e resp,
        post_slack ch (slack_message task) = inr resp ->
        post_brevo ch (email_payload st task) = inl e ->
        exists d',
          background_body st ch now task d
          = (inr d', [SlackPost (notification_service.request_id task);
                      BrevoPost (notification_service.request_id task)])
          /\ send_notifications_background st ch now task d
             = (d', [SlackPost (notification_service.request_id task);
                     BrevoPost (notification_service.request_id task)])
          /\ exists a b,
               notification_logs d' = notification_logs d ++ [a; b]
               /\ log_entry a = (SLACK, SENT, None)
               /\ log_entry b = (EMAIL, NOTIFICATION_FAILED, Some (exn_str e)))
  /\ (forall ch' gen request d0,
        snd (serve_text st ch gen now request d0)
        = snd (serve_text st ch' gen now request d0)).
Proof.
  intros Hs Hk Hm Hc Hr.
  assert (Hr' : forall ch0 stt err sent now0,
             request_by_id (add_log d (notification_service.request_id task)
                              ch0 stt err sent now0)
                           (notification_service.request_id task) = Some r)
    by (intros; exact Hr).
  split; [| split].
  - intros e resp He Hp. eexists.
    unfold send_notifications_background, background_body, send_notifications,
      _send_slack_notification, _send_email_notification.
    rewrite (not_safe Hc), Hs, Hk, Hm, He, Hp.
    cbn [andb bind fst snd app fold_left ok]. rewrite Hr.
    cbv [bind ok]. rewrite Hr'.
    split; [reflexivity |]. split; [reflexivity |].
    eexists. eexists. cbn [add_log notification_logs]. rewrite <- app_assoc.
    split; [reflexivity |]. split; vm_compute; reflexivity.
  - intros e resp He Hp. eexists.
    unfold send_notifications_background, background_body, send_notifications,
      _send_slack_notification, _send_email_notification.
    rewrite (not_safe Hc), Hs, Hk, Hm, He, Hp.
    cbn [andb bind fst snd app fold_left ok]. rewrite Hr.
    cbv [bind ok]. rewrite Hr'.
    split; [reflexivity |]. split; [reflexivity |].
    eexists. eexists. cbn [add_log notification_logs]. rewrite <- app_assoc.
    split; [reflexivity |]. split; vm_compute; reflexivity.
  - reflexivity.
Qed.


Lemma channel_failures_are_isolated_witness :
  let st := {| slack_webhook_url := Some (txt "https://hooks.slack.example/T1");
               brevo_api_key := Some (txt "xkeysib-1");
               brevo_sender_email := Some (txt "alerts@example.com") |} in
  let ch := {| post_slack := fun _ => raise "ConnectionError" "slack unreachable";
               post_brevo := fun _ => ok (PyDict []) |} in
  let request := {| moderation.email := txt "ann@example.com";
                    text := txt "You are an idiot and I hope bad things happen to you" |} in
  let upstream := fun _ : str =>
    ok (jtxt "{'classification':'harassment','confidence':0.92,'reasoning':'targeted abuse','flagged':true}") in
  let h := moderate_text upstream 10 request db.empty in
  map log_entry
    (notification_logs
       (fst (run_background_tasks st ch 11 (background_tasks h) (store h))))
  = [(SLACK, NOTIFICATION_FAILED, Some (txt "slack unreachable"));
     (EMAIL, SENT, None)].
Proof.
  cbv zeta.
  match goal with
  | |- context [run_background_tasks ?st ?ch ?n (background_tasks ?h) (store ?h)] =>
      assert (Ht : exists task r,
                 background_tasks h = [task]
                 /\ notification_service.classification task <> SAFE
                 /\ request_by_id (store h)
                      (notification_service.request_id task) = Some r
                 /\ notification_logs (store h) = [])
        by (eexists; eexists; split; [vm_compute; reflexivity |];
            split; [intro H; vm_compute in H; discriminate |];
            split; vm_compute; reflexivity);
      destruct Ht as (task & r & Ht & Hc & Hr & Hl0);
      destruct (@channel_failures_are_isolated st ch n task (store h) r
                  eq_refl eq_refl eq_refl Hc Hr) as (HA & _);
      destruct (HA (Raise "ConnectionError" (txt "slack unreachable"))
                   (PyDict []) eq_refl eq_refl)
        as (d' & _ & Hbg & a & b & Hl & Ha & Hb);
      rewrite Ht; unfold run_background_tasks; cbn [fold_left fst];
      rewrite Hbg; cbn [fst]; rewrite Hl, Hl0; cbn [app map];
      rewrite Ha, Hb; reflexivity
  end.
Defined.

End Notifications.

Section Images.

Import models db moderation.

Local Open Scope Z_scope.











End Images.

Section Fingerprint.

Import hashing.











Lemma forallb_rev {A} (f : A -> bool) (l : list A) :
  forallb f (rev l) = forallb f l.
Proof.
  induction l as [| a l IH]; [reflexivity |].
  cbn [rev forallb]. rewrite forallb_app, IH. cbn [forallb].
  now rewrite andb_true_r, andb_comm.
Qed.
































End Fingerprint.

Section Invariant.

Import models db moderation.

Lemma empty_consistent : consistent db.empty.
Proof. intros v []. Qed.

Lemma classify_consistent d now e t h kind preview call answer prefix before :
  consistent d ->
  consistent (store (classify d now e t h kind preview call answer prefix before)).
Proof.
  intros Hc v Hv. destruct answer as [err | res].
  - destruct (classify_failed_store d now e t h kind preview call err prefix before)
      as (Hq & Hr & _).
    cbv zeta in Hq, Hr. rewrite Hr in Hv. rewrite Hq.
    destruct (Hc v Hv) as (r & Hin & Hid).
    exists r. split; [apply in_or_app; now left | exact Hid].
  - destruct (classify_ok_store d now e t h kind preview call res prefix before)
      as (Hq & Hr & _).
    cbv zeta in Hq, Hr. rewrite Hr in Hv. rewrite Hq.
    apply in_app_or in Hv. destruct Hv as [Hv | [<- | []]].
    + destruct (Hc v Hv) as (r & Hin & Hid).
      exists r. split; [apply in_or_app; now left | exact Hid].
    + eexists. split; [apply in_or_app; right; now left | reflexivity].
Qed.

(** Both handlers keep every result attached to a request. *)
Lemma moderate_text_consistent gen now request d :
  consistent d -> consistent (store (moderate_text gen now request d)).
Proof.
  intro Hc. unfold moderate_text.
  destruct (cached_result d _ TEXT) as [(r & v) |]; [exact Hc |].
  apply classify_consistent. exact Hc.
Qed.

Lemma moderate_image_consistent env gen now request d :
  consistent d -> consistent (store (moderate_image env gen now request d)).
Proof.
  intro Hc. unfold moderate_image.
  destruct (snd _) as [e | ((image_bytes & content_hash) & content_preview)];
    [exact Hc |].
  destruct (cached_result d content_hash IMAGE) as [(r & v) |]; [exact Hc |].
  apply classify_consistent. exact Hc.
Qed.

(** The background task writes log rows only. *)
Lemma background_keeps_requests st ch now task d :
  let d' := fst (send_notifications_background st ch now task d) in
  moderation_requests d' = moderation_requests d
  /\ moderation_results d' = moderation_results d.
Proof.
  cbv zeta. unfold send_notifications_background, background_body.
  destruct (notification_service.send_notifications st ch task) as (items & posts).
  assert (H : forall acc,
             (forall a, acc = inr a ->
                        moderation_requests a = moderation_requests d
                        /\ moderation_results a = moderation_results d) ->
             forall a,
               fold_left
                 (fun acc (item : str * list (str * pyval)) =>
                    d' <- acc ;;
                    match request_by_id d' (notification_service.request_id task) with
                    | None =>
                        raise "AttributeError"
                          "'NoneType' object has no attribute 'created_at'"
                    | Some r =>
                        ok (add_log d' (notification_service.request_id task)
                              (if str_eqb (fst item) (txt "slack") then SLACK else EMAIL)
                              (match get_str (snd item) "status" with
                               | Some s => if str_eqb s (txt "sent") then SENT
                                           else NOTIFICATION_FAILED
                               | None => NOTIFICATION_FAILED
                               end)
                              (get_str (snd item) "error")
                              (Some (created_at r)) now)
                    end) items acc = inr a ->
               moderation_requests a = moderation_requests d
               /\ moderation_results a = moderation_results d).
  { induction items as [| item items IH]; intros acc Hacc a Ha.
    - apply Hacc. exact Ha.
    - cbn [fold_left] in Ha. refine (IH _ _ a Ha). intros b Hb.
      destruct acc as [e | d0]; [discriminate |].
      cbv [bind] in Hb.
      destruct (request_by_id d0 _); [| discriminate].
      injection Hb as <-. cbn [add_log moderation_requests moderation_results].
      apply Hacc. reflexivity. }
  match goal with
  | |- context [fold_left ?f items (ok d)] =>
      destruct (fold_left f items (ok d)) as [e | a] eqn:Hf
  end; cbn [fst]; [split; reflexivity |].
  apply (H (ok d)); [| exact Hf].
  intros b [= <-]. split; reflexivity.
Qed.

Lemma background_consistent st ch now task d :
  consistent d ->
  consistent (fst (send_notifications_background st ch now task d)).
Proof.
  intros Hc v Hv.
  destruct (background_keeps_requests st ch now task d) as (Hq & Hr).
  cbv zeta in Hq, Hr. rewrite Hr in Hv. rewrite Hq. exact (Hc v Hv).
Qed.

End Invariant.

Section ParserExamples.

Import models llm_service.

(** A JSON [true] is a number for [float]: the confidence becomes 1. *)
Example confidence_of_true :
  confidence (_parse_llm_response (jtxt "{'classification':'spam','confidence':true}"))
  = Fin 1.
Proof. vm_compute. reflexivity. Qed.

(** A NaN passes [min(1.0, ...)] as 1.0. *)
Example confidence_of_nan :
  confidence (_parse_llm_response (jtxt "{'classification':'spam','confidence':NaN}"))
  = Fin 1.
Proof. vm_compute. reflexivity. Qed.

(** Text that reads as a number is taken as that number. *)
Example confidence_of_numeric_text :
  confidence (_parse_llm_response (jtxt "{'classification':'spam','confidence':' 0.25 '}"))
  = Fin (25 # 100).
Proof. vm_compute. reflexivity. Qed.

(** An integer too large for a float raises, and the default verdict
    answers. *)
Example confidence_of_huge_integer :
  let raw := jtxt "{'classification':'toxic','confidence':1" ++ repeat "0"%char 400
             ++ txt "}" in
  classification (_parse_llm_response raw) = SAFE
  /\ confidence (_parse_llm_response raw) = Fin (1 # 2).
Proof. vm_compute. split; reflexivity. Qed.

(** The scenario of the design: a structured answer inside prose. *)
Example parse_harassment :
  let v := _parse_llm_response
             (jtxt "Here is my analysis: {'classification':'harassment','confidence':0.92,'reasoning':'targeted abuse','flagged':true} Thanks.") in
  classification v = HARASSMENT /\ flagged v = PyBool true
  /\ reasoning v = PyStr (txt "targeted abuse").
Proof. vm_compute. repeat split. Qed.

(** Plain prose gives the default verdict. *)
Example parse_prose :
  let v := _parse_llm_response (txt "This text looks harmless to me.") in
  classification v = SAFE /\ confidence v = Fin (1 # 2)
  /\ flagged v = PyBool false.
Proof. vm_compute. repeat split. Qed.

End ParserExamples.


Section Fuel.

Import json.

Ltac break_match H :=
  repeat (cbv [bind ok JSONDecodeError raise] in H;
          match type of H with
          | context [match ?x with _ => _ end] =>
              lazymatch x with
              | context [match _ with _ => _ end] => fail
              | _ => destruct x eqn:?
              end
          end;
          try discriminate).

Lemma skip_length (s : str) : (List.length (skip s) <= List.length s)%nat.
Proof.
  induction s as [| c r IH]; cbn [skip List.length]; [lia |].
  destruct (whitespace c); cbn [List.length]; lia.
Qed.

Lemma span_digits_length (s ds r : str) :
  span_digits s = (ds, r) ->
  (List.length r <= List.length s)%nat
  /\ (ds <> [] -> List.length r < List.length s)%nat.
Proof.
  revert ds r. induction s as [| c s IH]; intros ds r H; cbn [span_digits] in H.
  - injection H as <- <-. split; [lia | congruence].
  - destruct (isdigit c).
    + destruct (span_digits s) as (ds' & r') eqn:Hs. injection H as <- <-.
      destruct (IH _ _ eq_refl). cbn [List.length]. split; lia.
    + injection H as <- <-. split; [lia | congruence].
Qed.

Lemma scanstring_shorter (n : nat) :
  forall s t rest, (List.length s <= n)%nat ->
    scanstring s = inr (t, rest) -> (List.length rest < List.length s)%nat.
Proof.
  induction n as [| n IH]; intros s t rest Hn H.
  - destruct s; [discriminate | cbn [List.length] in Hn; lia].
  - destruct s as [| c r]; [discriminate |].
    cbn [scanstring] in H. cbn [List.length] in *.
    break_match H; cbn [List.length] in *;
      repeat match goal with
             | E : scanstring ?x = inr (_, _) |- _ =>
                 apply IH in E; [| cbn [List.length]; lia]
             end;
      injection H as <- <-; cbn [List.length] in *; lia.
Qed.


Lemma scanstring_error (n : nat) :
  forall s e, (List.length s <= n)%nat ->
    scanstring s = inl e -> exn_class e = "JSONDecodeError"%string.
Proof.
  induction n as [| n IH]; intros s e Hn H.
  - destruct s; [| cbn [List.length] in Hn; lia].
    injection H as <-. reflexivity.
  - destruct s as [| c r]; [injection H as <-; reflexivity |].
    cbn [scanstring] in H. cbn [List.length] in *.
    break_match H; cbn [List.length] in *;
      try (injection H as <-; reflexivity);
      match goal with
      | E : scanstring ?x = inl _ |- _ =>
          apply IH in E; [| cbn [List.length]; lia]
      end;
      injection H as <-; assumption.
Qed.

Lemma split_sign_length (s r : str) (neg : bool) :
  split_sign s = (neg, r) -> (List.length r <= List.length s)%nat.
Proof.
  unfold split_sign. intro H. break_match H;
    injection H as <- <-; cbn [List.length]; lia.
Qed.

Lemma scan_exponent_shorter (s r : str) (e : Z) :
  scan_exponent s = Some (e, r) -> (List.length r < List.length s)%nat.
Proof.
  unfold scan_exponent. intro H. break_match H;
    match goal with
    | E : split_sign _ = _ |- _ => apply split_sign_length in E
    end;
    match goal with
    | E : span_digits _ = _ |- _ => apply span_digits_length in E
    end;
    injection H as <- <-; cbn [List.length] in *; lia.
Qed.

Lemma match_number_shorter (s rest : str) (v : pyval) :
  match_number s = Some (v, rest) -> (List.length rest < List.length s)%nat.
Proof.
  unfold match_number. intro H. break_match H;
    repeat match goal with
           | E : span_digits _ = _ |- _ => apply span_digits_length in E
           | E : scan_exponent _ = Some _ |- _ => apply scan_exponent_shorter in E
           | E : (_, _) = (_, _) |- _ => injection E as <- <-
           end;
    injection H as <- <-; cbn [List.length tl] in *; lia.
Qed.


(** Length facts about what has been read so far. *)
Ltac measure IHs IHm IHe :=
  repeat match goal with
         | E : skip ?x = _ |- _ =>
             let L := fresh "L" in
             pose proof (skip_length x) as L; rewrite E in L; clear E
         | E : scanstring ?x = inr (_, _) |- _ =>
             apply (scanstring_shorter (n := List.length x)) in E; [| lia]
         | E : match_number _ = Some (_, _) |- _ =>
             apply match_number_shorter in E
         | E : scan_once _ ?x = inr (_, _) |- _ =>
             apply IHs in E;
             [| pose proof (skip_length x); cbn [List.length] in *; lia]
         | E : members _ ?x = inr (_, _) |- _ =>
             apply IHm in E;
             [| pose proof (skip_length x); cbn [List.length] in *; lia]
         | E : elements _ ?x = inr (_, _) |- _ =>
             apply IHe in E;
             [| pose proof (skip_length x); cbn [List.length] in *; lia]
         | E : context [skip ?x] |- _ =>
             lazymatch goal with
             | _ : (List.length (skip x) <= List.length x)%nat |- _ => fail
             | _ => pose proof (skip_length x)
             end
         end;
  cbn [List.length] in *.

(** An error comes from the text, not from the fuel. *)
Ltac fails_as_json H Ss Sm Se IHs IHm IHe :=
  measure Ss Sm Se;
  first
    [ injection H as <-; reflexivity
    | injection H as <-;
      match goal with
      | E : scanstring ?x = inl _ |- _ =>
          exact (@scanstring_error (List.length x) x _ (le_n _) E)
      | E : scan_once _ ?x = inl _ |- _ =>
          refine (proj1 (IHs x _) _ E);
          pose proof (skip_length x); cbn [List.length] in *; lia
      | E : members _ ?x = inl _ |- _ =>
          refine (proj1 (IHm x _) _ E);
          pose proof (skip_length x); cbn [List.length] in *; lia
      | E : elements _ ?x = inl _ |- _ =>
          refine (proj1 (IHe x _) _ E);
          pose proof (skip_length x); cbn [List.length] in *; lia
      end ].

(** What is left after a value is shorter than what was there. *)
Ltac reads_shorter H Ss Sm Se :=
  first [ injection H as <- <- | injection H as -> ];
  measure Ss Sm Se;
  rewrite ?length_skipn;
  repeat match goal with
         | |- context [match ?l with _ => _ end] => destruct l
         end;
  cbn [List.length] in *; lia.

Lemma fuel_suffices (fuel : nat) :
  (forall s, (2 * List.length s + 1 <= fuel)%nat ->
     (forall e, scan_once fuel s = inl e ->
                exn_class e = "JSONDecodeError"%string)
     /\ (forall v rest, scan_once fuel s = inr (v, rest) ->
                        (List.length rest < List.length s)%nat))
  /\ (forall s, (2 * List.length s + 2 <= fuel)%nat ->
        (forall e, members fuel s = inl e ->
                   exn_class e = "JSONDecodeError"%string)
        /\ (forall ms rest, members fuel s = inr (ms, rest) ->
                            (List.length rest < List.length s)%nat))
  /\ (forall s, (2 * List.length s + 2 <= fuel)%nat ->
        (forall e, elements fuel s = inl e ->
                   exn_class e = "JSONDecodeError"%string)
        /\ (forall vs rest, elements fuel s = inr (vs, rest) ->
                            (List.length rest < List.length s)%nat)).
Proof.
  induction fuel as [| f (IHs & IHm & IHe)].
  - repeat split; intros; lia.
  - assert (Ss : forall x v rest, (2 * List.length x + 1 <= f)%nat ->
                scan_once f x = inr (v, rest) ->
                (List.length rest < List.length x)%nat)
      by (intros x v rest Hx; apply (IHs x Hx)).
    assert (Sm : forall x v rest, (2 * List.length x + 2 <= f)%nat ->
                members f x = inr (v, rest) ->
                (List.length rest < List.length x)%nat)
      by (intros x v rest Hx; apply (IHm x Hx)).
    assert (Se : forall x v rest, (2 * List.length x + 2 <= f)%nat ->
                elements f x = inr (v, rest) ->
                (List.length rest < List.length x)%nat)
      by (intros x v rest Hx; apply (IHe x Hx)).
    split; [| split]; intros s Hlen; split.
    + intros e H. cbn [scan_once] in H. break_match H;
        fails_as_json H Ss Sm Se IHs IHm IHe.
    + intros v rest H. cbn [scan_once] in H. break_match H;
        reads_shorter H Ss Sm Se.
    + intros e H. cbn [members] in H. break_match H;
        fails_as_json H Ss Sm Se IHs IHm IHe.
    + intros v rest H. cbn [members] in H. break_match H;
        reads_shorter H Ss Sm Se.
    + intros e H. cbn [elements] in H. break_match H;
        fails_as_json H Ss Sm Se IHs IHm IHe.
    + intros v rest H. cbn [elements] in H. break_match H;
        reads_shorter H Ss Sm Se.
Qed.


(** The decoder never runs out of fuel: whatever [loads] raises is a
    decoding error of the text. *)
Lemma loads_error (s : str) (e : exn) :
  loads s = inl e -> exn_class e = "JSONDecodeError"%string.
Proof.
  unfold loads. intro H.
  destruct (fuel_suffices (S (2 * List.length s))) as (Hs & _).
  pose proof (skip_length s) as L.
  destruct (Hs (skip s) ltac:(lia)) as (He & _).
  destruct (scan_once (S (2 * List.length s)) (skip s)) as [e0 | (v & rest)].
  - injection H as <-. apply He. reflexivity.
  - cbv [bind] in H. destruct (skip rest); [discriminate |].
    injection H as <-. reflexivity.
Qed.

(** A text that starts with a brace decodes to a dictionary. *)
Lemma loads_object (r : str) (v : pyval) :
  loads ("{"%char :: r) = inr v -> exists o, v = PyDict o.
Proof.
  unfold loads. cbn [skip whitespace]. 
  change (whitespace "{") with false. cbv beta iota.
  cbn [scan_once List.length Nat.mul Nat.add].
  change (chr "{" dquote) with false. change (chr "{" "{") with true.
  cbv beta iota. intro H.
  destruct (skip r) as [| c' r']; [discriminate |].
  destruct (chr c' "}").
  - cbv [bind ok] in H. destruct (skip r'); [| discriminate].
    injection H as <-. now eexists.
  - cbv [bind ok] in H.
    destruct (members _ _) as [e | (ms & rest)]; [discriminate |].
    destruct (skip rest); [| discriminate].
    injection H as <-. now eexists.
Qed.

End Fuel.

Section Digests.

Import SHA256.

Local Open Scope Z_scope.

Lemma round_length (st : list Z) (kw : Z * Z) :
  List.length st = 8%nat -> List.length (round st kw) = 8%nat.
Proof.
  do 9 (destruct st as [| ? st]; try discriminate). reflexivity.
Qed.

Lemma rounds_length (kws : list (Z * Z)) (st : list Z) :
  List.length st = 8%nat -> List.length (fold_left round kws st) = 8%nat.
Proof.
  revert st. induction kws as [| kw kws IH]; intros st H; cbn [fold_left].
  - exact H.
  - apply IH, round_length, H.
Qed.

Lemma compress_length (h block : list Z) :
  List.length h = 8%nat -> List.length (compress h block) = 8%nat.
Proof.
  intro H. unfold compress.
  rewrite length_map, length_combine, rounds_length, H by exact H.
  reflexivity.
Qed.

Lemma blocks_length (n : nat) (ws h : list Z) :
  List.length h = 8%nat -> List.length (blocks n ws h) = 8%nat.
Proof.
  revert ws h. induction n as [| n IH]; intros ws h H; cbn [blocks].
  - exact H.
  - apply IH, compress_length, H.
Qed.

Lemma digest_length (msg : list byte) : List.length (digest msg) = 8%nat.
Proof. unfold digest. apply blocks_length. vm_compute. reflexivity. Qed.

Lemma hexdigit_hex (d : Z) :
  0 <= d < 16 -> In (hexdigit d) (txt "0123456789abcdef").
Proof.
  intro H.
  assert (C : d = 0 \/ d = 1 \/ d = 2 \/ d = 3 \/ d = 4 \/ d = 5 \/ d = 6
              \/ d = 7 \/ d = 8 \/ d = 9 \/ d = 10 \/ d = 11 \/ d = 12
              \/ d = 13 \/ d = 14 \/ d = 15) by lia.
  repeat (destruct C as [-> | C]; [vm_compute; tauto |]).
  subst d. vm_compute. tauto.
Qed.

Lemma hexword_hex (x : Z) :
  List.length (hexword x) = 8%nat
  /\ Forall (fun c => In c (txt "0123456789abcdef")) (hexword x).
Proof.
  split; [reflexivity |]. unfold hexword. apply Forall_map, Forall_forall.
  intros i _. apply hexdigit_hex, Z.mod_pos_bound. lia.
Qed.

Lemma hexdigest_hex (msg : list byte) : hex_digest (hexdigest msg).
Proof.
  unfold hex_digest, hexdigest. pose proof (digest_length msg) as H.
  split.
  - destruct (digest msg) as [| a ds]; [discriminate |].
    do 8 (destruct ds as [| ? ds]; try discriminate). reflexivity.
  - apply Forall_concat, Forall_map, Forall_forall.
    intros x _. apply hexword_hex.
Qed.

End Digests.

Lemma hash_image_hex (image_data : str + list byte) (h : str) :
  hashing.hash_image image_data = inr h -> hex_digest h.
Proof.
  destruct image_data as [s | image_bytes]; unfold hashing.hash_image;
    cbv [bind ok].
  - destruct (if startswith _ s then _ else _) as [e | data]; [discriminate |].
    destruct (base64.b64decode data) as [e | image_bytes]; [discriminate |].
    intros [= <-]. apply hexdigest_hex.
  - intros [= <-]. apply hexdigest_hex.
Qed.

(** Property X1.  Every fingerprint the service computes is a SHA-256
    digest in hexadecimal, 64 characters out of 0-9 and a-f: the one of
    a text, the one of a URL, and the one of an image whenever
    [hash_image] returns. *)
Theorem fingerprints_are_digests :
  (forall text, hex_digest (hashing.hash_text text))
  /\ (forall url, hex_digest (hashing.hash_url url))
  /\ (forall image_data h,
        hashing.hash_image image_data = inr h -> hex_digest h).
Proof.
  split; [| split].
  - intro text. apply hexdigest_hex.
  - intro url. apply hexdigest_hex.
  - intros image_data h. apply hash_image_hex.
Qed.

Lemma fingerprints_are_digests_witness :
  hashing.hash_image (inl (txt "data:image/png;base64,aGVsbG8="))
  = inr (txt "2cf24dba5fb0a30e26e83b2ac5b9e29e1b161e5c1fa7425e73043362938b9824")
  /\ hex_digest
       (txt "2cf24dba5fb0a30e26e83b2ac5b9e29e1b161e5c1fa7425e73043362938b9824").
Proof.
  split; [vm_compute; reflexivity |].
  apply (proj2 (proj2 fingerprints_are_digests)
           (inl (txt "data:image/png;base64,aGVsbG8="))).
  vm_compute. reflexivity.
Defined.

Section ImageFingerprint.

Import image_service.

Lemma split_comma_after_comma (s header encoded : str) :
  split_comma s = inr (header, encoded) -> hashing.after_comma s = inr encoded.
Proof.
  revert header. induction s as [| c r IH]; intros header; cbn [split_comma hashing.after_comma].
  - discriminate.
  - destruct (chr c ","); [intros [= _ <-]; reflexivity |].
    destruct (split_comma r) as [e | (h & e)]; cbv [bind ok]; [discriminate |].
    intros [= _ <-]. exact (IH h eq_refl).
Qed.

(** The fingerprint of Base64 data the image service accepted. *)
Lemma hash_of_processed_base64 (env : Env) (data : str)
  (image_bytes : list byte) (mime_type : str) :
  process_image env None (Some data) = inr (image_bytes, mime_type) ->
  hashing.hash_image (inl data) = inr (SHA256.hexdigest image_bytes).
Proof.
  intro H. unfold process_image in H. cbn [truthy_opt] in H.
  destruct data as [| c data]; [discriminate |].
  revert H. generalize (c :: data). clear c data. intros data H.
  unfold _process_image_from_base64 in H. unfold hashing.hash_image.
  destruct (startswith (txt "data:image") data).
  - destruct (split_comma data) as [e | (header & encoded)] eqn:Hs;
      cbv [bind ok] in H; [discriminate |].
    rewrite (split_comma_after_comma _ Hs). cbv [bind ok].
    destruct (base64.b64decode encoded) as [e | bs]; [discriminate |].
    destruct (max_image_size <? _)%Z; [discriminate |].
    destruct (_validate_and_get_mime_type env bs) as [e | m]; [discriminate |].
    injection H as <- _. reflexivity.
  - cbv [bind ok] in H |- *.
    destruct (base64.b64decode data) as [e | bs]; [discriminate |].
    destruct (max_image_size <? _)%Z; [discriminate |].
    destruct (_validate_and_get_mime_type env bs) as [e | m]; [discriminate |].
    injection H as <- _. reflexivity.
Qed.

(** Property X2.  When the image service accepts a Base64 submission,
    [hash_image] does not fail on it, and the fingerprint is the SHA-256
    digest of the very bytes the service decoded and hands to the
    classifier: it is the fingerprint [hash_image] gives those bytes.
    The text of the encoding (a data-URI header, blanks) does not
    enter. *)
Theorem base64_fingerprint_is_digest_of_image (env : Env) (data : str)
  (image_bytes : list byte) (mime_type : str) :
  process_image env None (Some data) = inr (image_bytes, mime_type) ->
  hashing.hash_image (inl data) = inr (SHA256.hexdigest image_bytes)
  /\ hashing.hash_image (inl data) = hashing.hash_image (inr image_bytes).
Proof.
  intro H. pose proof (hash_of_processed_base64 _ _ H) as E.
  split; [exact E | rewrite E; reflexivity].
Qed.

Lemma base64_fingerprint_is_digest_of_image_witness :
  let env := {| requests_get := fun _ => raise "ConnectionError" "offline";
                image_format := fun _ => ok (txt "PNG") |} in
  let plain := txt "aGVsbG8=" in
  let framed := txt "data:image/png;base64,aGVs bG8=" in
  hashing.hash_image (inl plain) = hashing.hash_image (inl framed)
  /\ hashing.hash_image (inl framed)
     = inr (txt "2cf24dba5fb0a30e26e83b2ac5b9e29e1b161e5c1fa7425e73043362938b9824").
Proof.
  cbv zeta.
  match goal with
  | |- context [hashing.hash_image (inl ?p) = hashing.hash_image (inl ?f)] =>
      destruct (@base64_fingerprint_is_digest_of_image
                  {| requests_get := fun _ => raise "ConnectionError" "offline";
                     image_format := fun _ => ok (txt "PNG") |}
                  p [x68; x65; x6c; x6c; x6f] (txt "image/png") eq_refl)
        as (Hp & _);
      destruct (@base64_fingerprint_is_digest_of_image
                  {| requests_get := fun _ => raise "ConnectionError" "offline";
                     image_format := fun _ => ok (txt "PNG") |}
                  f [x68; x65; x6c; x6c; x6f] (txt "image/png") eq_refl)
        as (Hf & _)
  end.
  split.
  - rewrite Hp, Hf. reflexivity.
  - rewrite Hf. vm_compute. reflexivity.
Defined.

End ImageFingerprint.

Section Labels.

Import models llm_service.

Lemma map_get_label (k : str) (c : ClassificationType) :
  c <> SAFE -> (map_get classification_map k SAFE = c <-> k = value c).
Proof.
  intro Hc. unfold classification_map. cbn [map_get]. split.
  - repeat match goal with
           | |- context [str_eqb k ?l] =>
               let E := fresh "E" in
               destruct (str_eqb k l) eqn:E;
               [apply str_eqb_eq in E; intros <-; try contradiction; exact E |]
           end.
    intros <-. contradiction.
  - intros ->. destruct c; [contradiction | | | |]; vm_compute; reflexivity.
Qed.

(** Property X3.  A verdict other than safe comes about in one way
    only: the fragment of the response decodes to an object whose
    [classification] is a string that spells the class, in any letter
    case and with nothing around it, and whose [confidence] is absent or
    a value [float] accepts.  Every other response (a label outside the
    taxonomy, a label that is not a string, a confidence that does not
    convert) is answered with safe. *)
Theorem non_safe_verdict_is_spelled_out (raw : str) (c : ClassificationType) :
  c <> SAFE ->
  (classification (_parse_llm_response raw) = c
   <-> (exists s, upstream_value raw "classification" = Some (PyStr s)
                  /\ lower s = value c)
       /\ match upstream_value raw "confidence" with
          | Some v => exists f, py_float v = inr f
          | None => True
          end).
Proof.
  intro Hc.
  unfold _parse_llm_response, parse_body, upstream_value, decoded_fragment.
  destruct (re_search raw) as [js |].
  2:{ cbv [ok]. cbn [classification]. split; [congruence | intros ((s & H & _) & _); discriminate]. }
  destruct (json.loads js) as [e | parsed].
  { cbv [bind]. cbn [classification].
    split; [congruence | intros ((s & H & _) & _); discriminate]. }
  destruct parsed as [| b | z | f | s | l | o];
    try (cbv [call_get bind raise]; cbn [classification];
         split; [congruence | intros ((s' & H & _) & _); discriminate]).
  cbv [call_get bind ok]. unfold dict_get.
  destruct (dict_lookup (txt "classification") o) as [label |].
  - destruct label as [| b | z | f | s | l | o'];
      try (cbv [call_lower raise]; cbn [classification];
           split; [congruence | intros ((s' & H & _) & _); discriminate]).
    cbn [call_lower]. cbv [ok].
    destruct (dict_lookup (txt "confidence") o) as [v |].
    + destruct (py_float v) as [e | f] eqn:Hf; cbn [classification].
      * split; [congruence | intros (_ & (f' & H)); discriminate].
      * rewrite (map_get_label (lower s) Hc). split.
        -- intro H. split; [exists s; split; [reflexivity | exact H] | exists f; reflexivity].
        -- intros ((s' & [= <-] & H) & _). exact H.
    + cbn [py_float]. cbv [ok]. cbn [classification].
      rewrite (map_get_label (lower s) Hc). split.
      * intro H. split; [exists s; split; [reflexivity | exact H] | exact I].
      * intros ((s' & [= <-] & H) & _). exact H.
  - cbn [call_lower]. cbv [ok].
    assert (Hsafe : forall conf why flag,
               classification
                 {| classification := map_get classification_map (lower (txt "safe")) SAFE;
                    confidence := conf; reasoning := why; flagged := flag;
                    llm_response := raw |} = c
               <-> (exists s, None = Some (PyStr s) /\ lower s = value c)
                   /\ match dict_lookup (txt "confidence") o with
                      | Some v => exists f, py_float v = inr f
                      | None => True
                      end).
    { intros conf why flag. cbn [classification].
      replace (map_get classification_map (lower (txt "safe")) SAFE) with SAFE
        by reflexivity.
      split; [congruence | intros ((s & H & _) & _); discriminate]. }
    destruct (dict_lookup (txt "confidence") o) as [v |].
    + destruct (py_float v) as [e | f] eqn:Hf.
      * cbn [classification].
        split; [congruence | intros (_ & (f' & H)); discriminate].
      * apply Hsafe.
    + cbn [py_float]. cbv [ok]. apply Hsafe.
Qed.

Lemma non_safe_verdict_is_spelled_out_witness :
  classification
    (_parse_llm_response
       (jtxt "Verdict: {'classification':'ToXiC','confidence':'0.75'}"))
  = TOXIC
  /\ classification
       (_parse_llm_response
          (jtxt "Verdict: {'classification':'toxic ','confidence':0.75}"))
     <> TOXIC.
Proof.
  assert (Hc : TOXIC <> SAFE) by discriminate.
  split.
  - apply (proj2 (@non_safe_verdict_is_spelled_out
                    (jtxt "Verdict: {'classification':'ToXiC','confidence':'0.75'}")
                    TOXIC Hc)).
    split.
    + exists (txt "ToXiC"). split; vm_compute; reflexivity.
    + vm_compute. eexists. reflexivity.
  - intro H.
    apply (proj1 (@non_safe_verdict_is_spelled_out
                    (jtxt "Verdict: {'classification':'toxic ','confidence':0.75}")
                    TOXIC Hc)) in H.
    destruct H as ((s & Hs & Hl) & _). vm_compute in Hs.
    injection Hs as <-. vm_compute in Hl. discriminate.
Defined.

End Labels.

Section Fragment.

Import models llm_service.

Lemma find_from_skip (c : ascii) (pre s : str) :
  forallb (fun d => negb (chr d c)) pre = true ->
  find_from c (pre ++ s) = find_from c s.
Proof.
  induction pre as [| d pre IH]; cbn [forallb app find_from]; [reflexivity |].
  intro H. apply andb_prop in H. destruct H as (Hd & Hp).
  destruct (chr d c); [discriminate | exact (IH Hp)].
Qed.

Lemma find_from_head (c : ascii) (s : str) : find_from c (c :: s) = Some (c :: s).
Proof. cbn [find_from]. unfold chr. rewrite Ascii.eqb_refl. reflexivity. Qed.

Lemma upto_last_skip (c : ascii) (s post : str) :
  forallb (fun d => negb (chr d c)) post = true ->
  upto_last c (s ++ c :: post) = Some (s ++ [c]).
Proof.
  intro H. unfold upto_last.
  rewrite rev_app_distr. cbn [rev]. rewrite <- app_assoc. cbn [app].
  rewrite find_from_skip by (rewrite forallb_rev; exact H).
  rewrite find_from_head. cbn [option_map rev]. rewrite rev_involutive.
  reflexivity.
Qed.

Lemma re_search_fragment (pre body post : str) :
  forallb (fun d => negb (chr d "{")) pre = true ->
  forallb (fun d => negb (chr d "}")) post = true ->
  re_search (pre ++ ("{"%char :: body ++ ["}"%char]) ++ post)
  = Some ("{"%char :: body ++ ["}"%char]).
Proof.
  intros Hpre Hpost. unfold re_search.
  rewrite find_from_skip by exact Hpre.
  cbn [app]. rewrite find_from_head.
  rewrite <- app_assoc. cbn [app].
  exact (upto_last_skip "}" ("{"%char :: body) post Hpost).
Qed.

(** What the parser reads of a response is its fragment. *)
Lemma parse_reads_fragment (a b : str) :
  re_search a = re_search b ->
  let v := _parse_llm_response a in
  let w := _parse_llm_response b in
  classification v = classification w /\ confidence v = confidence w
  /\ reasoning v = reasoning w /\ flagged v = flagged w.
Proof.
  intro H. cbv zeta. unfold _parse_llm_response, parse_body. rewrite H.
  destruct (re_search b) as [js |]; [| repeat split].
  destruct (json.loads js) as [e | parsed]; [repeat split |].
  cbv [bind ok].
  destruct (call_get parsed _ _) as [e | c]; [repeat split |].
  destruct (call_lower c) as [e | k]; [repeat split |].
  destruct (call_get parsed _ _) as [e | x]; [repeat split |].
  destruct (py_float x) as [e | f]; [repeat split |].
  destruct (call_get parsed _ _) as [e | why]; [repeat split |].
  destruct (call_get parsed _ _) as [e | flag]; repeat split.
Qed.

(** Property X4.  The parser reads a response from its first opening
    brace to its last closing brace and nothing else: prose before the
    object that holds no opening brace, and prose after it that holds no
    closing brace, leave the class, the confidence, the reasoning and
    the flag of the verdict as they are for the object alone. *)
Theorem prose_around_fragment_is_ignored (pre body post : str) :
  forallb (fun d => negb (chr d "{")) pre = true ->
  forallb (fun d => negb (chr d "}")) post = true ->
  let fragment := "{"%char :: body ++ ["}"%char] in
  let v := _parse_llm_response (pre ++ fragment ++ post) in
  let w := _parse_llm_response fragment in
  re_search (pre ++ fragment ++ post) = Some fragment
  /\ classification v = classification w /\ confidence v = confidence w
  /\ reasoning v = reasoning w /\ flagged v = flagged w.
Proof.
  intros Hpre Hpost. cbv zeta.
  pose proof (re_search_fragment pre body post Hpre Hpost) as H.
  split; [exact H |].
  apply parse_reads_fragment. rewrite H.
  pose proof (re_search_fragment [] body [] eq_refl eq_refl) as H0.
  cbn [app] in H0. rewrite app_nil_r in H0. symmetry. exact H0.
Qed.

Lemma prose_around_fragment_is_ignored_witness :
  let body := jtxt "'classification':'spam','confidence':0.8,'flagged':true" in
  let v := _parse_llm_response
             (txt "Sure, here it is: " ++ ("{"%char :: body ++ ["}"%char])
              ++ txt " Anything else?") in
  classification v = SPAM /\ confidence v = Fin (8 # 10)
  /\ flagged v = PyBool true.
Proof.
  cbv zeta.
  destruct (@prose_around_fragment_is_ignored
              (txt "Sure, here it is: ")
              (jtxt "'classification':'spam','confidence':0.8,'flagged':true")
              (txt " Anything else?") eq_refl eq_refl)
    as (_ & Hc & Hf & _ & Hg).
  rewrite Hc, Hf, Hg. vm_compute. repeat split.
Defined.

End Fragment.

Section Alerts.

Import models db moderation.
Import notification_service.

Lemma firstn_short {A} (n : nat) (l : list A) :
  (n <? List.length (firstn n l))%nat = false.
Proof. apply Nat.ltb_ge, firstn_le_length. Qed.

(** Property X5.  The preview a Slack alert shows is never longer than
    203 characters.  For a text submission the handler has already cut
    the text to its first 200 characters, so the alert shows exactly
    those and the ellipsis that marks a cut never appears, however long
    the text was. *)
Theorem text_alert_preview_is_never_marked gen now (request : TextRequest)
  (d : Database) :
  (forall a, (List.length (preview (slack_message a)) <= 203)%nat)
  /\ (forall task,
        In task (background_tasks (moderate_text gen now request d)) ->
        notification_service.content_type task = txt "text"
        /\ content_preview task = firstn 200 (text request)
        /\ preview (slack_message task) = firstn 200 (text request)).
Proof.
  split.
  - intro a. unfold slack_message. cbn [preview].
    destruct (200 <? List.length (content_preview a))%nat eqn:E.
    + rewrite length_app. pose proof (firstn_le_length 200 (content_preview a)).
      cbn [List.length txt list_ascii_of_string]. lia.
    + apply Nat.ltb_ge in E. lia.
  - intros task. unfold moderate_text.
    destruct (cached_result d _ TEXT) as [(r & v) |]; cbn [background_tasks];
      [intros [] |].
    unfold classify. cbn [add_request].
    destruct (llm_service.moderate_text gen (text request)) as [e | res];
      cbn [background_tasks]; [intros [] |].
    destruct (truthy _); [| intros []].
    intros [<- | []]. unfold slack_message.
    cbn [preview content_preview notification_service.content_type].
    rewrite firstn_short. repeat split.
Qed.

Lemma text_alert_preview_is_never_marked_witness :
  let long := repeat "x"%char 300 in
  let request := {| moderation.email := txt "ann@example.com"; text := long |} in
  let upstream := fun _ : str =>
    ok (jtxt "{'classification':'spam','confidence':0.8,'flagged':true}") in
  map (fun task => preview (slack_message task))
      (background_tasks (moderate_text upstream 5 request db.empty))
  = [repeat "x"%char 200].
Proof.
  cbv zeta.
  match goal with
  | |- context [moderate_text ?g ?n ?q ?d] =>
      pose proof (proj2 (@text_alert_preview_is_never_marked g n q d)) as H;
      assert (Ht : exists task, background_tasks (moderate_text g n q d) = [task])
        by (eexists; vm_compute; reflexivity);
      destruct Ht as (task & Ht); rewrite Ht in H |- *;
      destruct (H task (or_introl eq_refl)) as (_ & _ & Hp)
  end.
  cbn [map]. rewrite Hp. vm_compute. reflexivity.
Defined.

(** Property X6.  With no channel configured (no Slack webhook, and no
    Brevo key or no sender address) the background task posts nothing
    and writes no log row, whatever the verdict: the store is left as it
    was. *)
Theorem unconfigured_channels_log_nothing (st : Settings) (ch : Channels)
  (now : Z) (task : BackgroundTask) (d : Database) :
  truthy_opt (slack_webhook_url st) = false ->
  truthy_opt (brevo_api_key st) && truthy_opt (brevo_sender_email st) = false ->
  send_notifications_background st ch now task d = (d, []).
Proof.
  intros Hs Hm.
  unfold send_notifications_background, background_body, send_notifications.
  rewrite Hs, Hm.
  destruct (ClassificationType_eqb _ SAFE); reflexivity.
Qed.

Lemma unconfigured_channels_log_nothing_witness :
  let st := {| slack_webhook_url := Some [];
               brevo_api_key := Some (txt "xkeysib-1");
               brevo_sender_email := None |} in
  let ch := {| post_slack := fun _ => ok (txt "ok");
               post_brevo := fun _ => ok (PyDict []) |} in
  let task := {| notification_service.request_id := 1;
                 notification_service.email := txt "ann@example.com";
                 notification_service.classification := TOXIC;
                 notification_service.content_type := txt "text";
                 content_preview := txt "you fool";
                 notification_service.confidence := Fin (9 # 10);
                 notification_service.reasoning := PyStr (txt "insult") |} in
  send_notifications_background st ch 3 task db.empty = (db.empty, []).
Proof.
  cbv zeta.
  apply unconfigured_channels_log_nothing; reflexivity.
Defined.

Lemma send_notifications_lengths (st : Settings) (ch : Channels) (a : Alert) :
  List.length (fst (send_notifications st ch a))
  = List.length (snd (send_notifications st ch a)).
Proof.
  unfold send_notifications.
  destruct (ClassificationType_eqb _ SAFE); [reflexivity |].
  destruct (truthy_opt (slack_webhook_url st));
    destruct (truthy_opt (brevo_api_key st) && truthy_opt (brevo_sender_email st));
    reflexivity.
Qed.

(** The rows the loop of the background task adds when the request
    exists. *)
Lemma log_rows_added (now rid : Z) (r : ModerationRequest)
  (items : list (str * list (str * pyval))) (d : Database) :
  request_by_id d rid = Some r ->
  exists rows,
    fold_left
      (fun acc (item : str * list (str * pyval)) =>
         d' <- acc ;;
         match request_by_id d' rid with
         | None =>
             raise "AttributeError"
               "'NoneType' object has no attribute 'created_at'"
         | Some r =>
             ok (add_log d' rid
                   (if str_eqb (fst item) (txt "slack") then SLACK else EMAIL)
                   (match get_str (snd item) "status" with
                    | Some s => if str_eqb s (txt "sent") then SENT
                                else NOTIFICATION_FAILED
                    | None => NOTIFICATION_FAILED
                    end)
                   (get_str (snd item) "error")
                   (Some (created_at r)) now)
         end) items (ok d)
    = ok {| moderation_requests := moderation_requests d;
            moderation_results := moderation_results d;
            notification_logs := notification_logs d ++ rows |}
    /\ List.length rows = List.length items
    /\ Forall (fun l => log_request_id l = rid
                        /\ sent_at l = Some (created_at r)
                        /\ log_created_at l = now
                        /\ log_status l <> NOTIFICATION_PENDING) rows.
Proof.
  revert d. induction items as [| item items IH]; intros d Hr.
  - exists []. cbn [fold_left]. rewrite app_nil_r. destruct d. repeat split.
    constructor.
  - cbn [fold_left]. cbv [bind ok] in *. rewrite Hr.
    match goal with
    | |- context [fold_left _ items (inr ?d1)] =>
        destruct (IH d1 Hr) as (rows & Hf & Hl & Hall)
    end.
    rewrite Hf. cbn [add_log moderation_requests moderation_results notification_logs].
    rewrite <- app_assoc. cbn [app].
    eexists. split; [reflexivity |]. split; [cbn [List.length]; congruence |].
    constructor; [| exact Hall].
    cbn [log_request_id sent_at log_created_at log_status].
    repeat split.
    destruct (get_str (snd item) "status") as [s |]; [| discriminate].
    destruct (str_eqb s (txt "sent")); discriminate.
Qed.

(** Property X7.  When the request of a notification task is in the
    store, the task adds one log row for every post it made and changes
    nothing else.  Every new row names the request, is stamped as
    created now, says sent or failed, and carries as its sending time
    the creation time of the request (not the time of the post), also
    when the post failed. *)
Theorem background_logs_one_row_per_post (st : Settings) (ch : Channels)
  (now : Z) (task : BackgroundTask) (d : Database) (r : ModerationRequest) :
  request_by_id d (notification_service.request_id task) = Some r ->
  let done := send_notifications_background st ch now task d in
  exists rows,
    fst done = {| moderation_requests := moderation_requests d;
                  moderation_results := moderation_results d;
                  notification_logs := notification_logs d ++ rows |}
    /\ List.length rows = List.length (snd done)
    /\ Forall (fun l => log_request_id l = notification_service.request_id task
                        /\ sent_at l = Some (created_at r)
                        /\ log_created_at l = now
                        /\ log_status l <> NOTIFICATION_PENDING) rows.
Proof.
  intro Hr. cbv zeta.
  unfold send_notifications_background, background_body.
  pose proof (send_notifications_lengths st ch task) as Hlen.
  destruct (send_notifications st ch task) as (items & posts).
  cbn [fst snd] in Hlen.
  destruct (@log_rows_added now _ _ items d Hr) as (rows & Hf & Hl & Hall).
  rewrite Hf. cbv [ok]. cbn [fst snd].
  exists rows. split; [reflexivity |]. split; [congruence | exact Hall].
Qed.

Lemma background_logs_one_row_per_post_witness :
  let st := {| slack_webhook_url := Some (txt "https://hooks.slack.example/T1");
               brevo_api_key := None;
               brevo_sender_email := None |} in
  let ch := {| post_slack := fun _ => raise "Timeout" "no answer";
               post_brevo := fun _ => ok (PyDict []) |} in
  let r := {| id := 1; models.email := txt "ann@example.com";
              models.content_type := TEXT; content_hash := txt "00";
              status := COMPLETED; created_at := 10 |} in
  let d := {| moderation_requests := [r]; moderation_results := [];
              notification_logs := [] |} in
  let task := {| notification_service.request_id := 1;
                 notification_service.email := txt "ann@example.com";
                 notification_service.classification := TOXIC;
                 notification_service.content_type := txt "text";
                 content_preview := txt "you fool";
                 notification_service.confidence := Fin (9 # 10);
                 notification_service.reasoning := PyStr (txt "insult") |} in
  let done := send_notifications_background st ch 25 task d in
  snd done = [SlackPost 1]
  /\ exists rows,
       fst done = {| moderation_requests := [r]; moderation_results := [];
                     notification_logs := rows |}
       /\ List.length rows = 1%nat
       /\ Forall (fun l => log_request_id l = 1%Z /\ sent_at l = Some 10%Z
                           /\ log_created_at l = 25%Z
                           /\ log_status l <> NOTIFICATION_PENDING) rows.
Proof.
  cbv zeta. split; [reflexivity |].
  match goal with
  | |- context [send_notifications_background ?st ?ch ?n ?task ?d] =>
      destruct (@background_logs_one_row_per_post st ch n task d _ eq_refl)
        as (rows & Hd & Hl & Hall)
  end.
  exists rows. split; [exact Hd |]. split; [exact Hl | exact Hall].
Defined.

Lemma fold_left_raised {A B} (f : result A -> B -> result A) (l : list B) (e : exn) :
  (forall b, f (inl e) b = inl e) -> fold_left f l (inl e) = inl e.
Proof.
  intro H. induction l as [| b l IH]; cbn [fold_left]; [reflexivity |].
  rewrite H. exact IH.
Qed.

(** Property X8.  When the request a notification task names is not in
    the store, the posts go out all the same and nothing is logged: the
    lookup of the creation time fails on the first row, the exception
    is swallowed, and the store stays as it was. *)
Theorem missing_request_is_not_logged (st : Settings) (ch : Channels)
  (now : Z) (task : BackgroundTask) (d : Database) :
  request_by_id d (notification_service.request_id task) = None ->
  send_notifications_background st ch now task d
  = (d, snd (send_notifications st ch task)).
Proof.
  intro Hr. unfold send_notifications_background, background_body.
  destruct (send_notifications st ch task) as (items & posts). cbn [snd].
  destruct items as [| item items]; [reflexivity |].
  cbn [fold_left]. cbv [bind ok]. rewrite Hr. unfold raise.
  rewrite fold_left_raised by reflexivity. reflexivity.
Qed.

Lemma missing_request_is_not_logged_witness :
  let st := {| slack_webhook_url := Some (txt "https://hooks.slack.example/T1");
               brevo_api_key := None;
               brevo_sender_email := None |} in
  let ch := {| post_slack := fun _ => ok (txt "ok");
               post_brevo := fun _ => ok (PyDict []) |} in
  let task := {| notification_service.request_id := 7;
                 notification_service.email := txt "ann@example.com";
                 notification_service.classification := SPAM;
                 notification_service.content_type := txt "text";
                 content_preview := txt "buy now";
                 notification_service.confidence := Fin (8 # 10);
                 notification_service.reasoning := PyStr (txt "advert") |} in
  send_notifications_background st ch 3 task db.empty
  = (db.empty, [SlackPost 7]).
Proof.
  cbv zeta.
  match goal with
  | |- send_notifications_background ?st ?ch ?n ?task ?d = _ =>
      rewrite (@missing_request_is_not_logged st ch n task d eq_refl)
  end.
  reflexivity.
Defined.

End Alerts.

Section ImageChecks.

Import models db moderation.
Import image_service.

Local Open Scope Z_scope.

(** Property X9.  An image the service accepts from a URL has passed
    every check: the response declared a content type that contains the
    name of a supported format (in any letter case; a response without
    the header is refused), the body is not larger than 10 MiB, the
    image library recognised a supported format in it, and the MIME
    type returned is the one of that recognised format, not the declared
    one.  The bytes returned are the body of the response. *)
Theorem accepted_url_image_passed_every_check (env : Env) (url : str)
  (image_bytes : list byte) (mime_type : str) :
  _process_image_from_url env url = inr (image_bytes, mime_type) ->
  exists response declared fmt,
    requests_get env url = inr response
    /\ image_bytes = content response
    /\ content_type_header response = Some declared
    /\ existsb (fun format => contains (lower format) (lower declared))
               supported_formats = true
    /\ Z.of_nat (List.length image_bytes) <= max_image_size
    /\ image_format env image_bytes = inr fmt
    /\ In fmt supported_formats
    /\ mime_type = mime_type_map fmt.
Proof.
  unfold _process_image_from_url.
  destruct (requests_get env url) as [e | response].
  { destruct (RequestException e); discriminate. }
  destruct (content_type_header response) as [declared |] eqn:Hh; [| discriminate].
  destruct (existsb _ supported_formats) eqn:Hd; cbn [negb]; [| discriminate].
  destruct (max_image_size <? _) eqn:Hs; [discriminate |].
  unfold _validate_and_get_mime_type. cbv [bind ok].
  destruct (image_format env (content response)) as [e | fmt] eqn:Hf;
    [discriminate |].
  destruct (existsb (str_eqb fmt) supported_formats) eqn:Hin; [| discriminate].
  intros [= <- <-]. exists response, declared, fmt.
  repeat split; try assumption; try reflexivity.
  - apply Z.ltb_ge. exact Hs.
  - apply existsb_exists in Hin. destruct Hin as (x & Hx & Heq).
    apply str_eqb_eq in Heq. subst x. exact Hx.
Qed.

Lemma accepted_url_image_passed_every_check_witness :
  let env := {| requests_get := fun _ =>
                  ok {| content_type_header := Some (txt "Image/PNG; q=1");
                        content := [x47; x49; x46] |};
                image_format := fun _ => ok (txt "GIF") |} in
  _process_image_from_url env (txt "https://example.com/a")
  = inr ([x47; x49; x46], txt "image/gif")
  /\ exists response declared fmt,
       requests_get env (txt "https://example.com/a") = inr response
       /\ [x47; x49; x46] = content response
       /\ content_type_header response = Some declared
       /\ existsb (fun format => contains (lower format) (lower declared))
                  supported_formats = true
       /\ Z.of_nat (List.length [x47; x49; x46]) <= max_image_size
       /\ image_format env [x47; x49; x46] = inr fmt
       /\ In fmt supported_formats
       /\ txt "image/gif" = mime_type_map fmt.
Proof.
  cbv zeta. split; [reflexivity |].
  apply (@accepted_url_image_passed_every_check _ (txt "https://example.com/a")).
  reflexivity.
Defined.

(** Property X10.  A submission that names neither a URL nor Base64
    data (an empty string counts as none) is answered with status 500,
    not 400: the error 400 the handler raises is caught by its own
    handler for all exceptions and wrapped.  Nothing is fetched, nothing
    is stored, nothing is scheduled. *)
Theorem image_without_source_is_answered_500 env gen now
  (request : ImageRequest) (d : Database) :
  truthy_opt (image_url request) = false ->
  truthy_opt (image_base64 request) = false ->
  moderate_image env gen now request d
  = {| store := d; background_tasks := []; calls := [];
       outcome :=
         inl {| status_code := 500;
                detail := txt "Failed to analyze image content: 400: Either image_url or image_base64 must be provided" |} |}.
Proof.
  intros Hu Hb. unfold moderate_image.
  destruct (image_url request) as [[| c u] |];
    destruct (image_base64 request) as [[| c' b] |];
    try discriminate; reflexivity.
Qed.

Lemma image_without_source_is_answered_500_witness :
  let env := {| requests_get := fun _ => raise "ConnectionError" "offline";
                image_format := fun _ => ok (txt "PNG") |} in
  let request := {| image_email := txt "ann@example.com";
                    image_url := Some []; image_base64 := None |} in
  let h := moderate_image env (fun _ _ => ok (txt "{}")) 4 request db.empty in
  store h = db.empty /\ calls h = []
  /\ exists err, outcome h = inl err /\ status_code err = 500.
Proof.
  cbv zeta.
  match goal with
  | |- context [moderate_image ?env ?gen ?n ?q ?d] =>
      rewrite (@image_without_source_is_answered_500 env gen n q d eq_refl eq_refl)
  end.
  cbn [store calls outcome]. split; [reflexivity |]. split; [reflexivity |].
  eexists. split; reflexivity.
Defined.

(** Property X11.  An image the image service rejects, or cannot
    fetch, leaves no trace: the handler answers with status 500 and the
    text of the error, creates no request row (unlike a failure of the
    classifier, which leaves a failed request), schedules nothing, and
    never calls the classifier. *)
Theorem rejected_image_leaves_no_trace env gen now (request : ImageRequest)
  (d : Database) (e : exn) :
  truthy_opt (image_url request) || truthy_opt (image_base64 request) = true ->
  process_image env (image_url request) (image_base64 request) = inl e ->
  let h := moderate_image env gen now request d in
  store h = d
  /\ background_tasks h = []
  /\ outcome h = inl {| status_code := 500;
                        detail := txt "Failed to analyze image content: "
                                  ++ exn_str e |}
  /\ forall c, In c (calls h) -> exists url, c = HttpGet url.
Proof.
  intros Ht Hp. cbv zeta. unfold moderate_image.
  destruct (image_url request) as [[| c u] |] eqn:Hu.
  - destruct (image_base64 request) as [[| c' b] |] eqn:Hb; try discriminate.
    unfold process_image in Hp |- *. cbn [truthy_opt] in Hp |- *.
    cbn [fst snd]. rewrite Hp. cbv [bind]. cbn [store background_tasks calls outcome].
    repeat split. intros c0 [].
  - unfold process_image in Hp |- *. cbn [truthy_opt] in Hp |- *.
    cbn [fst snd]. rewrite Hp. cbv [bind]. cbn [store background_tasks calls outcome].
    repeat split. intros c0 [<- | []]. eexists. reflexivity.
  - destruct (image_base64 request) as [[| c' b] |] eqn:Hb; try discriminate.
    unfold process_image in Hp |- *. cbn [truthy_opt] in Hp |- *.
    cbn [fst snd]. rewrite Hp. cbv [bind]. cbn [store background_tasks calls outcome].
    repeat split. intros c0 [].
Qed.

Lemma rejected_image_leaves_no_trace_witness :
  let env := {| requests_get := fun _ => raise "ConnectionError" "offline";
                image_format := fun _ => ok (txt "TIFF") |} in
  let request := {| image_email := txt "ann@example.com";
                    image_url := None;
                    image_base64 := Some (txt "data:image/tiff;base64,aGVsbG8=") |} in
  let h := moderate_image env (fun _ _ => ok (txt "{}")) 4 request db.empty in
  store h = db.empty
  /\ outcome h
     = inl {| status_code := 500;
              detail := txt "Failed to analyze image content: Failed to process base64 image: Invalid image format: Unsupported image format: TIFF" |}.
Proof.
  cbv zeta.
  match goal with
  | |- context [moderate_image ?env ?gen ?n ?q ?d] =>
      destruct (@rejected_image_leaves_no_trace env gen n q d
                  (Raise "ValueError"
                     (txt "Failed to process base64 image: Invalid image format: Unsupported image format: TIFF"))
                  eq_refl eq_refl)
        as (Hs & _ & Ho & _)
  end.
  split; [exact Hs | exact Ho].
Defined.

End ImageChecks.

Section Reachable.

Import models db moderation.

Local Open Scope Z_scope.

Lemma NoDup_snoc {A} (l : list A) (x : A) :
  NoDup l -> ~ In x l -> NoDup (l ++ [x]).
Proof.
  induction 1 as [| a l Ha Hl IH]; intro Hx; cbn [app].
  - constructor; [intros [] | constructor].
  - constructor.
    + intro H. apply in_app_or in H. destruct H as [H | [<- | []]].
      * exact (Ha H).
      * apply Hx. now left.
    + apply IH. intro H. apply Hx. now right.
Qed.

Lemma next_id_fresh (ids : list Z) : ~ In (next_id ids) ids.
Proof. intro H. pose proof (next_id_above ids _ H). lia. Qed.

(** No verdict of a consistent store names the key the next request
    receives. *)
Lemma fresh_id_has_no_result (d : Database) :
  consistent d ->
  ~ In (next_id (map id (moderation_requests d)))
       (map models.request_id (moderation_results d)).
Proof.
  intros Hc H. apply in_map_iff in H. destruct H as (v & Hv & Hin).
  destruct (Hc v Hin) as (r & Hr & Hid).
  pose proof (next_id_above _ _ (in_map id _ _ Hr)). lia.
Qed.

(** A verdict the upstream call produced carries a confidence between
    0 and 1. *)
Lemma upstream_text_verdict_bounded gen text res :
  llm_service.moderate_text gen text = inr res ->
  unit_interval (llm_service.confidence res).
Proof.
  unfold llm_service.moderate_text. destruct (gen text) as [e | raw];
    [discriminate |].
  intros [= <-]. apply parse_confidence_bounds.
Qed.

Lemma upstream_image_verdict_bounded gen image_bytes description res :
  llm_service.moderate_image gen image_bytes description = inr res ->
  unit_interval (llm_service.confidence res).
Proof.
  unfold llm_service.moderate_image.
  destruct (gen image_bytes description) as [e | raw]; [discriminate |].
  intros [= <-]. apply parse_confidence_bounds.
Qed.

(** A handler either leaves the store alone or goes through
    [classify], with a digest as fingerprint and, if the classifier
    answers, a confidence between 0 and 1. *)
Lemma moderate_text_cases gen now request d :
  let h := moderate_text gen now request d in
  (store h = d /\ background_tasks h = []
   /\ exists r v, outcome h = inr (cached_response r v))
  \/ exists e t hash kind preview call answer prefix before,
       hex_digest hash
       /\ (forall res, answer = inr res ->
                       unit_interval (llm_service.confidence res))
       /\ h = classify d now e t hash kind preview call answer prefix before.
Proof.
  cbv zeta. unfold moderate_text.
  destruct (cached_result d _ TEXT) as [(r & v) |].
  - left. cbn [store background_tasks outcome]. repeat split. now exists r, v.
  - right. do 9 eexists. split; [apply hexdigest_hex |].
    split; [| reflexivity].
    intros res. apply upstream_text_verdict_bounded.
Qed.

Lemma moderate_image_cases env gen now request d :
  let h := moderate_image env gen now request d in
  (store h = d /\ background_tasks h = []
   /\ ((exists r v, outcome h = inr (cached_response r v))
       \/ exists err, outcome h = inl err /\ status_code err = 500))
  \/ exists e t hash kind preview call answer prefix before,
       hex_digest hash
       /\ (forall res, answer = inr res ->
                       unit_interval (llm_service.confidence res))
       /\ h = classify d now e t hash kind preview call answer prefix before.
Proof.
  cbv zeta. unfold moderate_image.
  match goal with
  | |- context [snd ?p] => destruct (snd p) as [e | ((image_bytes & content_hash) & content_preview)] eqn:Hp
  end.
  - left. cbn [store background_tasks outcome]. repeat split.
    right. eexists. split; reflexivity.
  - destruct (cached_result d content_hash IMAGE) as [(r & v) |].
    + left. cbn [store background_tasks outcome]. repeat split.
      left. now exists r, v.
    + right. do 9 eexists. split; [| split; [| reflexivity]].
      * destruct (image_url request) as [[| c u] |];
          destruct (image_base64 request) as [[| c' b] |];
          cbn [snd] in Hp; try discriminate;
          repeat match type of Hp with
                 | context [image_service.process_image ?a ?b ?c] =>
                     destruct (image_service.process_image a b c)
                       as [e | (bs & mime)]; cbv [bind ok] in Hp;
                     [discriminate |]
                 end;
          try (injection Hp as _ <- _; apply hexdigest_hex);
          destruct (hashing.hash_image _) as [e | hh] eqn:Hh;
          try discriminate;
          injection Hp as _ <- _;
          exact (hash_image_hex _ Hh).
      * intros res. apply upstream_image_verdict_bounded.
Qed.

Lemma has_result_app (d : Database) (r : ModerationRequest)
  (results : list ModerationResult) (v : ModerationResult) :
  moderation_results d = results ++ [v] ->
  existsb (fun w => models.request_id w =? id r) (moderation_results d)
  = existsb (fun w => models.request_id w =? id r) results
    || (models.request_id v =? id r).
Proof.
  intros ->. rewrite existsb_app. cbn [existsb]. now rewrite orb_false_r.
Qed.

Lemma existsb_none {A} (f : A -> bool) (l : list A) :
  (forall a, In a l -> f a = false) -> existsb f l = false.
Proof.
  induction l as [| a l IH]; cbn [existsb]; intro H; [reflexivity |].
  rewrite (H a (or_introl eq_refl)). apply IH. intros b Hb. apply H. now right.
Qed.

Lemma fresh_request_has_no_result (d : Database) :
  consistent d ->
  existsb (fun w => models.request_id w =? next_id (map id (moderation_requests d)))
          (moderation_results d) = false.
Proof.
  intro Hc. apply existsb_none. intros v Hv. apply Z.eqb_neq. intro H.
  apply (fresh_id_has_no_result Hc). rewrite <- H. now apply in_map.
Qed.

(** [classify] keeps a sound store sound. *)
Lemma classify_sound d now e t hash kind preview call answer prefix before :
  sound d ->
  hex_digest hash ->
  (forall res, answer = inr res -> unit_interval (llm_service.confidence res)) ->
  sound (store (classify d now e t hash kind preview call answer prefix before)).
Proof.
  intros Hs Hh Hb. destruct Hs as [Hids Hrids Hone Hc Hst Hconf Hdig].
  destruct answer as [err | res].
  - destruct (classify_failed_store d now e t hash kind preview call err prefix before)
      as (Hq & Hr & _).
    cbv zeta in Hq, Hr.
    constructor; unfold has_result; try rewrite Hq; try rewrite Hr; try assumption.
    + rewrite map_app. apply NoDup_snoc; [exact Hids | apply next_id_fresh].
    + apply classify_consistent. exact Hc.
    + intros r Hin. apply in_app_or in Hin. destruct Hin as [Hin | [<- | []]].
      * apply Hst. exact Hin.
      * cbn [new_request id status].
        now rewrite (fresh_request_has_no_result Hc).
    + intros r Hin. apply in_app_or in Hin. destruct Hin as [Hin | [<- | []]].
      * apply Hdig. exact Hin.
      * exact Hh.
  - destruct (classify_ok_store d now e t hash kind preview call res prefix before)
      as (Hq & Hr & _).
    cbv zeta in Hq, Hr.
    constructor; unfold has_result; try rewrite Hq; try rewrite Hr.
    + rewrite map_app. apply NoDup_snoc; [exact Hids | apply next_id_fresh].
    + rewrite map_app. apply NoDup_snoc; [exact Hrids | apply next_id_fresh].
    + rewrite map_app. apply NoDup_snoc; [exact Hone |].
      apply (fresh_id_has_no_result Hc).
    + apply classify_consistent. exact Hc.
    + intros r Hin. rewrite existsb_app. cbn [existsb new_result models.request_id].
      rewrite orb_false_r.
      apply in_app_or in Hin. destruct Hin as [Hin | [<- | []]].
      * rewrite Z.eqb_sym, (fresh_request_id _ _ Hin), orb_false_r.
        apply Hst. exact Hin.
      * cbn [new_request id status]. rewrite Z.eqb_refl, orb_true_r. reflexivity.
    + intros v Hin. apply in_app_or in Hin. destruct Hin as [Hin | [<- | []]].
      * apply Hconf. exact Hin.
      * cbn [new_result models.confidence]. apply (Hb res eq_refl).
    + intros r Hin. apply in_app_or in Hin. destruct Hin as [Hin | [<- | []]].
      * apply Hdig. exact Hin.
      * exact Hh.
Qed.

(** Soundness looks at requests and verdicts only. *)
Lemma sound_same_rows (d d' : Database) :
  moderation_requests d' = moderation_requests d ->
  moderation_results d' = moderation_results d ->
  sound d -> sound d'.
Proof.
  intros Hq Hr [Hids Hrids Hone Hc Hst Hconf Hdig].
  constructor; unfold has_result, consistent in *; rewrite ?Hq, ?Hr; assumption.
Qed.

Lemma step_sound (d d' : Database) : step d d' -> sound d -> sound d'.
Proof.
  intros [gen now request | env gen now request | st ch now task] Hs.
  - destruct (moderate_text_cases gen now request d)
      as [(-> & _) | (e & t & hash & kind & preview & call & answer & prefix
                      & before & Hh & Hb & ->)];
      [exact Hs | now apply classify_sound].
  - destruct (moderate_image_cases env gen now request d)
      as [(-> & _) | (e & t & hash & kind & preview & call & answer & prefix
                      & before & Hh & Hb & ->)];
      [exact Hs | now apply classify_sound].
  - destruct (background_keeps_requests st ch now task d) as (Hq & Hr).
    exact (sound_same_rows _ Hq Hr Hs).
Qed.

Lemma evolves_sound (d d' : Database) : evolves d d' -> sound d -> sound d'.
Proof.
  induction 1 as [| d1 d2 _ IH Hstep]; intro Hs; [exact Hs |].
  exact (step_sound Hstep (IH Hs)).
Qed.

Lemma empty_sound : sound db.empty.
Proof.
  constructor; cbn [db.empty moderation_requests moderation_results map];
    try (intros ? []); try constructor.
Qed.

Lemma reachable_sound (d : Database) : reachable d -> sound d.
Proof. intro H. exact (evolves_sound H empty_sound). Qed.

(** What [classify] adds to the store. *)
Lemma classify_appends d now e t hash kind preview call answer prefix before :
  let s := store (classify d now e t hash kind preview call answer prefix before) in
  exists q nr,
    moderation_requests s = moderation_requests d ++ [q]
    /\ moderation_results s = moderation_results d ++ nr
    /\ notification_logs s = notification_logs d
    /\ id q = next_id (map id (moderation_requests d))
    /\ (List.length nr <= 1)%nat
    /\ forall v, In v nr -> models.request_id v = id q.
Proof.
  cbv zeta. destruct answer as [err | res].
  - destruct (classify_failed_store d now e t hash kind preview call err prefix before)
      as (Hq & Hr & Hl).
    cbv zeta in Hq, Hr, Hl. eexists. exists [].
    rewrite Hq, Hr, Hl, app_nil_r. repeat split; auto. intros v [].
  - destruct (classify_ok_store d now e t hash kind preview call res prefix before)
      as (Hq & Hr & Hl).
    cbv zeta in Hq, Hr, Hl. eexists. eexists.
    rewrite Hq, Hr, Hl. repeat split; auto. intros v [<- | []]. reflexivity.
Qed.

Lemma background_log_rows st ch now task d :
  exists rows,
    fst (send_notifications_background st ch now task d)
    = {| moderation_requests := moderation_requests d;
         moderation_results := moderation_results d;
         notification_logs := notification_logs d ++ rows |}
    /\ forall l, In l rows ->
         exists r, In r (moderation_requests d)
                   /\ id r = log_request_id l
                   /\ sent_at l = Some (created_at r)
                   /\ log_status l <> NOTIFICATION_PENDING.
Proof.
  destruct (request_by_id d (notification_service.request_id task)) as [r |] eqn:Hr.
  - unfold send_notifications_background, background_body.
    destruct (notification_service.send_notifications st ch task) as (items & posts).
    destruct (@log_rows_added now _ _ items d Hr) as (rows & Hf & _ & Hall).
    rewrite Hf. cbv [ok]. cbn [fst]. exists rows. split; [reflexivity |].
    intros l Hl. rewrite Forall_forall in Hall.
    destruct (Hall l Hl) as (Hid & Hsent & _ & Hst).
    apply find_some in Hr. destruct Hr as (Hin & Heq). apply Z.eqb_eq in Heq.
    exists r. repeat split; try assumption. congruence.
  - exists []. split; [| intros l []]. rewrite app_nil_r.
    unfold send_notifications_background, background_body.
    destruct (notification_service.send_notifications st ch task) as (items & posts).
    destruct items as [| item items]; [destruct d; reflexivity |].
    cbn [fold_left]. cbv [bind ok]. rewrite Hr. unfold raise.
    rewrite fold_left_raised by reflexivity. destruct d; reflexivity.
Qed.

(** Every event appends: at most one request with a fresh key, at most
    one verdict and only for that request, and log rows for requests
    already there. *)
Lemma step_appends (d d' : Database) :
  step d d' ->
  exists nq nr nl,
    moderation_requests d' = moderation_requests d ++ nq
    /\ moderation_results d' = moderation_results d ++ nr
    /\ notification_logs d' = notification_logs d ++ nl
    /\ (List.length nr <= List.length nq <= 1)%nat
    /\ (forall q, In q nq -> id q = next_id (map id (moderation_requests d)))
    /\ (forall v, In v nr -> exists q, In q nq /\ models.request_id v = id q)
    /\ (forall l, In l nl ->
          exists r, In r (moderation_requests d)
                    /\ id r = log_request_id l
                    /\ sent_at l = Some (created_at r)
                    /\ log_status l <> NOTIFICATION_PENDING).
Proof.
  assert (Hsame : exists nq nr nl,
             moderation_requests d = moderation_requests d ++ nq
             /\ moderation_results d = moderation_results d ++ nr
             /\ notification_logs d = notification_logs d ++ nl
             /\ (List.length nr <= List.length nq <= 1)%nat
             /\ (forall q, In q nq -> id q = next_id (map id (moderation_requests d)))
             /\ (forall v, In v nr -> exists q, In q nq /\ models.request_id v = id q)
             /\ (forall l, In l nl ->
                   exists r, In r (moderation_requests d)
                             /\ id r = log_request_id l
                             /\ sent_at l = Some (created_at r)
                             /\ log_status l <> NOTIFICATION_PENDING)).
  { exists [], [], []. rewrite !app_nil_r. cbn [List.length].
    repeat split; auto; intros ? []. }
  assert (Hcls : forall now e t hash kind preview call answer prefix before,
             exists nq nr nl,
               moderation_requests
                 (store (classify d now e t hash kind preview call answer prefix before))
               = moderation_requests d ++ nq
               /\ moderation_results
                    (store (classify d now e t hash kind preview call answer prefix before))
                  = moderation_results d ++ nr
               /\ notification_logs
                    (store (classify d now e t hash kind preview call answer prefix before))
                  = notification_logs d ++ nl
               /\ (List.length nr <= List.length nq <= 1)%nat
               /\ (forall q, In q nq -> id q = next_id (map id (moderation_requests d)))
               /\ (forall v, In v nr -> exists q, In q nq /\ models.request_id v = id q)
               /\ (forall l, In l nl ->
                     exists r, In r (moderation_requests d)
                               /\ id r = log_request_id l
                               /\ sent_at l = Some (created_at r)
                               /\ log_status l <> NOTIFICATION_PENDING)).
  { intros. destruct (classify_appends d now e t hash kind preview call answer prefix before)
      as (q & nr & Hq & Hr & Hl & Hid & Hn & Hv).
    cbv zeta in Hq, Hr, Hl. exists [q], nr, [].
    rewrite Hq, Hr, Hl, app_nil_r. cbn [List.length].
    repeat split; auto; try lia.
    - intros q' [<- | []]. exact Hid.
    - intros v Hin. exists q. split; [now left | now apply Hv].
    - intros l []. }
  intros [gen now request | env gen now request | st ch now task].
  - destruct (moderate_text_cases gen now request d)
      as [(-> & _) | (e & t & hash & kind & preview & call & answer & prefix
                      & before & _ & _ & ->)];
      [exact Hsame | apply Hcls].
  - destruct (moderate_image_cases env gen now request d)
      as [(-> & _) | (e & t & hash & kind & preview & call & answer & prefix
                      & before & _ & _ & ->)];
      [exact Hsame | apply Hcls].
  - destruct (background_log_rows st ch now task d) as (rows & -> & Hrows).
    cbn [moderation_requests moderation_results notification_logs].
    exists [], [], rows. rewrite !app_nil_r. cbn [List.length].
    repeat split; auto; intros ? [].
Qed.

(** Property X12.  No event changes or removes a row that is already
    stored: every later store holds the requests, the verdicts and the
    log rows of an earlier one as a prefix, in the same order and with
    the same contents.  In particular the status of a request is final
    once its handler has returned: a failed request is never retried or
    completed. *)
Theorem store_only_grows (d d' : Database) :
  evolves d d' ->
  exists nq nr nl,
    moderation_requests d' = moderation_requests d ++ nq
    /\ moderation_results d' = moderation_results d ++ nr
    /\ notification_logs d' = notification_logs d ++ nl.
Proof.
  induction 1 as [| d1 d2 _ IH Hstep].
  - exists [], [], []. now rewrite !app_nil_r.
  - destruct IH as (nq & nr & nl & Hq & Hr & Hl).
    destruct (step_appends Hstep) as (nq' & nr' & nl' & Hq' & Hr' & Hl' & _).
    exists (nq ++ nq'), (nr ++ nr'), (nl ++ nl').
    rewrite Hq', Hr', Hl', Hq, Hr, Hl, !app_assoc. repeat split.
Qed.

Lemma store_only_grows_witness :
  let request := {| email := txt "ann@example.com"; text := txt "Buy now!!" |} in
  let down := fun _ : str => raise "Timeout" "upstream not reachable" in
  let spam := fun _ : str =>
    ok (jtxt "{'classification':'spam','confidence':0.8,'flagged':true}") in
  let d := store (moderate_text down 1 request db.empty) in
  let d' := store (moderate_text spam 2 request d) in
  map status (moderation_requests d) = [FAILED]
  /\ map status (moderation_requests d') = [FAILED; COMPLETED]
  /\ exists nq nr nl,
       moderation_requests d' = moderation_requests d ++ nq
       /\ moderation_results d' = moderation_results d ++ nr
       /\ notification_logs d' = notification_logs d ++ nl.
Proof.
  cbv zeta. split; [vm_compute; reflexivity |].
  split; [vm_compute; reflexivity |].
  apply store_only_grows.
  eapply evolves_step; [apply evolves_refl | apply step_text].
Defined.

Lemma reachable_after_text gen now request d :
  reachable d -> reachable (store (moderate_text gen now request d)).
Proof. intro H. eapply evolves_step; [exact H | apply step_text]. Qed.

(** Property X13.  In every store the service reaches, the primary
    keys of requests and of verdicts are unique, no request has two
    verdicts, and every verdict belongs to a request of the store. *)
Theorem reachable_store_keeps_its_keys (d : Database) :
  reachable d ->
  NoDup (map id (moderation_requests d))
  /\ NoDup (map result_id (moderation_results d))
  /\ NoDup (map models.request_id (moderation_results d))
  /\ forall v, In v (moderation_results d) ->
       exists r, In r (moderation_requests d) /\ id r = models.request_id v.
Proof.
  intro H. destruct (reachable_sound H) as [Hids Hrids Hone Hc _ _ _].
  repeat split; assumption.
Qed.

Lemma reachable_store_keeps_its_keys_witness :
  let request := {| email := txt "ann@example.com"; text := txt "Buy now!!" |} in
  let other := {| email := txt "bob@example.com"; text := txt "hello" |} in
  let spam := fun _ : str =>
    ok (jtxt "{'classification':'spam','confidence':0.8,'flagged':true}") in
  let down := fun _ : str => raise "Timeout" "upstream not reachable" in
  let d := store (moderate_text spam 2 other
                    (store (moderate_text down 1 request db.empty))) in
  map id (moderation_requests d) = [1; 2]
  /\ map models.request_id (moderation_results d) = [2]
  /\ NoDup (map id (moderation_requests d))
  /\ NoDup (map models.request_id (moderation_results d)).
Proof.
  cbv zeta. split; [vm_compute; reflexivity |]. split; [vm_compute; reflexivity |].
  match goal with
  | |- NoDup (map id (moderation_requests ?d)) /\ _ =>
      destruct (@reachable_store_keeps_its_keys d) as (H1 & _ & H3 & _)
  end.
  - apply reachable_after_text, reachable_after_text, evolves_refl.
  - split; assumption.
Defined.




(** Property X15.  In every store the service reaches, every stored
    confidence lies between 0 and 1 and every stored fingerprint is a
    SHA-256 digest of 64 hexadecimal characters, the width of its
    column. *)
Theorem stored_values_are_well_formed (d : Database) :
  reachable d ->
  (forall v, In v (moderation_results d) -> unit_interval (models.confidence v))
  /\ (forall r, In r (moderation_requests d) -> hex_digest (content_hash r)).
Proof.
  intro H. destruct (reachable_sound H) as [_ _ _ _ _ Hconf Hdig].
  split; assumption.
Qed.

Lemma stored_values_are_well_formed_witness :
  let request := {| email := txt "ann@example.com"; text := txt "Buy now!!" |} in
  let eager := fun _ : str =>
    ok (jtxt "{'classification':'spam','confidence':17,'flagged':true}") in
  let d := store (moderate_text eager 2 request db.empty) in
  map models.confidence (moderation_results d) = [Fin 1]
  /\ Forall (fun v => unit_interval (models.confidence v)) (moderation_results d).
Proof.
  cbv zeta. split; [vm_compute; reflexivity |].
  apply Forall_forall.
  match goal with
  | |- forall v, In v (moderation_results ?d) -> _ =>
      apply (proj1 (@stored_values_are_well_formed d
                      (reachable_after_text _ _ _ (evolves_refl _))))
  end.
Defined.

Lemma step_logs_sound (d d' : Database) :
  step d d' -> logs_sound d -> logs_sound d'.
Proof.
  intros Hstep Hs l Hl.
  destruct (step_appends Hstep) as (nq & nr & nl & Hq & _ & Hlogs & _ & _ & _ & Hnew).
  rewrite Hlogs in Hl. rewrite Hq. apply in_app_or in Hl.
  destruct Hl as [Hl | Hl].
  - destruct (Hs l Hl) as ((r & Hr & Hid & Hsent) & Hst).
    split; [| exact Hst]. exists r. split; [apply in_or_app; now left | auto].
  - destruct (Hnew l Hl) as (r & Hr & Hid & Hsent & Hst).
    split; [| exact Hst]. exists r. split; [apply in_or_app; now left | auto].
Qed.

(** Property X16.  In every store the service reaches, every row of
    the notification log belongs to a request of the store, says sent
    or failed (never pending), and carries as its sending time the
    creation time of that request. *)
Theorem reachable_logs_are_attached (d : Database) (l : NotificationLog) :
  reachable d ->
  In l (notification_logs d) ->
  (exists r, In r (moderation_requests d)
             /\ id r = log_request_id l
             /\ sent_at l = Some (created_at r))
  /\ (log_status l = SENT \/ log_status l = NOTIFICATION_FAILED).
Proof.
  intros H Hl.
  assert (Hs : logs_sound d).
  { clear l Hl. induction H as [| d1 d2 _ IH Hstep]; [intros l [] |].
    exact (step_logs_sound Hstep IH). }
  destruct (Hs l Hl) as (Hr & Hst). split; [exact Hr |].
  destruct (log_status l); [contradiction | now left | now right].
Qed.

Lemma reachable_logs_are_attached_witness :
  let st := {| notification_service.slack_webhook_url :=
                 Some (txt "https://hooks.slack.example/T1");
               notification_service.brevo_api_key := None;
               notification_service.brevo_sender_email := None |} in
  let ch := {| notification_service.post_slack := fun _ => ok (txt "ok");
               notification_service.post_brevo := fun _ => ok (PyDict []) |} in
  let request := {| email := txt "ann@example.com"; text := txt "Buy now!!" |} in
  let spam := fun _ : str =>
    ok (jtxt "{'classification':'spam','confidence':0.8,'flagged':true}") in
  let h := moderate_text spam 2 request db.empty in
  let d := fst (send_notifications_background st ch 9
                  (hd (notification_service.Build_Alert 0 [] SAFE [] [] NaN PyNone)
                      (background_tasks h))
                  (store h)) in
  exists l, notification_logs d = [l]
            /\ log_status l = SENT /\ sent_at l = Some 2.
Proof.
  cbv zeta.
  match goal with
  | |- exists l, notification_logs ?d = _ /\ _ =>
      assert (Hl : exists l, notification_logs d = [l] /\ log_status l = SENT
                             /\ map created_at (moderation_requests d) = [2])
        by (eexists; split; [vm_compute; reflexivity |]; split; vm_compute; reflexivity);
      destruct Hl as (l & Hl & Hs & Hq);
      destruct (@reachable_logs_are_attached d l) as ((r & Hr & _ & Hsent) & _)
  end.
  - eapply evolves_step; [apply reachable_after_text, evolves_refl | apply step_background].
  - rewrite Hl. now left.
  - exists l. split; [exact Hl |]. split; [exact Hs |].
    rewrite Hsent. f_equal.
    destruct (moderation_requests _) as [| q [| q' qs]]; try discriminate.
    destruct Hr as [<- | []]. injection Hq as Hq. exact Hq.
Defined.

Lemma find_none {A} (f : A -> bool) (l : list A) :
  (forall a, In a l -> f a = false) -> find f l = None.
Proof.
  induction l as [| a l IH]; cbn [find]; intro H; [reflexivity |].
  rewrite (H a (or_introl eq_refl)). apply IH. intros b Hb. apply H. now right.
Qed.

(** Property X17.  What a text submission that was classified stores
    can be read back under the key the response names: the request is
    there, completed, with the e-mail address, the fingerprint of the
    text and the time of the submission; its latest verdict carries the
    class, the confidence and the reasoning of the response, and the
    answer of the classifier word for word. *)
Theorem stored_verdict_reads_back gen now (request : TextRequest)
  (d : Database) resp :
  consistent d ->
  cached_result d (hashing.hash_text (text request)) TEXT = None ->
  let h := moderate_text gen now request d in
  outcome h = inr resp ->
  exists r v raw,
    gen (text request) = inr raw
    /\ request_by_id (store h) (request_id resp) = Some r
    /\ latest_result (store h) (request_id resp) = Some v
    /\ status r = COMPLETED
    /\ models.email r = email request
    /\ content_hash r = hashing.hash_text (text request)
    /\ created_at r = now
    /\ (models.classification v, models.confidence v, models.reasoning v)
       = verdict_of resp
    /\ models.llm_response v = raw.
Proof.
  intros Hc Hmiss h Ho. subst h.
  rewrite (moderate_text_miss gen now request d Hmiss) in *.
  destruct (classify_outcome_ok _ _ _ _ _ _ _ _ _ _ _ Ho) as (res & Ha & ->).
  rewrite Ha.
  unfold llm_service.moderate_text in Ha.
  destruct (gen (text request)) as [e | raw]; [discriminate |].
  injection Ha as <-.
  destruct (classify_ok_store d now (email request) TEXT
              (hashing.hash_text (text request)) (txt "text")
              (firstn 200 (text request)) (GenerateText (text request))
              (llm_service._parse_llm_response raw)
              "Failed to analyze text content: "%string [])
    as (Hq & Hr & _).
  cbv zeta in Hq, Hr. cbn [request_id].
  eexists. eexists. exists raw. split; [reflexivity |].
  split; [| split].
  - unfold request_by_id. rewrite Hq.
    rewrite find_app_none
      by (apply find_none; intros q Hin; apply fresh_request_id, Hin).
    cbn [find new_request id]. rewrite Z.eqb_refl. reflexivity.
  - unfold latest_result. rewrite Hr, filter_app, (no_result_for_fresh_id Hc).
    cbn [filter new_result models.request_id app]. rewrite Z.eqb_refl.
    reflexivity.
  - cbn [new_request new_result status models.email content_hash created_at
         models.classification models.confidence models.reasoning
         models.llm_response].
    repeat split. apply parse_keeps_raw.
Qed.

Lemma stored_verdict_reads_back_witness :
  let request := {| email := txt "ann@example.com"; text := txt "Buy  NOW!!" |} in
  let raw := jtxt "Here: {'classification':'spam','confidence':0.8,'flagged':true}" in
  let h := moderate_text (fun _ => ok raw) 2 request db.empty in
  exists r v,
    request_by_id (store h) 1 = Some r
    /\ latest_result (store h) 1 = Some v
    /\ models.llm_response v = raw
    /\ models.classification v = SPAM.
Proof.
  cbv zeta.
  match goal with
  | |- context [moderate_text ?g ?n ?q ?d] =>
      assert (Ho : exists resp, outcome (moderate_text g n q d) = inr resp
                                /\ request_id resp = 1
                                /\ classification resp = SPAM)
        by (eexists; split; [vm_compute; reflexivity | split; reflexivity]);
      destruct Ho as (resp & Ho & Hid & Hcls);
      destruct (@stored_verdict_reads_back g n q d resp
                  (fun v (H : In v []) => match H with end) eq_refl Ho)
        as (r & v & raw & Hg & Hr & Hv & _ & _ & _ & _ & Hverdict & Hraw)
  end.
  rewrite Hid in Hr, Hv. exists r, v. split; [exact Hr |]. split; [exact Hv |].
  injection Hg as <-. split; [exact Hraw |].
  unfold verdict_of in Hverdict. injection Hverdict as Hc _ _.
  rewrite Hc. exact Hcls.
Defined.











End Reachable.

Section Analytics.

Import models db.
Import analytics.

Local Open Scope Z_scope.

Lemma count_nonneg {A} (p : A -> bool) (l : list A) : 0 <= count p l.
Proof. unfold count. lia. Qed.

Lemma count_cons {A} (p : A -> bool) (a : A) (l : list A) :
  count p (a :: l) = (if p a then 1 else 0) + count p l.
Proof.
  unfold count. cbn [filter]. destruct (p a); cbn [List.length]; lia.
Qed.

Lemma kinds_partition (l : list ModerationRequest) :
  count (fun req => ContentType_eqb (content_type req) TEXT) l
  + count (fun req => ContentType_eqb (content_type req) IMAGE) l
  = Z.of_nat (List.length l).
Proof.
  induction l as [| q l IH]; [reflexivity |].
  rewrite !count_cons. cbn [List.length].
  destruct (content_type q); cbn [ContentType_eqb]; lia.
Qed.

Lemma classes_partition (l : list ModerationResult) :
  count (fun r => ClassificationType_eqb (models.classification r) SAFE) l
  + count (fun r => ClassificationType_eqb (models.classification r) TOXIC) l
  + count (fun r => ClassificationType_eqb (models.classification r) SPAM) l
  + count (fun r => ClassificationType_eqb (models.classification r) HARASSMENT) l
  + count (fun r => ClassificationType_eqb (models.classification r) INAPPROPRIATE) l
  = Z.of_nat (List.length l).
Proof.
  induction l as [| v l IH]; [reflexivity |].
  rewrite !count_cons. cbn [List.length].
  destruct (models.classification v); cbn [ClassificationType_eqb]; lia.
Qed.

(** Property X21.  In the summary of a user the counts add up: the
    total is the number of requests stored under that address, text and
    image requests together make the total, and the five counts by class
    together make the number of verdicts stored for those requests.  A
    user without requests receives zeros. *)
Theorem summary_counts_add_up (user : str) (d : Database) :
  let s := data (get_user_analytics_summary user d) in
  total_requests s = Z.of_nat (List.length (requests_of d user))
  /\ text_requests s + image_requests s = total_requests s
  /\ safe_content s + toxic_content s + spam_content s + harassment_content s
     + inappropriate_content s
     = Z.of_nat (List.length (results_of d (map id (requests_of d user)))).
Proof.
  cbv zeta. unfold get_user_analytics_summary.
  destruct (requests_of d user) as [| first others] eqn:E.
  - cbn [data total_requests text_requests image_requests safe_content
         toxic_content spam_content harassment_content inappropriate_content].
    repeat split. unfold results_of. cbn [map existsb].
    rewrite filter_none; [reflexivity | reflexivity].
  - cbn [data figures total_requests text_requests image_requests safe_content
         toxic_content spam_content harassment_content inappropriate_content].
    split; [reflexivity |]. split; [apply kinds_partition | apply classes_partition].
Qed.

Lemma filter_map_length {A B} (f : A -> B) (p : B -> bool) (l : list A) :
  List.length (filter (fun a => p (f a)) l) = List.length (filter p (map f l)).
Proof.
  induction l as [| a l IH]; [reflexivity |].
  cbn [filter map]. destruct (p (f a)); cbn [List.length]; now rewrite IH.
Qed.

Lemma NoDup_map_filter {A B} (key : A -> B) (keep : A -> bool) (rows : list A)
  (Hrows : NoDup (map key rows)) :
  NoDup (map key (filter keep rows)).
Proof.
  induction rows as [| a rows IH]; cbn [map filter] in *; [constructor |].
  inversion Hrows as [| ? ? Ha Hl]; subst.
  destruct (keep a); [| now apply IH].
  cbn [map]. constructor; [| now apply IH].
  intro Hin. apply Ha. apply in_map_iff in Hin.
  destruct Hin as (b & Hb & Hin). apply filter_In in Hin.
  rewrite <- Hb. apply in_map. exact (proj1 Hin).
Qed.

Lemma filter_or_absent (x : Z) (g : Z -> bool) (I : list Z) :
  ~ In x I -> filter (fun i => (x =? i) || g i) I = filter g I.
Proof.
  intro H. apply filter_ext_in. intros i Hi.
  replace (x =? i) with false; [reflexivity |].
  symmetry. apply Z.eqb_neq. intros ->. exact (H Hi).
Qed.

Lemma filter_or_present (x : Z) (g : Z -> bool) (I : list Z) :
  NoDup I -> In x I -> g x = false ->
  List.length (filter (fun i => (x =? i) || g i) I)
  = S (List.length (filter g I)).
Proof.
  intros Hn Hin Hg. induction Hn as [| i I Hi Hn IH]; [destruct Hin |].
  cbn [filter]. destruct (Z.eq_dec x i) as [<- | Hne].
  - rewrite Z.eqb_refl, Hg. cbn [orb List.length].
    now rewrite (@filter_or_absent x g I Hi).
  - destruct Hin as [-> | Hin]; [contradiction |].
    replace (x =? i) with false by (symmetry; now apply Z.eqb_neq).
    cbn [orb]. destruct (g i); cbn [List.length]; now rewrite (IH Hin).
Qed.

(** Two duplicate-free lists have as many elements of the first in the
    second as of the second in the first. *)
Lemma common_elements (L I : list Z) :
  NoDup L -> NoDup I ->
  List.length (filter (fun x => existsb (Z.eqb x) I) L)
  = List.length (filter (fun i => existsb (fun z => z =? i) L) I).
Proof.
  intros HL HI. induction HL as [| x L Hx HL IH].
  - cbn [filter existsb List.length].
    rewrite filter_none; [reflexivity | reflexivity].
  - cbn [filter existsb].
    assert (Hg : existsb (fun z => z =? x) L = false).
    { apply existsb_none. intros z Hz. apply Z.eqb_neq. intros ->. exact (Hx Hz). }
    destruct (existsb (Z.eqb x) I) eqn:E.
    + apply existsb_exists in E. destruct E as (i & Hi & Heq).
      apply Z.eqb_eq in Heq. subst i.
      cbn [List.length]. rewrite IH.
      symmetry. exact (@filter_or_present x (fun i => existsb (fun z => z =? i) L) I HI Hi Hg).
    + rewrite IH. f_equal. symmetry. apply filter_or_absent.
      intro Hi.
      assert (existsb (Z.eqb x) I = true)
        by (apply existsb_exists; exists x; split; [exact Hi | apply Z.eqb_refl]).
      congruence.
Qed.

Lemma filter_split_length {A} (p : A -> bool) (l : list A) :
  (List.length (filter p l) + List.length (filter (fun a => negb (p a)) l)
   = List.length l)%nat.
Proof.
  induction l as [| a l IH]; [reflexivity |].
  cbn [filter]. destruct (p a); cbn [negb List.length]; lia.
Qed.

(** In a sound store the verdicts of a user are as many as the
    requests of the user that have a verdict. *)
Lemma verdicts_of_user (d : Database) (user : str) :
  sound d ->
  List.length (results_of d (map id (requests_of d user)))
  = List.length (filter (has_result d) (requests_of d user)).
Proof.
  intros [Hids _ Hone _ _ _ _]. unfold results_of, has_result.
  rewrite (filter_map_length models.request_id
             (fun x => existsb (Z.eqb x) (map id (requests_of d user)))).
  rewrite (filter_map_length id
             (fun i => existsb (fun v => models.request_id v =? i)
                               (moderation_results d))).
  rewrite common_elements;
    [| exact Hone | unfold requests_of; now apply NoDup_map_filter].
  f_equal. apply filter_ext. intro i.
  generalize (moderation_results d). intro l.
  induction l as [| v l IH]; [reflexivity |].
  cbn [map existsb]. rewrite IH. reflexivity.
Qed.

(** What [flagged_content] counts in a sound store. *)
Lemma flagged_of_sound_store (user : str) (d : Database) :
  sound d ->
  let s := data (get_user_analytics_summary user d) in
  flagged_content s
  = toxic_content s + spam_content s + harassment_content s
    + inappropriate_content s
    + count (fun q => match status q with FAILED => true | _ => false end)
            (requests_of d user)
  /\ 0 <= flagged_content s <= total_requests s.
Proof.
  intro Hs.
  pose proof (@verdicts_of_user d user Hs) as Hv.
  pose proof (filter_split_length (has_result d) (requests_of d user)) as Hsplit.
  assert (Hfailed : count (fun q => match status q with FAILED => true | _ => false end)
                          (requests_of d user)
                    = Z.of_nat (List.length (filter (fun q => negb (has_result d q))
                                                    (requests_of d user)))).
  { unfold count. do 2 f_equal. apply filter_ext_in. intros q Hq.
    unfold requests_of in Hq. apply filter_In in Hq.
    rewrite (status_settled Hs q (proj1 Hq)).
    destruct (has_result d q); reflexivity. }
  cbv zeta. rewrite Hfailed. clear Hfailed.
  unfold get_user_analytics_summary.
  destruct (requests_of d user) as [| first others] eqn:E.
  - cbn [data total_requests flagged_content toxic_content spam_content
         harassment_content inappropriate_content filter List.length].
    lia.
  - cbn [data figures total_requests flagged_content toxic_content spam_content
         harassment_content inappropriate_content].
    pose proof (classes_partition (results_of d (map id (first :: others)))) as Hc.
    pose proof (count_nonneg
                  (fun r => ClassificationType_eqb (models.classification r) SAFE)
                  (results_of d (map id (first :: others)))).
    pose proof (count_nonneg
                  (fun r => ClassificationType_eqb (models.classification r) TOXIC)
                  (results_of d (map id (first :: others)))).
    pose proof (count_nonneg
                  (fun r => ClassificationType_eqb (models.classification r) SPAM)
                  (results_of d (map id (first :: others)))).
    pose proof (count_nonneg
                  (fun r => ClassificationType_eqb (models.classification r) HARASSMENT)
                  (results_of d (map id (first :: others)))).
    pose proof (count_nonneg
                  (fun r => ClassificationType_eqb (models.classification r) INAPPROPRIATE)
                  (results_of d (map id (first :: others)))).
    rewrite Hv in Hc. lia.
Qed.



Lemma latest_spec (best : ModerationRequest) (l : list ModerationRequest) :
  In (latest best l) (best :: l)
  /\ forall q, In q (best :: l) -> created_at q <= created_at (latest best l).
Proof.
  revert best. induction l as [| x l IH]; intro best; cbn [latest].
  - split; [now left |]. intros q [<- | []]. lia.
  - destruct (created_at best <? created_at x) eqn:E.
    + destruct (IH x) as (Hin & Hmax). split; [now right |].
      apply Z.ltb_lt in E.
      intros q [<- | Hq]; [| now apply Hmax].
      specialize (Hmax x (or_introl eq_refl)). lia.
    + destruct (IH best) as (Hin & Hmax). split.
      * destruct Hin as [Hin | Hin]; [now left | right; now right].
      * apply Z.ltb_ge in E.
        intros q [<- | [<- | Hq]].
        -- apply Hmax. now left.
        -- specialize (Hmax best (or_introl eq_refl)). lia.
        -- apply Hmax. now right.
Qed.

(** Property X23.  The date of the last request in a summary is the
    creation time of a request of that user, and no request of the user
    was created later.  It is absent exactly when the user has no
    request in the store. *)
Theorem last_request_date_is_the_latest (user : str) (d : Database) :
  let s := data (get_user_analytics_summary user d) in
  match last_request_date s with
  | Some t =>
      (exists q, In q (moderation_requests d) /\ models.email q = user
                 /\ created_at q = t)
      /\ forall q, In q (moderation_requests d) -> models.email q = user ->
                   created_at q <= t
  | None =>
      forall q, In q (moderation_requests d) -> models.email q <> user
  end.
Proof.
  cbv zeta. unfold get_user_analytics_summary.
  assert (Hin : forall q, In q (requests_of d user)
                          <-> In q (moderation_requests d) /\ models.email q = user).
  { intro q. unfold requests_of. rewrite filter_In. split.
    - intros (H & E). split; [exact H | now apply str_eqb_eq].
    - intros (H & <-). split; [exact H | apply str_eqb_refl]. }
  destruct (requests_of d user) as [| first others].
  - cbn [data last_request_date]. intros q Hq He.
    exact (proj2 (Hin q) (conj Hq He)).
  - cbn [data figures last_request_date].
    destruct (latest_spec first others) as (Hl & Hmax). split.
    + exists (latest first others). apply Hin in Hl. tauto.
    + intros q Hq He. apply Hmax. apply Hin. now split.
Qed.

Lemma sum_of_from (f : UserAnalyticsSummary -> Z)
  (l : list (str * UserAnalyticsSummary)) (a : Z) :
  fold_left (fun acc entry => acc + f (snd entry)) l a
  = a + fold_right Z.add 0 (map (fun entry => f (snd entry)) l).
Proof.
  revert a. induction l as [| x l IH]; intro a; cbn [fold_left map fold_right];
    [lia |].
  rewrite IH. lia.
Qed.

Lemma filter_filter_sub {A} (p q : A -> bool) (l : list A) :
  (forall a, p a = true -> q a = true) ->
  filter p (filter q l) = filter p l.
Proof.
  intro H. induction l as [| a l IH]; [reflexivity |].
  cbn [filter]. destruct (q a) eqn:Eq.
  - cbn [filter]. now rewrite IH.
  - rewrite IH. destruct (p a) eqn:Ep; [| reflexivity].
    rewrite (H a Ep) in Eq. discriminate.
Qed.

(** The requests of a table, counted address by address over a list of
    distinct addresses that covers them, are all the requests. *)
Lemma counts_by_address (keys : list str) (l : list ModerationRequest) :
  NoDup keys ->
  (forall q, In q l -> In (models.email q) keys) ->
  fold_right Z.add 0
    (map (fun k => Z.of_nat (List.length
                               (filter (fun q => str_eqb (models.email q) k) l)))
         keys)
  = Z.of_nat (List.length l).
Proof.
  intro Hn. revert l. induction Hn as [| k ks Hk Hn IH]; intros l Hl.
  - destruct l as [| q l]; [reflexivity |]. destruct (Hl q (or_introl eq_refl)).
  - cbn [map fold_right].
    pose proof (filter_split_length (fun q => str_eqb (models.email q) k) l) as Hs.
    assert (Hrest : fold_right Z.add 0
                      (map (fun k' => Z.of_nat (List.length
                              (filter (fun q => str_eqb (models.email q) k') l)))
                           ks)
                    = Z.of_nat (List.length
                                  (filter (fun q => negb (str_eqb (models.email q) k)) l))).
    { rewrite <- (IH (filter (fun q => negb (str_eqb (models.email q) k)) l)).
      - f_equal. apply map_ext_in. intros k' Hk'.
        do 2 f_equal. symmetry. apply filter_filter_sub.
        intros q Hq. apply str_eqb_eq in Hq.
        destruct (str_eqb (models.email q) k) eqn:E; [| reflexivity].
        apply str_eqb_eq in E. exfalso. apply Hk. congruence.
      - intros q Hq. apply filter_In in Hq. destruct Hq as (Hq & Hne).
        destruct (Hl q Hq) as [Heq | Hin]; [| exact Hin].
        rewrite <- Heq, str_eqb_refl in Hne. discriminate. }
    rewrite Hrest. lia.
Qed.

Lemma all_analytics_entries (d : Database) :
  all_analytics d
  = map (fun e => (e, data (get_user_analytics_summary e d))) (user_emails d).
Proof.
  unfold all_analytics.
  assert (H : forall e, In e (user_emails d) -> requests_of d e <> []).
  { intros e He. unfold user_emails in He. apply nodup_In in He.
    apply in_map_iff in He. destruct He as (q & <- & Hq).
    intro Hnil.
    assert (Hin : In q (requests_of d (models.email q)))
      by (apply filter_In; split; [exact Hq | apply str_eqb_refl]).
    rewrite Hnil in Hin. destruct Hin. }
  induction (user_emails d) as [| e es IH]; [reflexivity |].
  cbn [flat_map map]. rewrite IH by (intros x Hx; apply H; now right).
  assert (He : match requests_of d e with
               | [] => []
               | first :: others => [(e, figures d e first others)]
               end = [(e, data (get_user_analytics_summary e d))]).
  { unfold get_user_analytics_summary. specialize (H e (or_introl eq_refl)).
    destruct (requests_of d e) as [| first others]; [contradiction | reflexivity]. }
  rewrite He. reflexivity.
Qed.

(** The requests of all entries together are the rows of the table. *)
Lemma overall_requests_count (d : Database) :
  sum_of total_requests (all_analytics d)
  = Z.of_nat (List.length (moderation_requests d)).
Proof.
  rewrite all_analytics_entries.
  unfold sum_of. rewrite sum_of_from, map_map. cbn [snd].
  rewrite Z.add_0_l.
  rewrite <- (@counts_by_address (user_emails d) (moderation_requests d)).
  - f_equal. apply map_ext. intro e.
    unfold get_user_analytics_summary, requests_of.
    destruct (filter _ (moderation_requests d)); reflexivity.
  - apply NoDup_nodup.
  - intros q Hq. apply nodup_In. now apply in_map.
Qed.

(** Property X24.  The summary of all users has one entry for every
    distinct address of the requests table, and each entry holds the
    figures the summary of that single user reports.  The overall number
    of users is the number of distinct addresses, and the overall number
    of requests is the number of rows of the requests table. *)
Theorem all_users_summary_covers_the_table (d : Database) :
  let summary := get_all_users_analytics_summary d in
  snd summary
  = map (fun e => (e, data (get_user_analytics_summary e d))) (user_emails d)
  /\ NoDup (map fst (snd summary))
  /\ total_users (fst summary) = Z.of_nat (List.length (user_emails d))
  /\ total_requests_all (fst summary)
     = Z.of_nat (List.length (moderation_requests d)).
Proof.
  cbv zeta. unfold get_all_users_analytics_summary.
  cbn [fst snd total_users total_requests_all].
  rewrite overall_requests_count.
  rewrite all_analytics_entries. split; [reflexivity |].
  split; [| split].
  - rewrite map_map. cbn [fst]. rewrite map_id. apply NoDup_nodup.
  - now rewrite length_map.
  - reflexivity.
Qed.

Lemma round_half_even_bounds (x : Q) (a b : Z) :
  (inject_Z a <= x)%Q -> (x <= inject_Z b)%Q ->
  a <= round_half_even x <= b.
Proof.
  unfold Qle, round_half_even. cbn [inject_Z Qnum Qden].
  set (N := Qnum x). set (D := Z.pos (Qden x)).
  assert (HD : 0 < D) by (subst D; lia).
  intros Ha Hb.
  pose proof (Z.div_mod N D ltac:(lia)) as Hdm.
  pose proof (Z.mod_pos_bound N D HD) as Hr.
  assert (Hf : a <= N / D <= b) by (split; nia).
  destruct (2 * (N mod D) ?= D) eqn:C.
  - apply Z.compare_eq in C. destruct (Z.even (N / D)); [exact Hf |]. nia.
  - exact Hf.
  - apply Z.compare_gt_iff in C. nia.
Qed.

Lemma round_unit_interval (f : pyfloat) (ndigits : nat) :
  unit_interval f -> unit_interval (py_round f ndigits).
Proof.
  destruct f as [q | | |]; cbn [unit_interval py_round]; try tauto.
  intros (H0 & H1).
  set (p := 10 ^ Z.of_nat ndigits).
  assert (Hp : 0 < p) by (subst p; apply Z.pow_pos_nonneg; lia).
  assert (Hq : (0 < inject_Z p)%Q) by (unfold Qlt; cbn; lia).
  destruct (@round_half_even_bounds (q * inject_Z p) 0 p) as (Hlo & Hhi).
  - apply Qmult_le_0_compat; [exact H0 | now apply Qlt_le_weak].
  - rewrite <- (Qmult_1_l (inject_Z p)) at 2.
    apply Qmult_le_compat_r; [exact H1 | now apply Qlt_le_weak].
  - split.
    + apply Qle_shift_div_l; [exact Hq |]. rewrite Qmult_0_l.
      change 0%Q with (inject_Z 0). rewrite <- Zle_Qle. exact Hlo.
    + apply Qle_shift_div_r; [exact Hq |]. rewrite Qmult_1_l.
      rewrite <- Zle_Qle. exact Hhi.
Qed.

Lemma float_of_small (q : Q) (k : Z) :
  (0 <= q)%Q -> (q <= inject_Z k)%Q -> k < float_overflow ->
  float_of_Q q = Fin q.
Proof.
  intros H0 Hk Hlt. unfold float_of_Q.
  assert (Hpos : 0 < float_overflow) by reflexivity.
  destruct (Qle_bool (inject_Z float_overflow) q) eqn:E1.
  - apply Qle_bool_iff in E1.
    pose proof (Qle_trans _ _ _ E1 Hk) as H. rewrite <- Zle_Qle in H. lia.
  - destruct (Qle_bool q (inject_Z (- float_overflow))) eqn:E2; [| reflexivity].
    apply Qle_bool_iff in E2.
    pose proof (Qle_trans _ _ _ H0 E2) as H.
    change 0%Q with (inject_Z 0) in H. rewrite <- Zle_Qle in H. lia.
Qed.

Lemma sum_of_confidences (l : list ModerationResult) (s : Q) (k : Z) :
  (forall v, In v l -> unit_interval (models.confidence v)) ->
  (0 <= s)%Q -> (s <= inject_Z k)%Q ->
  k + Z.of_nat (List.length l) < float_overflow ->
  exists s',
    fold_left (fun acc r => py_add acc (models.confidence r)) l (Fin s) = Fin s'
    /\ (0 <= s')%Q /\ (s' <= inject_Z (k + Z.of_nat (List.length l)))%Q.
Proof.
  revert s k. induction l as [| v l IH]; intros s k Hall H0 Hk Hlt.
  - exists s. cbn [fold_left List.length]. rewrite Z.add_0_r. auto.
  - cbn [fold_left].
    pose proof (Hall v (or_introl eq_refl)) as Hv.
    destruct (models.confidence v) as [c | | |]; cbn [unit_interval] in Hv;
      try contradiction.
    destruct Hv as (Hc0 & Hc1). cbn [py_add].
    assert (Hs0 : (0 <= s + c)%Q).
    { rewrite <- (Qplus_0_l 0). now apply Qplus_le_compat. }
    assert (Hs1 : (s + c <= inject_Z (k + 1))%Q).
    { rewrite inject_Z_plus. now apply Qplus_le_compat. }
    cbn [List.length] in Hlt. rewrite Nat2Z.inj_succ in Hlt.
    rewrite (@float_of_small (s + c) (k + 1) Hs0 Hs1) by lia.
    destruct (IH (s + c)%Q (k + 1)) as (s' & Hf & H0' & H1'); auto.
    + intros w Hw. apply Hall. now right.
    + lia.
    + exists s'. split; [exact Hf |]. split; [exact H0' |].
      cbn [List.length]. rewrite Nat2Z.inj_succ.
      replace (k + Z.succ (Z.of_nat (List.length l)))
        with (k + 1 + Z.of_nat (List.length l)) by lia.
      exact H1'.
Qed.

Lemma mean_unit_interval (l : list ModerationResult) :
  (forall v, In v l -> unit_interval (models.confidence v)) ->
  Z.of_nat (List.length l) < float_overflow ->
  unit_interval (mean_confidence l).
Proof.
  intros Hall Hlt. unfold mean_confidence.
  destruct l as [| v rest] eqn:E.
  - cbn [unit_interval]. split; [apply Qle_refl | discriminate].
  - rewrite <- E in *.
    destruct (@sum_of_confidences l 0%Q 0 Hall (Qle_refl 0) (Qle_refl 0))
      as (s & Hf & H0 & H1); [lia |].
    rewrite Hf. cbn [py_div unit_interval].
    assert (Hn : Z.pos (Pos.of_succ_nat (List.length rest))
                 = Z.of_nat (List.length l))
      by (rewrite E; cbn [List.length]; lia).
    rewrite Hn. rewrite Z.add_0_l in H1.
    assert (Hpos : (0 < inject_Z (Z.of_nat (List.length l)))%Q).
    { rewrite E. cbn [List.length]. unfold Qlt. cbn. lia. }
    split.
    + apply Qle_shift_div_l; [exact Hpos |]. now rewrite Qmult_0_l.
    + apply Qle_shift_div_r; [exact Hpos |]. now rewrite Qmult_1_l.
Qed.

(** Property X25.  In every store the service reaches, the average
    confidence a summary reports lies between 0 and 1, rounding to
    three decimals included; it is 0.0 for a user without verdicts.
    (The bound on the number of verdicts is where an exact sum of
    confidences would leave the range of floats.) *)
Theorem average_confidence_is_bounded (user : str) (d : Database) :
  reachable d ->
  Z.of_nat (List.length (moderation_results d)) < float_overflow ->
  unit_interval
    (average_confidence (data (get_user_analytics_summary user d))).
Proof.
  intros Hreach Hlt.
  destruct (reachable_sound Hreach) as [_ _ _ _ _ Hconf _].
  unfold get_user_analytics_summary.
  destruct (requests_of d user) as [| first others].
  - cbn [data average_confidence unit_interval].
    split; [apply Qle_refl | discriminate].
  - cbn [data figures average_confidence].
    apply round_unit_interval, mean_unit_interval.
    + intros v Hv. apply Hconf. unfold results_of in Hv.
      apply filter_In in Hv. exact (proj1 Hv).
    + unfold results_of.
      pose proof (filter_length_le
                    (fun r => existsb (Z.eqb (models.request_id r))
                                      (map id (first :: others)))
                    (moderation_results d)).
      lia.
Qed.

Lemma average_confidence_is_bounded_witness :
  let ann := txt "ann@example.com" in
  let one := {| moderation.email := ann; moderation.text := txt "Buy now!!" |} in
  let two := {| moderation.email := ann; moderation.text := txt "hello" |} in
  let spam := fun _ : str =>
    ok (jtxt "{'classification':'spam','confidence':0.75,'flagged':true}") in
  let safe := fun _ : str =>
    ok (jtxt "{'classification':'safe','confidence':0.25,'flagged':false}") in
  let d := moderation.store
             (moderation.moderate_text safe 2 two
                (moderation.store (moderation.moderate_text spam 1 one db.empty))) in
  let s := data (get_user_analytics_summary ann d) in
  match average_confidence s with
  | Fin q => (q == 1 # 2)%Q
  | _ => False
  end
  /\ unit_interval (average_confidence s).
Proof.
  cbv zeta. split; [vm_compute; reflexivity |].
  apply average_confidence_is_bounded.
  - apply reachable_after_text, reachable_after_text, evolves_refl.
  - vm_compute. reflexivity.
Defined.

End Analytics.

Section Further.

Import models db moderation.

Local Open Scope Z_scope.

(** Property X26.  The e-mail alert for a flagged text goes to the
    address of the user who submitted it: the task the handler schedules
    carries the address of the submission, and the payload built from a
    task names that address as its only recipient, with the configured
    sender and the class in capitals in the subject. *)
Theorem alert_is_mailed_to_the_submitter gen now (request : TextRequest)
  (d : Database) (st : notification_service.Settings) :
  forall task,
    In task (background_tasks (moderate_text gen now request d)) ->
    let payload := notification_service.email_payload st task in
    notification_service.to_email payload = email request
    /\ notification_service.sender_email payload
       = notification_service.brevo_sender_email st
    /\ notification_service.subject payload
       = txt "Content Moderation Alert - "
         ++ upper (value (notification_service.classification task))
         ++ txt " Content Detected"
    /\ exists resp,
         outcome (moderate_text gen now request d) = inr resp
         /\ notification_service.request_id task = request_id resp
         /\ notification_service.classification task = classification resp.
Proof.
  intros task. unfold moderate_text.
  destruct (cached_result d _ TEXT) as [(r & v) |]; cbn [background_tasks];
    [intros [] |].
  unfold classify. cbn [add_request].
  destruct (llm_service.moderate_text gen (text request)) as [e | res];
    cbn [background_tasks outcome]; [intros [] |].
  destruct (truthy _); [| intros []].
  intros [<- | []]. cbv zeta.
  unfold notification_service.email_payload.
  cbn [notification_service.to_email notification_service.sender_email
       notification_service.subject notification_service.email
       notification_service.classification notification_service.request_id].
  repeat split. eexists. split; [reflexivity |]. split; reflexivity.
Qed.

Lemma alert_is_mailed_to_the_submitter_witness :
  let request := {| email := txt "ann@example.com"; text := txt "you fool" |} in
  let upstream := fun _ : str =>
    ok (jtxt "{'classification':'toxic','confidence':0.9,'flagged':true}") in
  let st := {| notification_service.slack_webhook_url := None;
               notification_service.brevo_api_key := Some (txt "xkeysib-1");
               notification_service.brevo_sender_email :=
                 Some (txt "alerts@example.com") |} in
  map (fun task => notification_service.to_email
                     (notification_service.email_payload st task))
      (background_tasks (moderate_text upstream 5 request db.empty))
  = [txt "ann@example.com"].
Proof.
  cbv zeta.
  match goal with
  | |- map (fun task => notification_service.to_email
                          (notification_service.email_payload ?st task))
           (background_tasks (moderate_text ?g ?n ?q ?d)) = _ =>
      pose proof (@alert_is_mailed_to_the_submitter g n q d st) as H;
      assert (Ht : exists task, background_tasks (moderate_text g n q d) = [task])
        by (eexists; vm_compute; reflexivity);
      destruct Ht as (task & Ht); rewrite Ht in H |- *;
      destruct (H task (or_introl eq_refl)) as (Hto & _)
  end.
  cbn [map]. rewrite Hto. reflexivity.
Defined.

End Further.

Section FlagRate.

Import models db.
Import analytics.

Local Open Scope Z_scope.

Lemma overall_flagged_bounds (d : Database) :
  sound d ->
  0 <= sum_of flagged_content (all_analytics d)
  <= sum_of total_requests (all_analytics d).
Proof.
  intro Hs. rewrite all_analytics_entries. unfold sum_of.
  rewrite !sum_of_from, !map_map. cbn [snd]. rewrite !Z.add_0_l.
  induction (user_emails d) as [| e es IH]; cbn [map fold_right]; [lia |].
  destruct (flagged_of_sound_store e Hs) as (_ & Hb). cbv zeta in Hb. lia.
Qed.

Lemma round_within (q : Q) (a b : Z) (ndigits : nat) :
  (inject_Z a <= q)%Q -> (q <= inject_Z b)%Q ->
  exists q', py_round (Fin q) ndigits = Fin q'
             /\ (inject_Z a <= q')%Q /\ (q' <= inject_Z b)%Q.
Proof.
  intros Ha Hb. cbn [py_round]. eexists. split; [reflexivity |].
  set (p := 10 ^ Z.of_nat ndigits).
  assert (Hp : 0 < p) by (subst p; apply Z.pow_pos_nonneg; lia).
  assert (Hq : (0 < inject_Z p)%Q) by (unfold Qlt; cbn; lia).
  destruct (@round_half_even_bounds (q * inject_Z p) (a * p) (b * p))
    as (Hlo & Hhi).
  - rewrite inject_Z_mult.
    apply Qmult_le_compat_r; [exact Ha | now apply Qlt_le_weak].
  - rewrite inject_Z_mult.
    apply Qmult_le_compat_r; [exact Hb | now apply Qlt_le_weak].
  - split.
    + apply Qle_shift_div_l; [exact Hq |].
      rewrite <- inject_Z_mult, <- Zle_Qle. exact Hlo.
    + apply Qle_shift_div_r; [exact Hq |].
      rewrite <- inject_Z_mult, <- Zle_Qle. exact Hhi.
Qed.

(** Property X27.  In every store the service reaches, the overall
    flag rate is a percentage: the integer 0 when the requests table is
    empty, and otherwise a float between 0 and 100, rounding to two
    decimals included. *)
Theorem flag_rate_is_a_percentage (d : Database) :
  reachable d ->
  match flag_rate (fst (get_all_users_analytics_summary d)) with
  | PyInt z => z = 0 /\ moderation_requests d = []
  | PyFloat (Fin q) => moderation_requests d <> [] /\ (0 <= q)%Q /\ (q <= 100)%Q
  | _ => False
  end.
Proof.
  intro Hreach. pose proof (reachable_sound Hreach) as Hs.
  unfold get_all_users_analytics_summary. cbn [fst flag_rate].
  pose proof (overall_flagged_bounds Hs) as Hb.
  pose proof (overall_requests_count d) as Hn.
  set (requests := sum_of total_requests (all_analytics d)) in *.
  set (flagged := sum_of flagged_content (all_analytics d)) in *.
  destruct (0 <? requests) eqn:E.
  - apply Z.ltb_lt in E.
    assert (Hrate : (inject_Z 0 <= (flagged # 1) / (requests # 1) * 100)%Q
                    /\ ((flagged # 1) / (requests # 1) * 100 <= inject_Z 100)%Q).
    { assert (Hr : (0 < requests # 1)%Q) by (unfold Qlt; cbn; lia).
      assert (H0 : (0 <= (flagged # 1) / (requests # 1))%Q).
      { apply Qle_shift_div_l; [exact Hr |]. rewrite Qmult_0_l.
        unfold Qle. cbn. lia. }
      assert (H1 : ((flagged # 1) / (requests # 1) <= 1)%Q).
      { apply Qle_shift_div_r; [exact Hr |]. rewrite Qmult_1_l.
        unfold Qle. cbn. lia. }
      split.
      - change (inject_Z 0) with 0%Q.
        apply Qmult_le_0_compat; [exact H0 | discriminate].
      - change (inject_Z 100) with (100 : Q).
        rewrite <- (Qmult_1_l 100) at 2.
        apply Qmult_le_compat_r; [exact H1 | discriminate]. }
    destruct Hrate as (Hlo & Hhi).
    destruct (round_within 2 Hlo Hhi) as (q' & -> & Hlo' & Hhi').
    split; [| split; assumption].
    intro Hnil. rewrite Hnil in Hn. cbn [List.length] in Hn. lia.
  - apply Z.ltb_ge in E. split; [reflexivity |].
    destruct (moderation_requests d); [reflexivity |].
    cbn [List.length] in Hn. lia.
Qed.

Lemma flag_rate_is_a_percentage_witness :
  let ann := {| moderation.email := txt "ann@example.com";
                moderation.text := txt "Buy now!!" |} in
  let bob := {| moderation.email := txt "bob@example.com";
                moderation.text := txt "hello" |} in
  let cat := {| moderation.email := txt "cat@example.com";
                moderation.text := txt "good morning" |} in
  let spam := fun _ : str =>
    ok (jtxt "{'classification':'spam','confidence':0.75,'flagged':true}") in
  let safe := fun _ : str =>
    ok (jtxt "{'classification':'safe','confidence':0.25,'flagged':false}") in
  let d := moderation.store
             (moderation.moderate_text safe 3 cat
                (moderation.store
                   (moderation.moderate_text safe 2 bob
                      (moderation.store
                         (moderation.moderate_text spam 1 ann db.empty))))) in
  match flag_rate (fst (get_all_users_analytics_summary d)) with
  | PyFloat (Fin q) => (q == 3333 # 100)%Q /\ (0 <= q)%Q /\ (q <= 100)%Q
  | _ => False
  end.
Proof.
  cbv zeta.
  match goal with
  | |- match flag_rate (fst (get_all_users_analytics_summary ?d)) with _ => _ end =>
      pose proof (@flag_rate_is_a_percentage d
                    (reachable_after_text _ _ _
                       (reachable_after_text _ _ _
                          (reachable_after_text _ _ _ (evolves_refl _))))) as H;
      assert (Hq : exists q, flag_rate (fst (get_all_users_analytics_summary d))
                             = PyFloat (Fin q) /\ (q == 3333 # 100)%Q)
        by (eexists; split; [vm_compute; reflexivity | reflexivity]);
      destruct Hq as (q & Hq & Hv); rewrite Hq in H |- *
  end.
  split; [exact Hv | exact (proj2 H)].
Defined.

End FlagRate.

Section Base64Duplicates.

Import models db moderation.

Local Open Scope Z_scope.

(** A submission of Base64 data the image service accepts goes on to
    the duplicate check with the digest of the decoded bytes. *)
Lemma moderate_image_base64 env gen now (q : ImageRequest) (d : Database)
  (data : str) (image_bytes : list byte) (mime_type : str) :
  truthy_opt (image_url q) = false ->
  image_base64 q = Some data ->
  image_service.process_image env None (Some data) = inr (image_bytes, mime_type) ->
  moderate_image env gen now q d
  = match cached_result d (SHA256.hexdigest image_bytes) IMAGE with
    | Some (r, v) =>
        {| store := d; background_tasks := []; calls := [];
           outcome := inr (cached_response r v) |}
    | None =>
        classify d now (image_email q) IMAGE (SHA256.hexdigest image_bytes)
          (txt "image") (txt "Image from base64 data")
          (GenerateVision image_bytes (txt "Image from base64 data"))
          (llm_service.moderate_image gen image_bytes
             (txt "Image from base64 data"))
          "Failed to analyze image content: " []
    end.
Proof.
  intros Hu Hb Hp. pose proof (hash_of_processed_base64 _ _ Hp) as Hh.
  unfold moderate_image. rewrite Hb.
  destruct data as [| c b]; [discriminate Hp |].
  change (@Some str) with (@Some (list ascii)) in Hp.
  change (@inl str) with (@inl (list ascii)) in Hh.
  destruct (image_url q) as [[| c' u] |]; try discriminate;
    cbn [fst snd]; rewrite Hp; cbv [bind ok]; rewrite Hh;
    destruct (cached_result d _ IMAGE) as [(r & v) |]; reflexivity.
Qed.

(** Property X28.  Two Base64 submissions of the same image are
    duplicates whatever their spelling: when the image service decodes
    both to the same bytes, the store is consistent and held no image
    request of that fingerprint before the first, and the first was
    classified, the second is answered from the store with the verdict
    and the request identifier of the first; the classifier is not
    called, nothing is scheduled and the store stays as it was. *)
Theorem base64_duplicates_share_verdict env1 env2 gen1 gen2 now1 now2
  (q1 q2 : ImageRequest) (d : Database) (data1 data2 : str)
  (image_bytes : list byte) (mime1 mime2 : str) resp1 :
  consistent d ->
  truthy_opt (image_url q1) = false -> image_base64 q1 = Some data1 ->
  truthy_opt (image_url q2) = false -> image_base64 q2 = Some data2 ->
  image_service.process_image env1 None (Some data1) = inr (image_bytes, mime1) ->
  image_service.process_image env2 None (Some data2) = inr (image_bytes, mime2) ->
  first_request d (SHA256.hexdigest image_bytes) IMAGE = None ->
  let h1 := moderate_image env1 gen1 now1 q1 d in
  let h2 := moderate_image env2 gen2 now2 q2 (store h1) in
  outcome h1 = inr resp1 ->
  outcome h2
  = inr {| success := true;
           request_id := request_id resp1;
           classification := classification resp1;
           confidence := confidence resp1;
           reasoning := reasoning resp1;
           message := txt "Content analyzed successfully (cached result)" |}
  /\ calls h2 = []
  /\ background_tasks h2 = []
  /\ store h2 = store h1.
Proof.
  intros Hc Hu1 Hb1 Hu2 Hb2 Hp1 Hp2 Hn h1 h2 Ho. subst h1 h2.
  rewrite (moderate_image_base64 env1 gen1 now1 q1 d Hu1 Hb1 Hp1) in *.
  rewrite (first_request_none_cached _ _ _ Hn) in *.
  destruct (classify_outcome_ok _ _ _ _ _ _ _ _ _ _ _ Ho) as (res & Ha & ->).
  rewrite Ha in *.
  pose proof (@cached_after_classify d now1 (image_email q1) IMAGE
                (SHA256.hexdigest image_bytes) (txt "image")
                (txt "Image from base64 data")
                (GenerateVision image_bytes (txt "Image from base64 data")) res
                "Failed to analyze image content: "%string [] Hc Hn) as Hhit.
  cbv zeta in Hhit.
  rewrite (moderate_image_base64 env2 gen2 now2 q2 _ Hu2 Hb2 Hp2).
  rewrite Hhit. cbn [store background_tasks calls outcome]. repeat split.
Qed.

Lemma base64_duplicates_share_verdict_witness :
  let env := {| image_service.requests_get := fun _ => raise "ConnectionError" "offline";
                image_service.image_format := fun _ => ok (txt "PNG") |} in
  let first := {| image_email := txt "ann@example.com"; image_url := None;
                  image_base64 := Some (txt "aGVsbG8=") |} in
  let again := {| image_email := txt "bob@example.com"; image_url := Some [];
                  image_base64 := Some (txt "data:image/png;base64,aGVs bG8=") |} in
  let spam := fun (_ : list byte) (_ : str) =>
    ok (jtxt "{'classification':'spam','confidence':0.8,'flagged':true}") in
  let down := fun (_ : list byte) (_ : str) => raise "Timeout" "upstream not reachable" in
  let h1 := moderate_image env spam 1 first db.empty in
  let h2 := moderate_image env down 2 again (store h1) in
  (exists resp2, outcome h2 = inr resp2 /\ classification resp2 = SPAM
                 /\ request_id resp2 = 1)
  /\ calls h2 = [] /\ store h2 = store h1.
Proof.
  cbv zeta.
  match goal with
  | |- context [moderate_image ?e2 ?g2 ?n2 ?q2 (store (moderate_image ?e1 ?g1 ?n1 ?q1 ?d))] =>
      assert (Ho : exists r, outcome (moderate_image e1 g1 n1 q1 d) = inr r
                             /\ classification r = SPAM /\ request_id r = 1)
        by (eexists; split; [vm_compute; reflexivity | split; reflexivity]);
      destruct Ho as (resp1 & Ho & Hcls & Hid);
      destruct (@base64_duplicates_share_verdict e1 e2 g1 g2 n1 n2 q1 q2 d
                  (txt "aGVsbG8=") (txt "data:image/png;base64,aGVs bG8=")
                  [x68; x65; x6c; x6c; x6f] (txt "image/png") (txt "image/png")
                  resp1
                  (fun v (H : In v []) => match H with end)
                  eq_refl eq_refl eq_refl eq_refl eq_refl eq_refl eq_refl Ho)
        as (H2 & Hcalls & _ & Hstore)
  end.
  split; [| split; assumption].
  eexists. split; [exact H2 |]. cbn [classification request_id]. auto.
Defined.

End Base64Duplicates.
